(** * MoveToGive: the workout-completion and weekly-reward engine

    A shallow embedding of the local (localStorage-backed) services of the
    application,

      - [public/js/utils/helpers.js]            (storage, randomInt, getWeekNumberInMonth)
      - [public/js/utils/validation.js]         (movement input validation)
      - [public/js/services/workout.service.js] (completeWorkout, updateRewardRange, metrics)
      - [public/js/services/movement.service.js](createMovement, joinMovement, ...)
      - [public/js/services/badge.service.js]   (checkAndUnlockBadges)

    followed by the properties of the specification that concern them.

    Conventions of the embedding.
      - A JavaScript number that the code only ever uses as an integer is a [Z];
        a number that may be [NaN] is an [option Z] with [None] for [NaN].
      - A JavaScript object used as a dictionary is the [gmap string _] of
        its own properties; an absent property is a lookup that returns
        [None].  Where the key comes from the caller, reads and writes also
        reckon with what the object inherits from [Object.prototype]; a key
        that the code builds with a ['-'] in it is never an inherited name.
      - The persisted JSON document is a record of optional fields, because
        the services create and read partial documents.
      - Everything the code takes from its environment (the outcome of
        [Math.random()], whether [localStorage.setItem] throws, the clock, the
        implementation-defined [Date] string parser) is an explicit argument. *)

From Stdlib Require Import ZArith Lia Ascii String.
From stdpp Require Import base decidable option list strings pretty gmap fin_maps sorting.

Local Open Scope string_scope.
Local Open Scope Z_scope.

(** ** The calendar behind the built-in [Date] *)

Module Calendar.

(** Proleptic Gregorian calendar, months numbered 1..12. *)
Definition is_leap (y : Z) : bool :=
  ((y mod 4 =? 0) && negb (y mod 100 =? 0)) || (y mod 400 =? 0).

Definition days_in_month (y m : Z) : Z :=
  if m =? 2 then (if is_leap y then 29 else 28)
  else if (m =? 4) || (m =? 6) || (m =? 9) || (m =? 11) then 30
  else 31.

(** Day number of a civil date, counted from 1970-01-01 (day 0).  The year
    is shifted so that it starts on March 1st, which puts the leap day last. *)
Definition days_from_civil (y m d : Z) : Z :=
  let y' := if m <=? 2 then y - 1 else y in
  let era := y' / 400 in
  let yoe := y' mod 400 in
  let mp := (m + 9) mod 12 in
  let doy := (153 * mp + 2) / 5 + d - 1 in
  let doe := yoe * 365 + yoe / 4 - yoe / 100 + doy in
  era * 146097 + doe - 719468.

(** The civil date (year, month 1..12, day) of a day number. *)
Definition civil_from_days (z : Z) : Z * Z * Z :=
  let z' := z + 719468 in
  let era := z' / 146097 in
  let doe := z' mod 146097 in
  let yoe := (doe - doe / 1460 + doe / 36524 - doe / 146096) / 365 in
  let doy := doe - (365 * yoe + yoe / 4 - yoe / 100) in
  let mp := (5 * doy + 2) / 153 in
  let d := doy - (153 * mp + 2) / 5 + 1 in
  let m := if mp <? 10 then mp + 3 else mp - 9 in
  let y := yoe + era * 400 in
  (if m <=? 2 then y + 1 else y, m, d).

(** 1970-01-01 was a Thursday; Sunday is 0. *)
Definition weekday (z : Z) : Z := (z + 4) mod 7.

End Calendar.

(** ** The built-in [Date], as far as the services use it *)

Module JSDate.
Import Calendar.

(** A valid [Date] is the day number of its local midnight; [None] is an
    Invalid Date.  The local time zone is taken to be UTC. *)
Definition t := option Z.

(** [TimeClip]: a time value further than 100,000,000 days from the epoch
    is not a date. *)
Definition time_clip (dn : Z) : t :=
  if (-100000000 <=? dn) && (dn <=? 100000000) then Some dn else None.

(** [new Date(year, monthIndex, day)].  A year in 0..99 means 1900 + year;
    a month index outside 0..11 carries into the year; a day outside the
    month carries into the neighbouring months ([MakeDay]). *)
Definition make (year monthIndex day : option Z) : t :=
  match year, monthIndex, day with
  | Some y, Some m, Some d =>
      let yr := if (0 <=? y) && (y <=? 99) then 1900 + y else y in
      let ym := yr + m / 12 in
      let mn := m mod 12 in
      time_clip (days_from_civil ym (mn + 1) 1 + d - 1)
  | _, _, _ => None
  end.

Definition getFullYear (dt : t) : option Z :=
  dn ← dt; Some (civil_from_days dn).1.1.
(** [getMonth] is 0-based. *)
Definition getMonth (dt : t) : option Z :=
  dn ← dt; Some ((civil_from_days dn).1.2 - 1).
Definition getDate (dt : t) : option Z :=
  dn ← dt; Some (civil_from_days dn).2.
Definition getDay (dt : t) : option Z :=
  dn ← dt; Some (weekday dn).

End JSDate.

(** ** Strings and numbers *)

(** [s.split(c)] for a one-character separator. *)
Fixpoint split_on (c : ascii) (s : string) : list string :=
  match s with
  | EmptyString => [EmptyString]
  | String a s' =>
      if decide (a = c) then EmptyString :: split_on c s'
      else match split_on c s' with
           | [] => [String a EmptyString]
           | p :: ps => String a p :: ps
           end
  end.

Definition digit_of (a : ascii) : option N :=
  let n := N_of_ascii a in
  if ((48 <=? n) && (n <=? 57))%N then Some (n - 48)%N else None.

Fixpoint digits_value (acc : N) (s : string) : option N :=
  match s with
  | EmptyString => Some acc
  | String a s' =>
      match digit_of a with
      | Some d => digits_value (10 * acc + d)%N s'
      | None => None
      end
  end.

(** [Number(s)] on the pieces of a date key.  The empty string is 0 and a
    run of decimal digits is its value; every other string reads as [NaN].
    (The other numeric literal forms of JavaScript -- surrounding white
    space, a sign, a fraction, an exponent, a radix prefix, [Infinity] -- are
    not date keys the application produces and are outside the embedding.) *)
Definition Number (s : string) : option Z := Z.of_N <$> digits_value 0 s.

(** A number inside a template literal. *)
Definition show (n : option Z) : string :=
  match n with Some z => pretty z | None => "NaN" end.

(** [Math.ceil(n / 7)] for an integer [n]. *)
Definition ceil_div7 (n : Z) : Z := - ((- n) / 7).

(** [===] on numbers: [NaN] is equal to nothing. *)
Definition strict_eq (a b : option Z) : bool :=
  match a, b with
  | Some x, Some y => x =? y
  | _, _ => false
  end.

(** Truthiness of a property that holds a number (absent is [undefined]). *)
Definition truthy_num (v : option Z) : bool :=
  match v with Some z => negb (z =? 0) | None => false end.

(** Truthiness of a property that holds a boolean. *)
Definition truthy_bool (v : option bool) : bool := default false v.

(** ** Plain objects used as maps *)

(** A plain object ([{}], or what [JSON.parse] makes) is modelled by the map
    of its own properties.  Under the twelve names below it also inherits a
    property from [Object.prototype]: a function, or for ['__proto__'] an
    accessor whose getter returns the prototype and whose setter ignores
    every value that is neither an object nor [null]. *)
Definition inherited_names : list string :=
  ["__proto__"; "constructor"; "hasOwnProperty"; "isPrototypeOf";
   "propertyIsEnumerable"; "toLocaleString"; "toString"; "valueOf";
   "__defineGetter__"; "__defineSetter__"; "__lookupGetter__"; "__lookupSetter__"].

Definition inherited (k : string) : bool := bool_decide (k ∈ inherited_names).

(** [o[k] = v] for a boolean, a number or a string [v]: the own property is
    set, except that ['__proto__'] on an object without an own property of
    that name goes to the inherited setter, which does nothing; [JSON.parse]
    is what can make ['__proto__'] an own property. *)
Definition assign {A} (k : string) (v : A) (o : gmap string A) : gmap string A :=
  if bool_decide (k = "__proto__") && bool_decide (o !! k = None) then o
  else <[k := v]> o.

(** [!!o[k]] for an object of booleans: the own property if there is one,
    and otherwise what is inherited, which is truthy. *)
Definition truthy_prop (o : gmap string bool) (k : string) : bool :=
  match o !! k with
  | Some b => b
  | None => inherited k
  end.

(** An entry of a contribution ledger: a number, or a string that is not
    empty, whose characters are left out (see [contribute]). *)
Inductive Entry := Num (z : Z) | Text.

(** ** The persisted document *)

Module Movement.
Record t := mk {
  id : Z;
  name : string;
  charity : string;
  description : string;
  startDate : string;
  endDate : string;
  creator : string;
  members : list string;
  totalRaised : Z;
  (** [None]: the property is missing, which the services allow for. *)
  weeklyContributions : option (gmap string Entry);
  createdAt : string
}.

Definition with_members (f : list string → list string) (m : t) : t :=
  mk (id m) (name m) (charity m) (description m) (startDate m) (endDate m)
     (creator m) (f (members m)) (totalRaised m) (weeklyContributions m)
     (createdAt m).

Definition with_contributions (wc : gmap string Entry) (total : Z) (m : t) : t :=
  mk (id m) (name m) (charity m) (description m) (startDate m) (endDate m)
     (creator m) (members m) total (Some wc) (createdAt m).
End Movement.

(** A friend record, without its [id] (a clock value plus a random
    fraction); only the number of friends matters to the engine. *)
Record Friend := mkFriend {
  friend_name : string;
  friend_displayName : string;
  friend_days : Z;
  friend_streak : Z;
  friend_earned : Z;
  friend_lastActive : string
}.

(** The JSON document under the key ['walktogive_data'].  Every property may
    be missing: the movement, friend and badge services write the document
    back as they found it, without filling in defaults. *)
Module Doc.
Record t := mk {
  completedDays : option (gmap string bool);
  weeklyRewards : option (gmap string Z);
  minReward : option Z;
  maxReward : option Z;
  friends : option (list Friend);
  movements : option (list Movement.t);
  cheers : option (gmap string bool);
  inviteCode : option string;
  unlockedBadges : option (list string);
  profiles : option (gmap string string)
}.

Definition with_movements (ms : list Movement.t) (d : t) : t :=
  mk (completedDays d) (weeklyRewards d) (minReward d) (maxReward d)
     (friends d) (Some ms) (cheers d) (inviteCode d) (unlockedBadges d)
     (profiles d).

Definition with_unlockedBadges (bs : list string) (d : t) : t :=
  mk (completedDays d) (weeklyRewards d) (minReward d) (maxReward d)
     (friends d) (movements d) (cheers d) (inviteCode d) (Some bs)
     (profiles d).
End Doc.

(** The document as the workout service sees it after [getData]: every
    property present. *)
Module Data.
Record t := mk {
  completedDays : gmap string bool;
  weeklyRewards : gmap string Z;
  minReward : Z;
  maxReward : Z;
  friends : list Friend;
  movements : list Movement.t;
  cheers : gmap string bool;
  inviteCode : string;
  unlockedBadges : list string;
  profiles : gmap string string
}.

Definition with_completedDays (cd : gmap string bool) (d : t) : t :=
  mk cd (weeklyRewards d) (minReward d) (maxReward d) (friends d)
     (movements d) (cheers d) (inviteCode d) (unlockedBadges d) (profiles d).

Definition with_weeklyRewards (wr : gmap string Z) (d : t) : t :=
  mk (completedDays d) wr (minReward d) (maxReward d) (friends d)
     (movements d) (cheers d) (inviteCode d) (unlockedBadges d) (profiles d).

Definition with_movements (ms : list Movement.t) (d : t) : t :=
  mk (completedDays d) (weeklyRewards d) (minReward d) (maxReward d)
     (friends d) ms (cheers d) (inviteCode d) (unlockedBadges d) (profiles d).

Definition with_range (lo hi : Z) (d : t) : t :=
  mk (completedDays d) (weeklyRewards d) lo hi (friends d)
     (movements d) (cheers d) (inviteCode d) (unlockedBadges d) (profiles d).

(** What [JSON.stringify] writes for it. *)
Definition to_doc (d : t) : Doc.t :=
  Doc.mk (Some (completedDays d)) (Some (weeklyRewards d))
         (Some (minReward d)) (Some (maxReward d)) (Some (friends d))
         (Some (movements d)) (Some (cheers d)) (Some (inviteCode d))
         (Some (unlockedBadges d)) (Some (profiles d)).
End Data.

(** ** [helpers.js]: storage, random numbers, week numbers *)

(** The content of [localStorage] under the application's key: absent, or a
    document.  [JSON.parse (JSON.stringify d)] is [d] for the documents of
    this model, so the store holds the document itself. *)
Definition Store := option Doc.t.

(** [storage.get]: [null] when the item is absent.  (The [catch] branch also
    returns [null]; it is taken when the item is not JSON, which a [Store]
    cannot hold.) *)
Definition storage_get (st : Store) : option Doc.t := st.

(** [storage.set]: [localStorage.setItem] may throw (quota exceeded, storage
    disabled); the exception is caught, logged, and turned into [false].
    [ok] says whether [setItem] goes through. *)
Definition storage_set (ok : bool) (value : Doc.t) (st : Store) : Store * bool :=
  if ok then (Some value, true) else (st, false).

(** A result of [Math.random()]: the real number [num / (num + gap)], which
    lies in [0, 1) by construction.  The model lets it be any rational of
    that interval and computes products with it exactly, where the code has
    a double and a rounded product: for one outcome the two floors can
    differ by one, but for every [k] from 1 to 2^53 both lie in [0 .. k - 1],
    and that range is all the properties below use. *)
Record Unit01 := mkUnit01 { num : N; gap : positive }.

(** [Math.floor(u * k)]. *)
Definition floor_mul (u : Unit01) (k : Z) : Z :=
  (Z.of_N (num u) * k) / (Z.of_N (num u) + Z.pos (gap u)).

(** [randomInt(min, max)], with [u] the outcome of its [Math.random()]. *)
Definition randomInt (u : Unit01) (min max : Z) : Z :=
  floor_mul u (max - min + 1) + min.

Definition getWeekNumberInMonth (date : JSDate.t) : option Z :=
  let firstDay := JSDate.make (JSDate.getFullYear date) (JSDate.getMonth date) (Some 1) in
  firstDayOfWeek ← JSDate.getDay firstDay;
  dayOfMonth ← JSDate.getDate date;
  Some (ceil_div7 (firstDayOfWeek + dayOfMonth)).

(** What one call takes from the browser. *)
Record Env := mkEnv {
  (** the [Math.random()] that [randomInt] consumes *)
  random : Unit01;
  (** the code [generateInviteCode()] returns for the default document *)
  fresh_invite : string;
  (** whether [localStorage.setItem] goes through *)
  setItem_ok : bool;
  (** [Date.now()] and [new Date().toISOString()] *)
  now : Z;
  now_iso : string
}.

(** [s.trim()], for the ASCII white space characters. *)
Definition is_white (a : ascii) : bool :=
  let n := N_of_ascii a in
  ((9 <=? n) && (n <=? 13) || (n =? 32))%N.

Fixpoint trimStart (s : string) : string :=
  match s with
  | String a s' => if is_white a then trimStart s' else s
  | EmptyString => EmptyString
  end.

Definition trim (s : string) : string :=
  String.rev (trimStart (String.rev (trimStart s))).

Definition str_length (s : string) : Z := Z.of_nat (String.length s).

(** ** [validation.js] *)

Record Validation := mkValidation { valid : bool; message : string }.

Definition isValidMovementName (name : string) : Validation :=
  if (String.eqb name "") || (str_length (trim name) =? 0) then
    mkValidation false "Movement name cannot be empty"
  else if str_length (trim name) <? 3 then
    mkValidation false "Movement name must be at least 3 characters"
  else if str_length (trim name) >? 100 then
    mkValidation false "Movement name must be less than 100 characters"
  else mkValidation true "".

Definition isValidMovementDescription (description : string) : Validation :=
  if (String.eqb description "") || (str_length (trim description) =? 0) then
    mkValidation false "Description cannot be empty"
  else if str_length (trim description) <? 10 then
    mkValidation false "Description must be at least 10 characters"
  else if str_length (trim description) >? 1000 then
    mkValidation false "Description must be less than 1000 characters"
  else mkValidation true "".

(** ** Results and badge definitions *)

(** What [completeWorkout] returns. *)
Module Result.
Record t := mk {
  success : bool;
  weekCompleted : bool;
  reward : option Z   (* [None] is [null] *)
}.
End Result.

(** What [createMovement] returns. *)
Module CreateResult.
Record t := mk {
  success : bool;
  movement : option Movement.t;
  error : option string
}.
End CreateResult.

Module BadgeType.
Inductive t := days | weeks | streak | earnings | movements | friends.
End BadgeType.

Module Badge.
Record t := mk {
  id : string;
  name : string;
  description : string;
  requirement : Z;
  type : BadgeType.t
}.
End Badge.

(** The twelve definitions, in declaration order (the [icon] property, an
    emoji, is left out). *)
Definition BADGE_DEFINITIONS : list Badge.t := [
  Badge.mk "first_day" "First Step" "Complete your first workout" 1 BadgeType.days;
  Badge.mk "week_warrior" "Week Warrior" "Complete your first full week" 1 BadgeType.weeks;
  Badge.mk "streak_starter" "Streak Starter" "Maintain a 3-week streak" 3 BadgeType.streak;
  Badge.mk "consistent_champion" "Consistent Champion" "Maintain a 6-week streak" 6 BadgeType.streak;
  Badge.mk "unstoppable" "Unstoppable Force" "Maintain a 12-week streak" 12 BadgeType.streak;
  Badge.mk "month_master" "Month Master" "Complete 30 total days" 30 BadgeType.days;
  Badge.mk "hundred_club" "100 Club" "Complete 100 total days" 100 BadgeType.days;
  Badge.mk "charity_champion" "Charity Champion" "Earn $50 for charity" 50 BadgeType.earnings;
  Badge.mk "generous_giver" "Generous Giver" "Earn $100 for charity" 100 BadgeType.earnings;
  Badge.mk "movement_maker" "Movement Maker" "Create your first Movement" 1 BadgeType.movements;
  Badge.mk "social_butterfly" "Social Butterfly" "Add 5 friends" 5 BadgeType.friends;
  Badge.mk "year_long" "Year-Long Warrior" "Complete 365 days" 365 BadgeType.days
].

(** The [progress] object of the badge service. *)
Module Progress.
Record t := mk {
  days : Z; weeks : Z; streak : Z; earnings : Z; movements : Z; friends : Z
}.
End Progress.

Section Engine.

(** [new Date(s).getTime()] for a string [s]: the time value, or [None] for
    an Invalid Date.  The format of [s] decides between local and UTC time
    and, outside the ISO format, the parse is implementation-defined, so
    the parser is left to the browser. *)
Variable Date_parse : string → option Z.

(** ** [workout.service.js] *)

Definition defaultData (code : string) : Data.t :=
  Data.mk ∅ ∅ 1 5 [] [] ∅ code [] ∅.

(** The stored document merged over the defaults. *)
Definition getData (code : string) (st : Store) : Data.t :=
  match storage_get st with
  | None => defaultData code
  | Some sd =>
      Data.mk (default ∅ (Doc.completedDays sd))
              (default ∅ (Doc.weeklyRewards sd))
              (default 1 (Doc.minReward sd))
              (default 5 (Doc.maxReward sd))
              (default [] (Doc.friends sd))
              (default [] (Doc.movements sd))
              (default ∅ (Doc.cheers sd))
              (default code (Doc.inviteCode sd))
              (default [] (Doc.unlockedBadges sd))
              (default ∅ (Doc.profiles sd))
  end.

(** [saveData] drops the boolean that [storage.set] returns. *)
Definition saveData (ok : bool) (data : Data.t) (st : Store) : Store :=
  (storage_set ok (Data.to_doc data) st).1.

Definition isMovementActiveForDate (movement : Movement.t) (dateKey : string) : bool :=
  match Date_parse dateKey,
        Date_parse (Movement.startDate movement),
        Date_parse (Movement.endDate movement) with
  | Some date, Some start, Some end_ => (start <=? date) && (date <=? end_)
  | _, _, _ => false
  end.

(** The date key the week scan looks up: [`${year}-${month}-${day}`]. *)
Definition dateKeyOf (year month : option Z) (day : Z) : string :=
  show year +:+ "-" +:+ show month +:+ "-" +:+ show (Some day).

Definition weekKeyOf (year month weekNum : option Z) : string :=
  show year +:+ "-" +:+ show month +:+ "-week" +:+ show weekNum.

(** The week of [new Date(year, month - 1, day)], [month] being 1-based. *)
Definition weekOf (year month : option Z) (day : option Z) : option Z :=
  getWeekNumberInMonth (JSDate.make year ((λ m, m - 1) <$> month) day).

(** The body of the [for] loop of [isWeekComplete], run for [iters]
    consecutive days from [day] on. *)
Fixpoint isWeekComplete_loop (data : Data.t) (year month weekNum : option Z)
    (iters : nat) (day : Z) (count : Z) : Z :=
  match iters with
  | O => count
  | S iters' =>
      let dayWeek := weekOf year month (Some day) in
      let count' :=
        if strict_eq dayWeek weekNum then
          if truthy_bool (Data.completedDays data !! dateKeyOf year month day)
          then count + 1 else count
        else count in
      isWeekComplete_loop data year month weekNum iters' (day + 1) count'
  end.

Definition isWeekComplete (data : Data.t) (year month weekNum : option Z) : bool :=
  let daysInMonth := JSDate.getDate (JSDate.make year month (Some 0)) in
  let count :=
    match daysInMonth with
    | Some n => isWeekComplete_loop data year month weekNum (Z.to_nat n) 1 0
    | None => 0
    end in
  7 <=? count.

(** Crediting a movement: the ledger is created when missing, the entry of
    the week is set to 0 when falsy, then [reward] is added to the entry
    with [+=] and to the total.  The same four statements are in
    [completeWorkout] and in [addMovementContribution].  What the two
    statements on the entry do depends on what reading it finds:
    - an own number: 0 is falsy and set to 0 again; the number grows by
      [reward];
    - an own string: truthy, and [+=] appends the digits of [reward];
    - no own property, but an inherited one: truthy, so the entry is not
      set to 0, and [+=] assigns the inherited function or object, printed,
      with the digits of [reward] appended (how a native function is
      printed is left to the implementation, which is why the characters of
      a string entry are not kept);
    - nothing: [undefined] is falsy, the entry is set to 0 and grows by
      [reward]. *)
Definition contribute (weekKey : string) (reward : Z) (movement : Movement.t) : Movement.t :=
  let wc := default ∅ (Movement.weeklyContributions movement) in
  let wc :=
    match wc !! weekKey with
    | Some (Num z) => <[weekKey := Num (z + reward)]> wc
    | Some Text => <[weekKey := Text]> wc
    | None =>
        if inherited weekKey then assign weekKey Text wc
        else <[weekKey := Num (0 + reward)]> wc
    end in
  Movement.with_contributions wc (Movement.totalRaised movement + reward) movement.

(** The callback of [data.movements.forEach] in [completeWorkout]. *)
Definition fanOut (dateKey weekKey : string) (reward : Z) (movement : Movement.t) : Movement.t :=
  if bool_decide ("You" ∈ Movement.members movement)
     && isMovementActiveForDate movement dateKey
  then contribute weekKey reward movement
  else movement.

(** [const [year, month, day] = dateKey.split('-').map(Number)]: a missing
    piece is [undefined], which every later use reads as [NaN]. *)
Definition parseKey (dateKey : string) : option Z * option Z * option Z :=
  let parts := Number <$> split_on "-" dateKey in
  (mjoin (parts !! 0%nat), mjoin (parts !! 1%nat), mjoin (parts !! 2%nat)).

(** [completeWorkout] up to the point where the document is saved: the
    document to save and the object to return.  The week key holds a ['-'],
    as the date keys of the week scan do, so none of them is a name of
    [inherited_names]: [weeklyRewards] and the scan read and write own
    properties only. *)
Definition completeWorkout_data (u : Unit01) (dateKey : string) (data : Data.t)
    : Data.t * Result.t :=
  let data := Data.with_completedDays (assign dateKey true (Data.completedDays data)) data in
  let '(year, month, day) := parseKey dateKey in
  let weekNum := weekOf year month day in
  let weekKey := weekKeyOf year month weekNum in
  let weekCompleted := isWeekComplete data year month weekNum in
  if weekCompleted && negb (truthy_num (Data.weeklyRewards data !! weekKey)) then
    let reward := randomInt u (Data.minReward data) (Data.maxReward data) in
    let data := Data.with_weeklyRewards (<[weekKey := reward]> (Data.weeklyRewards data)) data in
    let data := Data.with_movements (fanOut dateKey weekKey reward <$> Data.movements data) data in
    (data, Result.mk true weekCompleted (Some reward))
  else
    (data, Result.mk true weekCompleted None).

Definition completeWorkout (e : Env) (dateKey : string) (st : Store) : Store * Result.t :=
  let data := getData (fresh_invite e) st in
  let '(data, result) := completeWorkout_data (random e) dateKey data in
  (saveData (setItem_ok e) data st, result).

Definition getCompletedDays (code : string) (st : Store) : gmap string bool :=
  Data.completedDays (getData code st).

Definition getWeeklyRewards (code : string) (st : Store) : gmap string Z :=
  Data.weeklyRewards (getData code st).

Definition getTotalCompletedDays (code : string) (st : Store) : Z :=
  Z.of_nat (size (Data.completedDays (getData code st))).

(** [Object.values(...).reduce((sum, val) => sum + val, 0)] *)
Definition getTotalEarnings (code : string) (st : Store) : Z :=
  map_fold (λ _ val sum, sum + val) 0 (Data.weeklyRewards (getData code st)).

(** [Object.keys(o).sort().reverse()]: the keys in descending order. *)
Definition sorted_keys_desc (o : gmap string Z) : list string :=
  reverse (merge_sort String.le (map_to_list o).*1).

(** The [for ... of] loop of [getCurrentStreak]. *)
Fixpoint streak_loop (rewards : gmap string Z) (weekKeys : list string) (streak : Z) : Z :=
  match weekKeys with
  | [] => streak
  | key :: rest =>
      if truthy_num (rewards !! key) then streak_loop rewards rest (streak + 1)
      else streak
  end.

Definition getCurrentStreak (code : string) (st : Store) : Z :=
  let data := getData code st in
  let weekKeys := sorted_keys_desc (Data.weeklyRewards data) in
  streak_loop (Data.weeklyRewards data) weekKeys 0.

(** The bounds are integers here; what [updateRewardRange] does with a
    [NaN] bound is outside the embedding. *)
Definition updateRewardRange (e : Env) (min max : Z) (st : Store) : Store * bool :=
  if (min >? max) || (min <? 1) then (st, false)
  else
    let data := getData (fresh_invite e) st in
    let data := Data.with_range min max data in
    (saveData (setItem_ok e) data st, true).

Definition getRewardRange (code : string) (st : Store) : Z * Z :=
  let data := getData code st in (Data.minReward data, Data.maxReward data).

(** ** [validation.js], the part that parses dates *)

Definition isValidDateRange (startDate endDate : string) : Validation :=
  match Date_parse startDate, Date_parse endDate with
  | Some start, Some end_ =>
      if end_ <? start then mkValidation false "End date must be after start date"
      else mkValidation true ""
  | _, _ => mkValidation false "Invalid date format"
  end.

(** ** [badge.service.js] *)

(** [getData] of the badge service: the stored document as it is. *)
Definition badge_getData (st : Store) : Doc.t :=
  match storage_get st with
  | Some data => data
  | None => Doc.mk (Some ∅) (Some ∅) None None (Some []) (Some []) None None (Some []) None
  end.

(** [saveData] of the badge and movement services: the document goes back
    as it is, and the boolean of [storage.set] is dropped. *)
Definition save_doc (ok : bool) (data : Doc.t) (st : Store) : Store :=
  (storage_set ok data st).1.

(** The first three metrics come from the workout service, which reads the
    store again; the others from the document at hand. *)
Definition getCurrentProgress (code : string) (st : Store) (data : Doc.t) : Progress.t :=
  let totalDays := getTotalCompletedDays code st in
  let totalEarnings := getTotalEarnings code st in
  let currentStreak := getCurrentStreak code st in
  let totalWeeks := Z.of_nat (size (default ∅ (Doc.weeklyRewards data))) in
  let totalMovements :=
    Z.of_nat (length (filter (λ m, Movement.creator m = "You")
                             (default [] (Doc.movements data)))) in
  let totalFriends := Z.of_nat (length (default [] (Doc.friends data))) in
  Progress.mk totalDays totalWeeks currentStreak totalEarnings totalMovements totalFriends.

Definition progress_of (progress : Progress.t) (ty : BadgeType.t) : Z :=
  match ty with
  | BadgeType.days => Progress.days progress
  | BadgeType.weeks => Progress.weeks progress
  | BadgeType.streak => Progress.streak progress
  | BadgeType.earnings => Progress.earnings progress
  | BadgeType.movements => Progress.movements progress
  | BadgeType.friends => Progress.friends progress
  end.

Definition shouldUnlockBadge (badge : Badge.t) (progress : Progress.t) : bool :=
  let current := progress_of progress (Badge.type badge) in
  current >=? Badge.requirement badge.

(** The [forEach] over the definitions: the state is the pair of
    [data.unlockedBadges] and [newlyUnlocked]. *)
Fixpoint unlock_loop (progress : Progress.t) (defs : list Badge.t)
    (unlocked : list string) (newlyUnlocked : list Badge.t) : list string * list Badge.t :=
  match defs with
  | [] => (unlocked, newlyUnlocked)
  | badge :: rest =>
      if bool_decide (Badge.id badge ∈ unlocked) then
        unlock_loop progress rest unlocked newlyUnlocked
      else if shouldUnlockBadge badge progress then
        unlock_loop progress rest (unlocked ++ [Badge.id badge]) (newlyUnlocked ++ [badge])
      else unlock_loop progress rest unlocked newlyUnlocked
  end.

Definition checkAndUnlockBadges (e : Env) (st : Store) : Store * list Badge.t :=
  let data := badge_getData st in
  let progress := getCurrentProgress (fresh_invite e) st data in
  let '(unlocked, newlyUnlocked) :=
    unlock_loop progress BADGE_DEFINITIONS (default [] (Doc.unlockedBadges data)) [] in
  if (0 <? length newlyUnlocked)%nat then
    (save_doc (setItem_ok e) (Doc.with_unlockedBadges unlocked data) st, newlyUnlocked)
  else (st, newlyUnlocked).

(** ** [movement.service.js] *)

(** A document without any property. *)
Definition Doc_empty : Doc.t :=
  Doc.mk None None None None None None None None None None.

(** [getData] of the movement service: [data || { movements: [] }]. *)
Definition movement_getData (st : Store) : Doc.t :=
  match storage_get st with
  | Some data => data
  | None => Doc.with_movements [] Doc_empty
  end.

(** [e] serves the call itself, [eb] the [checkAndUnlockBadges] it ends with. *)
Definition createMovement (e eb : Env) (name charity description startDate endDate : string)
    (st : Store) : Store * CreateResult.t :=
  let nameValidation := isValidMovementName name in
  if negb (valid nameValidation) then
    (st, CreateResult.mk false None (Some (message nameValidation)))
  else
  let descValidation := isValidMovementDescription description in
  if negb (valid descValidation) then
    (st, CreateResult.mk false None (Some (message descValidation)))
  else
  let dateValidation := isValidDateRange startDate endDate in
  if negb (valid dateValidation) then
    (st, CreateResult.mk false None (Some (message dateValidation)))
  else
  if String.eqb charity "" then
    (st, CreateResult.mk false None (Some "Charity required"))
  else
  let data := movement_getData st in
  let movement :=
    Movement.mk (now e) name charity description startDate endDate
                "You" ["You"] 0 (Some ∅) (now_iso e) in
  let data := Doc.with_movements (default [] (Doc.movements data) ++ [movement]) data in
  let st := save_doc (setItem_ok e) data st in
  let st := (checkAndUnlockBadges eb st).1 in
  (st, CreateResult.mk true (Some movement) None).

(** [data.movements.find(m => m.id === movementId)], with the position of
    the movement found, which the callers then change in place. *)
Definition find_movement (movementId : Z) (ms : list Movement.t) : option (nat * Movement.t) :=
  list_find (λ m, Movement.id m = movementId) ms.

Definition joinMovement (e : Env) (movementId : Z) (st : Store) : Store * bool :=
  let data := movement_getData st in
  match Doc.movements data with
  | None => (st, false)
  | Some ms =>
      match find_movement movementId ms with
      | None => (st, false)
      | Some (i, movement) =>
          if bool_decide ("You" ∈ Movement.members movement) then (st, false)
          else
            let movement := Movement.with_members (λ l, (l ++ ["You"])%list) movement in
            (save_doc (setItem_ok e) (Doc.with_movements (<[i := movement]> ms) data) st, true)
      end
  end.

Definition leaveMovement (e : Env) (movementId : Z) (st : Store) : Store * bool :=
  let data := movement_getData st in
  match Doc.movements data with
  | None => (st, false)
  | Some ms =>
      match find_movement movementId ms with
      | None => (st, false)
      | Some (i, movement) =>
          match list_find (λ x, x = "You") (Movement.members movement) with
          | None => (st, false)
          | Some (index, _) =>
              let movement := Movement.with_members (delete index) movement in
              (save_doc (setItem_ok e) (Doc.with_movements (<[i := movement]> ms) data) st, true)
          end
      end
  end.

Definition addMovementContribution (e : Env) (movementId : Z) (weekKey : string)
    (amount : Z) (st : Store) : Store :=
  let data := movement_getData st in
  match Doc.movements data with
  | None => st
  | Some ms =>
      match find_movement movementId ms with
      | None => st
      | Some (i, movement) =>
          if negb (bool_decide ("You" ∈ Movement.members movement)) then st
          else
            let movement := contribute weekKey amount movement in
            save_doc (setItem_ok e) (Doc.with_movements (<[i := movement]> ms) data) st
      end
  end.

End Engine.

(** ** Notions used to state the properties *)

Module CalendarCheck.
Import Calendar.

(** One 400-year era, checked date by date: the two conversions are
    inverse to each other on every date of the years 0..399. *)
Definition check_date (y m d : Z) : bool :=
  let '(y', m', d') := civil_from_days (days_from_civil y m d) in
  (y' =? y) && (m' =? m) && (d' =? d).

Definition check_month (y m : Z) : bool :=
  forallb (check_date y m) (seqZ 1 (days_in_month y m)).

Definition check_year (y : Z) : bool :=
  forallb (check_month y) (seqZ 1 12).

End CalendarCheck.

(** The week of the month in the specification's words:
    [ceil((firstWeekdayOfMonth + dayOfMonth) / 7)], with [firstWeekdayOfMonth]
    the Sunday-based weekday of day 1 of the month. *)
Definition spec_weekOfMonth (y m day : Z) : Z :=
  let firstWeekdayOfMonth := Calendar.weekday (Calendar.days_from_civil y m 1) in
  ceil_div7 (firstWeekdayOfMonth + day).

(** [day] is a calendar day of month [m] of year [y] and falls in week [w]. *)
Definition in_bucket (y m w day : Z) : Prop :=
  1 ≤ day ≤ Calendar.days_in_month y m ∧ spec_weekOfMonth y m day = w.

(** The test of the week scan on one day, as a boolean. *)
Definition counted (data : Data.t) (year month weekNum : option Z) (day : Z) : bool :=
  strict_eq (weekOf year month (Some day)) weekNum
  && truthy_bool (Data.completedDays data !! dateKeyOf year month day).

(** The week key that [completeWorkout] computes for a date key. *)
Definition weekKeyFor (dateKey : string) : string :=
  let '(year, month, day) := parseKey dateKey in
  weekKeyOf year month (weekOf year month day).

(** [Object.values(o)] added up. *)
Definition sum_values (o : gmap string Z) : Z :=
  map_fold (λ _ val sum, sum + val) 0 o.

(** The contribution ledger of a movement, a missing one being empty. *)
Definition contributions (movement : Movement.t) : gmap string Entry :=
  default ∅ (Movement.weeklyContributions movement).

(** [totalRaised == sum(weeklyContributions.values())]: the entries of the
    ledger are numbers, and the total is their sum. *)
Definition consistent (movement : Movement.t) : Prop :=
  ∃ o : gmap string Z,
    contributions movement = Num <$> o
    ∧ Movement.totalRaised movement = sum_values o.

(** At most one ['You'] among the members. *)
Definition member_once (movement : Movement.t) : Prop :=
  (length (filter (λ x, x = "You") (Movement.members movement)) ≤ 1)%nat.

(** Every stored reward is positive. *)
Definition rewards_positive (rewards : gmap string Z) : Prop :=
  ∀ k v, rewards !! k = Some v → 0 < v.

(** The movements of the stored document. *)
Definition stored_movements (st : Store) : list Movement.t :=
  Data.movements (getData "" st).

(** What an operation may do to one stored movement: nothing, credit it,
    add ['You'] where it is absent, or take one member out. *)
Inductive movement_step : Movement.t → Movement.t → Prop :=
  | step_same m : movement_step m m
  | step_contribute weekKey amount m :
      movement_step m (contribute weekKey amount m)
  | step_join m :
      "You" ∉ Movement.members m →
      movement_step m (Movement.with_members (λ l, (l ++ ["You"])%list) m)
  | step_leave index m :
      movement_step m (Movement.with_members (delete index) m).

(** A movement as [createMovement] makes it. *)
Definition fresh_movement (m : Movement.t) : Prop :=
  Movement.creator m = "You" ∧ Movement.members m = ["You"]
  ∧ Movement.totalRaised m = 0 ∧ Movement.weeklyContributions m = Some ∅.

(** How the list of stored movements may change: each movement takes a
    step, and fresh ones may be appended. *)
Definition evolves (ms ms' : list Movement.t) : Prop :=
  ∃ ms1 fresh, ms' = (ms1 ++ fresh)%list
               ∧ Forall2 movement_step ms ms1 ∧ Forall fresh_movement fresh.

(** The state in which the engine is meant to run: stored rewards positive
    and [1 ≤ minReward ≤ maxReward]. *)
Definition sound_store (code : string) (st : Store) : Prop :=
  rewards_positive (getWeeklyRewards code st)
  ∧ 1 ≤ (getRewardRange code st).1 ≤ (getRewardRange code st).2.

(** The local operations that write the document, with their arguments and
    what each call takes from the browser. *)
Inductive Op :=
  | OpCompleteWorkout (e : Env) (dateKey : string)
  | OpUpdateRewardRange (e : Env) (min max : Z)
  | OpCheckAndUnlockBadges (e : Env)
  | OpCreateMovement (e eb : Env) (name charity description startDate endDate : string)
  | OpJoinMovement (e : Env) (movementId : Z)
  | OpLeaveMovement (e : Env) (movementId : Z)
  | OpAddMovementContribution (e : Env) (movementId : Z) (weekKey : string) (amount : Z).

(** The operations whose week key, where they take one from their caller,
    is not a name that a ledger inherits. *)
Definition own_week_key (op : Op) : Prop :=
  match op with
  | OpAddMovementContribution _ _ weekKey _ => weekKey ∉ inherited_names
  | _ => True
  end.

Section Runs.

Variable Date_parse : string → option Z.

Definition apply_op (op : Op) (st : Store) : Store :=
  match op with
  | OpCompleteWorkout e dateKey => (completeWorkout Date_parse e dateKey st).1
  | OpUpdateRewardRange e min max => (updateRewardRange e min max st).1
  | OpCheckAndUnlockBadges e => (checkAndUnlockBadges e st).1
  | OpCreateMovement e eb name charity description startDate endDate =>
      (createMovement Date_parse e eb name charity description startDate endDate st).1
  | OpJoinMovement e movementId => (joinMovement e movementId st).1
  | OpLeaveMovement e movementId => (leaveMovement e movementId st).1
  | OpAddMovementContribution e movementId weekKey amount =>
      addMovementContribution e movementId weekKey amount st
  end.

(** The stores that the operations reach from a fresh browser. *)
Inductive reachable : Store → Prop :=
  | reachable_fresh : reachable None
  | reachable_step op st : reachable st → reachable (apply_op op st).

(** A sequence of [completeWorkout] calls. *)
Definition run_calls (calls : list (Env * string)) (st : Store) : Store :=
  foldl (λ st call, (completeWorkout Date_parse call.1 call.2 st).1) st calls.

(** How many calls of the sequence change the stored [weeklyRewards[k]]. *)
Fixpoint assignments (k : string) (calls : list (Env * string)) (st : Store) : nat :=
  match calls with
  | [] => 0
  | call :: rest =>
      let st' := (completeWorkout Date_parse call.1 call.2 st).1 in
      ((if decide (getWeeklyRewards "" st' !! k = getWeeklyRewards "" st !! k)
        then 0 else 1)
       + assignments k rest st')%nat
  end.

End Runs.

(** ** Sample data for the examples *)

Module Sample.

(** A [Date] string parser for the examples: [Y-M-D] is the midnight that
    starts that day, counted in days from the epoch. *)
Definition parse (s : string) : option Z :=
  let '(year, month, day) := parseKey s in
  JSDate.make year ((λ m, m - 1) <$> month) day.

Definition half : Unit01 := mkUnit01 1 1.
Definition zero : Unit01 := mkUnit01 0 1.

Definition env (u : Unit01) (ok : bool) : Env :=
  mkEnv u "WALKABCDEF" ok 1767225600000 "2026-01-01T00:00:00.000Z".

(** February 2026 starts on a Sunday: its first week is the 1st to the 7th. *)
Definition feb_week1 : list string :=
  ["2026-2-1"; "2026-2-2"; "2026-2-3"; "2026-2-4"; "2026-2-5"; "2026-2-6"; "2026-2-7"].

Definition completed (keys : list string) : gmap string bool :=
  list_to_map ((λ k, (k, true)) <$> keys).

(** A document with the given completed days and reward range, and
    nothing else. *)
Definition doc (keys : list string) (lo hi : Z) (ms : list Movement.t) : Doc.t :=
  Doc.mk (Some (completed keys)) (Some ∅) (Some lo) (Some hi) None (Some ms)
         None None None None.

Definition movement (id : Z) (members : list string) (startDate endDate : string)
    : Movement.t :=
  Movement.mk id "Run for water" "charity: water" "Ten kilometres a week"
              startDate endDate "You" members 0 (Some ∅)
              "2026-01-01T00:00:00.000Z".

(** Six days of the week done, the seventh to come. *)
Definition six_days : list string := take 6 feb_week1.

(** Three movements: one open all year with the user in it, one that starts
    in March with the user in it, one open all year without the user. *)
Definition three_movements : list Movement.t :=
  [movement 1 ["You"; "Ana"] "2026-01-01" "2026-12-31";
   movement 2 ["You"] "2026-03-01" "2026-12-31";
   movement 3 ["Ana"] "2026-01-01" "2026-12-31"].

(** The week is one day short; rewards are drawn from 1..5. *)
Definition store_six : Store := Some (doc six_days 1 5 three_movements).

(** The week is done and unrewarded, and the range is 0..1. *)
Definition store_zero_range : Store := Some (doc feb_week1 0 1 []).

(** Two calls for the same day: the first draws 0, the second 1/2. *)
Definition two_calls : list (Env * string) :=
  [(env zero true, "2026-2-1"); (env half true, "2026-2-1")].

(** The seventh day of the week, twice. *)
Definition seventh_twice : list (Env * string) :=
  [(env half true, "2026-2-7"); (env zero true, "2026-2-7")].

(** Is the string an ISO date, [YYYY-MM-DD]? *)
Definition iso_date (s : string) : bool :=
  match split_on "-" s with
  | [y; m; d] =>
      (String.length y =? 4)%nat && (String.length m =? 2)%nat
      && (String.length d =? 2)%nat
  | _ => false
  end.

(** A [Date] string parser for the examples, after V8 (Chrome, Node) in a
    zone [offset] minutes east of UTC: an ISO date, which is what an
    [<input type="date">] gives for [startDate] and [endDate], is the UTC
    midnight of its day, as ECMAScript has it; a date key [Y-M-D] that is
    not of that form goes to the legacy parser, which takes it as the
    midnight of the local day.  Time values are in minutes. *)
Definition parse_zone (offset : Z) (s : string) : option Z :=
  dn ← parse s; Some (dn * 1440 - (if iso_date s then 0 else offset)).

(** The user's own movement, from February 1st to February 7th 2026. *)
Definition first_week_movement : Movement.t :=
  movement 1 ["You"] "2026-02-01" "2026-02-07".

(** Six days of that week are done, the seventh is the last day of the
    movement. *)
Definition store_boundary : Store := Some (doc six_days 1 5 [first_week_movement]).

(** A document with two rewarded weeks. *)
Definition store_rewarded : Store :=
  Some (Doc.mk (Some (completed feb_week1))
               (Some (list_to_map [("2026-2-week1", 3); ("2026-1-week2", 4)]))
               (Some 1) (Some 5) None None None None None None).

End Sample.

(** ** More of the code: getters, callers, the friend service *)

(** What [getStats] returns. *)
Module Stats.
Record t := mk { totalDays : Z; currentStreak : Z; totalEarned : Z }.
End Stats.

Definition Doc_with_cheers (cs : gmap string bool) (d : Doc.t) : Doc.t :=
  Doc.mk (Doc.completedDays d) (Doc.weeklyRewards d) (Doc.minReward d) (Doc.maxReward d)
         (Doc.friends d) (Doc.movements d) (Some cs) (Doc.inviteCode d)
         (Doc.unlockedBadges d) (Doc.profiles d).

Definition Doc_with_friends (fs : list Friend) (d : Doc.t) : Doc.t :=
  Doc.mk (Doc.completedDays d) (Doc.weeklyRewards d) (Doc.minReward d) (Doc.maxReward d)
         (Some fs) (Doc.movements d) (Doc.cheers d) (Doc.inviteCode d)
         (Doc.unlockedBadges d) (Doc.profiles d).

Section MoreEngine.

Variable Date_parse : string → option Z.

(** *** [workout.service.js] *)

(** [!!data.completedDays[dateKey]] *)
Definition isDayCompleted (code : string) (dateKey : string) (st : Store) : bool :=
  truthy_prop (Data.completedDays (getData code st)) dateKey.

Definition getStats (code : string) (st : Store) : Stats.t :=
  Stats.mk (getTotalCompletedDays code st) (getCurrentStreak code st)
           (getTotalEarnings code st).

(** The rewards whose key starts with [`${year}-${month}-`], added up. *)
Definition getMonthlyTotal (code : string) (year month : Z) (st : Store) : Z :=
  let data := getData code st in
  map_fold
    (λ key val total,
       if String.prefix (pretty year +:+ "-" +:+ pretty month +:+ "-") key
       then total + val else total)
    0 (Data.weeklyRewards data).

Definition exportData (code : string) (st : Store) : Data.t := getData code st.

(** [importData] saves whatever document it is given. *)
Definition importData (ok : bool) (importedData : Doc.t) (st : Store) : Store :=
  (storage_set ok importedData st).1.

(** *** [badge.service.js] *)

Definition getUnlockedBadges (st : Store) : list Badge.t :=
  let data := badge_getData st in
  filter (λ badge, Badge.id badge ∈ default [] (Doc.unlockedBadges data))
         BADGE_DEFINITIONS.

(** [{unlocked, total}] *)
Definition getBadgeCount (st : Store) : Z * Z :=
  let data := badge_getData st in
  (Z.of_nat (length (default [] (Doc.unlockedBadges data))),
   Z.of_nat (length BADGE_DEFINITIONS)).

(** *** [movement.service.js] *)

Definition getMovements (st : Store) : list Movement.t :=
  default [] (Doc.movements (movement_getData st)).

(** [data.movements?.find(m => m.id === movementId) || null] *)
Definition getMovementById (movementId : Z) (st : Store) : option Movement.t :=
  ms ← Doc.movements (movement_getData st);
  snd <$> find_movement movementId ms.

(** *** [app.js] *)

(** [window.handleCompleteWorkout]: the badges are checked when the
    completion reports success; the rest of the handler redraws the page. *)
Definition handleCompleteWorkout (e eb : Env) (dateKey : string) (st : Store) : Store :=
  let '(st, result) := completeWorkout Date_parse e dateKey st in
  if Result.success result then (checkAndUnlockBadges eb st).1 else st.

(** *** The friend service: cheers *)

(** [getData] of the friend service: [data || { friends: [], cheers: {} }]. *)
Definition friend_getData (st : Store) : Doc.t :=
  match storage_get st with
  | Some data => data
  | None => Doc_with_cheers ∅ (Doc_with_friends [] Doc_empty)
  end.

(** [cheerFriend(friendId)]; [friendId] is the identifier as the template
    [`cheer-${friendId}`] prints it.  The toast that names the friend is
    left out.  The cheer key holds a ['-'], so it is never an inherited
    name. *)
Definition cheerFriend (e : Env) (friendId : string) (st : Store) : Store * bool :=
  let data := friend_getData st in
  let cheers := default ∅ (Doc.cheers data) in
  let cheerKey := "cheer-" +:+ friendId in
  if truthy_bool (cheers !! cheerKey) then (st, false)
  else (save_doc (setItem_ok e) (Doc_with_cheers (<[cheerKey := true]> cheers) data) st,
        true).

(** [data.cheers?.[cheerKey] || false] *)
Definition hasCheered (friendId : string) (st : Store) : bool :=
  let data := friend_getData st in
  truthy_bool (default ∅ (Doc.cheers data) !! ("cheer-" +:+ friendId)).

End MoreEngine.

(** The stored list of unlocked badge identifiers. *)
Definition stored_unlocked (st : Store) : list string :=
  Data.unlockedBadges (getData "" st).

(** The stored invite code, if the document has one. *)
Definition stored_invite (st : Store) : option string :=
  storage_get st ≫= Doc.inviteCode.

(** What no operation takes away: the invite code once stored, the days
    marked complete, the weeks that have a reward entry. *)
Definition history_kept (st st' : Store) : Prop :=
  (∀ c, stored_invite st = Some c → stored_invite st' = Some c)
  ∧ (∀ k, truthy_prop (getCompletedDays "" st) k = true →
          truthy_prop (getCompletedDays "" st') k = true)
  ∧ (∀ k, is_Some (getWeeklyRewards "" st !! k) →
          is_Some (getWeeklyRewards "" st' !! k)).

(** ** More of [helpers.js], [formatters.js] and [validation.js] *)

(** [getDaysInMonth(year, month)], [month] being 0-based: day 0 of the next
    month. *)
Definition getDaysInMonth (year month : option Z) : option Z :=
  JSDate.getDate (JSDate.make year ((λ m, m + 1) <$> month) (Some 0)).

Definition getFirstDayOfMonth (year month : option Z) : option Z :=
  JSDate.getDay (JSDate.make year month (Some 1)).

(** [const numWeeks = Math.ceil((daysInMonth + firstDay) / 7)] of
    [renderWeeklySummary]. *)
Definition numWeeks (currentYear currentMonth : option Z) : option Z :=
  daysInMonth ← getDaysInMonth currentYear currentMonth;
  firstDay ← getFirstDayOfMonth currentYear currentMonth;
  Some (ceil_div7 (daysInMonth + firstDay)).

(** The week keys whose rewards [renderWeeklySummary] shows: the loop
    [for (week = 1; week <= numWeeks; week++)] with the key
    [`${currentYear}-${currentMonth + 1}-week${week}`].  With [numWeeks]
    being [NaN] the loop does not run. *)
Definition summaryWeekKeys (currentYear currentMonth : option Z) : list string :=
  match numWeeks currentYear currentMonth with
  | Some n =>
      (λ week, weekKeyOf currentYear ((λ m, m + 1) <$> currentMonth) (Some week))
        <$> seqZ 1 n
  | None => []
  end.

(** [s.charAt(i)] for an integer [i]: the empty string out of range. *)
Definition charAt (s : string) (i : Z) : string :=
  if i <? 0 then ""
  else match String.get (Z.to_nat i) s with
       | Some c => String c ""
       | None => ""
       end.

(** The loop
    [for (let i = 0; i < n; i++) code += chars.charAt(Math.floor(Math.random() * chars.length))]
    from round [i] on, [rnd i] being the outcome of [Math.random()] in
    round [i]. *)
Fixpoint random_chars_loop (chars : string) (rnd : nat → Unit01) (i n : nat)
    (code : string) : string :=
  match n with
  | O => code
  | S n' =>
      random_chars_loop chars rnd (S i) n'
        (code +:+ charAt chars (floor_mul (rnd i) (str_length chars)))
  end.

Definition generateInviteCode (rnd : nat → Unit01) : string :=
  random_chars_loop "ABCDEFGHJKLMNPQRSTUVWXYZ23456789" rnd 0 6 "WALK".

(** [generateId(length)] for an integer [length]. *)
Definition generateId (rnd : nat → Unit01) (length : Z) : string :=
  random_chars_loop "ABCDEFGHJKLMNPQRSTUVWXYZabcdefghjkmnpqrstuvwxyz23456789"
    rnd 0 (Z.to_nat length) "".

Definition is_ascii (a : ascii) : bool := (N_of_ascii a <? 128)%N.

(** [toUpperCase] of an ASCII character. *)
Definition upper (a : ascii) : ascii :=
  let n := N_of_ascii a in
  if ((97 <=? n) && (n <=? 122))%N then ascii_of_N (n - 32) else a.

Fixpoint toUpperCase (s : string) : string :=
  match s with
  | EmptyString => EmptyString
  | String a s' => String (upper a) (toUpperCase s')
  end.

(** The character class [[A-Z0-9]]. *)
Definition is_upper_or_digit (a : ascii) : bool :=
  let n := N_of_ascii a in
  ((65 <=? n) && (n <=? 90) || (48 <=? n) && (n <=? 57))%N.

(** [/^WALK[A-Z0-9]{6}$/.test(s)]: without the [m] flag, [$] is the end of
    the string. *)
Definition codeRegex_test (s : string) : bool :=
  match s with
  | String "W" (String "A" (String "L" (String "K" rest))) =>
      (String.length rest =? 6)%nat
      && forallb is_upper_or_digit (list_ascii_of_string rest)
  | _ => false
  end.

(** [isValidInviteCode(code)] for a code of ASCII characters.  Outside
    ASCII, [trim] and [toUpperCase] follow the Unicode tables (['ß'] becomes
    ['SS']), which are not modelled: the result is [None] there. *)
Definition isValidInviteCode (code : string) : option Validation :=
  if negb (forallb is_ascii (list_ascii_of_string code)) then None
  else Some (
    if (String.eqb code "") || (str_length (trim code) =? 0) then
      mkValidation false "Invite code cannot be empty"
    else if negb (codeRegex_test (toUpperCase code)) then
      mkValidation false "Invalid invite code format"
    else mkValidation true "").

(** What makes a character pass every test of [isValidInviteCode]. *)
Definition code_char (c : ascii) : bool :=
  is_ascii c && negb (is_white c) && is_upper_or_digit c
  && bool_decide (upper c = c).

(** [truncateText(text, maxLength)] for an integer [maxLength];
    [substring] reads a negative end as 0. *)
Definition truncateText (text : string) (maxLength : Z) : string :=
  if String.eqb text "" then ""
  else if str_length text <=? maxLength then text
  else String.substring 0 (Z.to_nat (maxLength - 3)) text +:+ "...".

(** The outcome of [formatRelativeTime] before it is printed: [None] is
    ['just now'], [Some (n, unit)] is [n] of the unit.  [now] and [d] are the
    time values of [new Date()] and of the date given, in milliseconds. *)
Definition relativeTime (now d : Z) : option (Z * string) :=
  let diffMs := now - d in
  let diffSec := diffMs / 1000 in
  let diffMin := diffSec / 60 in
  let diffHour := diffMin / 60 in
  let diffDay := diffHour / 24 in
  let diffWeek := diffDay / 7 in
  let diffMonth := diffDay / 30 in
  let diffYear := diffDay / 365 in
  if diffSec <? 60 then None
  else if diffMin <? 60 then Some (diffMin, "minute")
  else if diffHour <? 24 then Some (diffHour, "hour")
  else if diffDay <? 7 then Some (diffDay, "day")
  else if diffWeek <? 4 then Some (diffWeek, "week")
  else if diffMonth <? 12 then Some (diffMonth, "month")
  else Some (diffYear, "year").

Definition formatRelativeTime (now d : Z) : string :=
  match relativeTime now d with
  | None => "just now"
  | Some (n, unit) =>
      pretty n +:+ " " +:+ unit +:+ (if n =? 1 then "" else "s") +:+ " ago"
  end.

(** The swap [[a[i], a[j]] = [a[j], a[i]]] inside the bounds of the array,
    where [shuffleArray] makes it. *)
Definition swap {A} (i j : nat) (a : list A) : list A :=
  match a !! i, a !! j with
  | Some x, Some y => <[j := x]> (<[i := y]> a)
  | _, _ => a
  end.

(** The loop [for (let i = n; i > 0; i--)] of [shuffleArray]; [rnd i] is
    the outcome of [Math.random()] in the round of index [i]. *)
Fixpoint shuffle_loop {A} (rnd : nat → Unit01) (i : nat) (shuffled : list A) : list A :=
  match i with
  | O => shuffled
  | S i' =>
      let j := Z.to_nat (floor_mul (rnd i) (Z.of_nat i + 1)) in
      shuffle_loop rnd i' (swap i j shuffled)
  end.

Definition shuffleArray {A} (rnd : nat → Unit01) (array : list A) : list A :=
  shuffle_loop rnd (length array - 1) array.

(** * Properties *)

(** ** The calendar *)

Module CalendarFacts.
Import Calendar CalendarCheck.

Lemma era_checked : forallb check_year (seqZ 0 400) = true.
Proof. vm_compute. reflexivity. Qed.

Lemma in_seqZ (a n x : Z) : a ≤ x < a + n → In x (seqZ a n).
Proof. intros H. apply list_elem_of_In, elem_of_seqZ. lia. Qed.

Lemma roundtrip_era (y m d : Z) :
  0 ≤ y < 400 → 1 ≤ m ≤ 12 → 1 ≤ d ≤ days_in_month y m →
  civil_from_days (days_from_civil y m d) = (y, m, d).
Proof.
  intros Hy Hm Hd.
  pose proof era_checked as E.
  rewrite forallb_forall in E. specialize (E y (in_seqZ 0 400 y ltac:(lia))).
  unfold check_year in E. rewrite forallb_forall in E.
  specialize (E m (in_seqZ 1 12 m ltac:(lia))).
  unfold check_month in E. rewrite forallb_forall in E.
  specialize (E d (in_seqZ 1 (days_in_month y m) d ltac:(lia))).
  unfold check_date in E.
  destruct (civil_from_days (days_from_civil y m d)) as [[y' m'] d'].
  apply andb_prop in E as [E Ed]. apply andb_prop in E as [Ey Em].
  f_equal; [f_equal|]; lia.
Qed.

(** Shifting by whole eras. *)
Lemma days_from_civil_era (y m d q : Z) :
  days_from_civil (y + 400 * q) m d = days_from_civil y m d + 146097 * q.
Proof.
  unfold days_from_civil.
  assert (E : ∀ a, (a + 400 * q) / 400 = a / 400 + q
                   ∧ (a + 400 * q) mod 400 = a mod 400).
  { intros a. replace (a + 400 * q) with (a + q * 400) by lia.
    rewrite Z.div_add, Z.mod_add by lia. done. }
  destruct (m <=? 2).
  - replace (y + 400 * q - 1) with (y - 1 + 400 * q) by lia.
    destruct (E (y - 1)) as [-> ->]. lia.
  - destruct (E y) as [-> ->]. lia.
Qed.

Lemma civil_from_days_era (z q : Z) :
  civil_from_days (z + 146097 * q) =
  let '(y, m, d) := civil_from_days z in (y + 400 * q, m, d).
Proof.
  unfold civil_from_days.
  replace (z + 146097 * q + 719468) with (z + 719468 + q * 146097) by lia.
  rewrite Z.div_add, Z.mod_add by lia.
  set (doe := (z + 719468) mod 146097).
  set (yoe := (doe - doe / 1460 + doe / 36524 - doe / 146096) / 365).
  set (doy := doe - (365 * yoe + yoe / 4 - yoe / 100)).
  set (mp := (5 * doy + 2) / 153).
  destruct ((if mp <? 10 then mp + 3 else mp - 9) <=? 2); f_equal; f_equal; lia.
Qed.

Lemma is_leap_era (y q : Z) : is_leap (y + 400 * q) = is_leap y.
Proof.
  unfold is_leap.
  replace (y + 400 * q) with (y + (100 * q) * 4) at 1 by lia.
  replace (y + 400 * q) with (y + (4 * q) * 100) at 1 by lia.
  replace (y + 400 * q) with (y + q * 400) by lia.
  by rewrite !Z.mod_add by lia.
Qed.

Lemma days_in_month_era (y m q : Z) :
  days_in_month (y + 400 * q) m = days_in_month y m.
Proof. unfold days_in_month. by rewrite is_leap_era. Qed.

(** The conversions are inverse to each other on every civil date. *)
Lemma roundtrip (y m d : Z) :
  1 ≤ m ≤ 12 → 1 ≤ d ≤ days_in_month y m →
  civil_from_days (days_from_civil y m d) = (y, m, d).
Proof.
  intros Hm Hd.
  pose proof (Z.div_mod y 400 ltac:(lia)) as Hy.
  pose proof (Z.mod_pos_bound y 400 ltac:(lia)) as Hr.
  replace y with (y mod 400 + 400 * (y / 400)) in Hd |- * by lia.
  rewrite days_in_month_era in Hd.
  rewrite days_from_civil_era, civil_from_days_era, roundtrip_era by lia.
  done.
Qed.

Lemma days_in_month_bounds (y m : Z) : 28 ≤ days_in_month y m ≤ 31.
Proof.
  unfold days_in_month.
  repeat match goal with |- context [if ?b then _ else _] => destruct b end; lia.
Qed.

(** The day after the last day of a month is the first of the next. *)
Lemma next_month_era (y m : Z) :
  0 ≤ y < 400 → 1 ≤ m ≤ 12 →
  days_from_civil (y + (m / 12)) (m mod 12 + 1) 1
  = days_from_civil y m (days_in_month y m) + 1.
Proof.
  intros Hy Hm.
  assert (E : forallb (λ y, forallb (λ m,
                days_from_civil (y + (m / 12)) (m mod 12 + 1) 1
                =? days_from_civil y m (days_in_month y m) + 1)
                (seqZ 1 12)) (seqZ 0 400) = true) by (vm_compute; reflexivity).
  rewrite forallb_forall in E. specialize (E y (in_seqZ 0 400 y ltac:(lia))).
  rewrite forallb_forall in E. specialize (E m (in_seqZ 1 12 m ltac:(lia))).
  lia.
Qed.

Lemma next_month (y m : Z) :
  1 ≤ m ≤ 12 →
  days_from_civil (y + (m / 12)) (m mod 12 + 1) 1
  = days_from_civil y m (days_in_month y m) + 1.
Proof.
  intros Hm.
  pose proof (Z.div_mod y 400 ltac:(lia)) as Hy.
  pose proof (Z.mod_pos_bound y 400 ltac:(lia)) as Hr.
  replace y with (y mod 400 + 400 * (y / 400)) by lia.
  replace (y mod 400 + 400 * (y / 400) + m / 12)
    with (y mod 400 + m / 12 + 400 * (y / 400)) by lia.
  rewrite days_in_month_era, !days_from_civil_era, next_month_era by lia.
  lia.
Qed.

(** Days within a month are consecutive. *)
Lemma days_from_civil_day (y m d : Z) :
  days_from_civil y m d = days_from_civil y m 1 + (d - 1).
Proof. unfold days_from_civil. lia. Qed.

(** A bound on the day number, to stay clear of [TimeClip]. *)
Lemma days_from_civil_range (y m d : Z) :
  -270000 ≤ y ≤ 270000 → 1 ≤ m ≤ 12 → 0 ≤ d ≤ 32 →
  -100000000 ≤ days_from_civil y m d ≤ 100000000.
Proof.
  intros Hy Hm Hd. unfold days_from_civil.
  set (y' := if m <=? 2 then y - 1 else y).
  assert (-270001 ≤ y' ≤ 270000) by (subst y'; destruct (m <=? 2); lia).
  clearbody y'.
  pose proof (Z.mod_pos_bound (m + 9) 12 ltac:(lia)).
  Z.to_euclidean_division_equations. lia.
Qed.

End CalendarFacts.

(** ** [Date] on real calendar dates *)

Module JSDateFacts.
Import Calendar CalendarFacts JSDate.

Lemma time_clip_in_range (dn : Z) :
  -100000000 ≤ dn ≤ 100000000 → time_clip dn = Some dn.
Proof.
  intros H. unfold time_clip.
  destruct (-100000000 <=? dn) eqn:E1; [|lia].
  destruct (dn <=? 100000000) eqn:E2; [done|lia].
Qed.

(** [new Date(y, m - 1, day)] is the day [day] of month [m] of year [y]. *)
Lemma make_civil (y m day : Z) :
  100 ≤ y ≤ 270000 → 1 ≤ m ≤ 12 → 1 ≤ day ≤ days_in_month y m →
  make (Some y) (Some (m - 1)) (Some day) = Some (days_from_civil y m day).
Proof.
  intros Hy Hm Hd. unfold make.
  destruct ((0 <=? y) && (y <=? 99)) eqn:E; [lia|].
  replace ((m - 1) / 12) with 0 by (symmetry; apply Z.div_small; lia).
  rewrite Z.mod_small by lia.
  replace (y + 0) with y by lia. replace (m - 1 + 1) with m by lia.
  pose proof (days_in_month_bounds y m).
  rewrite (days_from_civil_day y m day).
  replace (days_from_civil y m 1 + day - 1)
    with (days_from_civil y m 1 + (day - 1)) by lia.
  rewrite <- days_from_civil_day.
  apply time_clip_in_range, days_from_civil_range; lia.
Qed.

(** [new Date(y, m, 0).getDate()] is the number of days of month [m]. *)
Lemma daysInMonth_civil (y m : Z) :
  100 ≤ y ≤ 270000 → 1 ≤ m ≤ 12 →
  getDate (make (Some y) (Some m) (Some 0)) = Some (days_in_month y m).
Proof.
  intros Hy Hm. unfold make.
  destruct ((0 <=? y) && (y <=? 99)) eqn:E; [lia|].
  rewrite next_month by lia.
  pose proof (days_in_month_bounds y m).
  replace (days_from_civil y m (days_in_month y m) + 1 + 0 - 1)
    with (days_from_civil y m (days_in_month y m)) by lia.
  rewrite time_clip_in_range by (apply days_from_civil_range; lia).
  unfold getDate. cbn [mbind option_bind]. by rewrite roundtrip by lia.
Qed.

(** The code's week number is the specification's formula. *)
Lemma weekOf_civil (y m day : Z) :
  100 ≤ y ≤ 270000 → 1 ≤ m ≤ 12 → 1 ≤ day ≤ days_in_month y m →
  weekOf (Some y) (Some m) (Some day) = Some (spec_weekOfMonth y m day).
Proof.
  intros Hy Hm Hd. unfold weekOf. cbn [fmap option_fmap option_map].
  rewrite make_civil by done.
  unfold getWeekNumberInMonth, getFullYear, getMonth, getDate, getDay.
  cbn [mbind option_bind]. rewrite roundtrip by done. cbn [fst snd].
  pose proof (days_in_month_bounds y m).
  rewrite make_civil by lia. done.
Qed.

End JSDateFacts.

(** ** The week scan *)

Lemma filter_agree {A} (P Q : A → Prop) `{!∀ x, Decision (P x), !∀ x, Decision (Q x)}
    (l : list A) :
  Forall (λ x, P x ↔ Q x) l → filter P l = filter Q l.
Proof.
  induction 1 as [|x l Hx _ IH]; [done|].
  destruct (decide (P x)).
  - rewrite !filter_cons_True by tauto. by rewrite IH.
  - rewrite !filter_cons_False by tauto. done.
Qed.

Lemma isWeekComplete_loop_count (data : Data.t) (year month weekNum : option Z)
    (iters : nat) (day count : Z) :
  isWeekComplete_loop data year month weekNum iters day count
  = count + Z.of_nat (length (filter (λ d, counted data year month weekNum d = true)
                                     (seqZ day (Z.of_nat iters)))).
Proof.
  revert day count. induction iters as [|n IH]; intros day count.
  - simpl. lia.
  - rewrite seqZ_cons by lia. cbn [isWeekComplete_loop].
    rewrite IH, filter_cons.
    replace (Z.pred (Z.of_nat (S n))) with (Z.of_nat n) by lia.
    replace (Z.succ day) with (day + 1) by lia.
    fold (weekOf year month (Some day)).
    assert (Hstep : (if strict_eq (weekOf year month (Some day)) weekNum
                     then if truthy_bool (Data.completedDays data !! dateKeyOf year month day)
                          then count + 1 else count
                     else count)
                    = if counted data year month weekNum day then count + 1 else count).
    { unfold counted. by destruct (strict_eq _ _), (truthy_bool _). }
    rewrite Hstep.
    destruct (decide (counted data year month weekNum day = true)) as [E|E].
    + rewrite E. cbn [length]. lia.
    + apply not_true_is_false in E. rewrite E. lia.
Qed.


(** ** Strings and inherited names *)

Lemma append_cons (a : ascii) (s t : string) : String a s +:+ t = String a (s +:+ t).
Proof. done. Qed.

Lemma append_assoc (s1 s2 s3 : string) : (s1 +:+ s2) +:+ s3 = s1 +:+ (s2 +:+ s3).
Proof. induction s1 as [|a s1 IH]; [done|]. by rewrite !append_cons, IH. Qed.

Lemma length_append (s1 s2 : string) :
  String.length (s1 +:+ s2) = (String.length s1 + String.length s2)%nat.
Proof. induction s1 as [|a s1 IH]; [done|]. rewrite append_cons. simpl. by rewrite IH. Qed.

Lemma list_ascii_of_append (s t : string) :
  list_ascii_of_string (s +:+ t) = (list_ascii_of_string s ++ list_ascii_of_string t)%list.
Proof. induction s as [|a s IH]; [done|]. rewrite append_cons. simpl. by rewrite IH. Qed.

(** A key that holds a ['-'] is not a name that objects inherit. *)
Lemma dash_not_inherited (k : string) :
  "-"%char ∈ list_ascii_of_string k → k ∉ inherited_names.
Proof.
  intros Hd Hin. unfold inherited_names in Hin.
  repeat (apply elem_of_cons in Hin as [->|Hin];
          [vm_compute in Hd;
           repeat (apply elem_of_cons in Hd as [Hd|Hd]; [discriminate|]);
           by apply elem_of_nil in Hd|]).
  by apply elem_of_nil in Hin.
Qed.

Lemma weekKeyOf_own (year month weekNum : option Z) :
  weekKeyOf year month weekNum ∉ inherited_names.
Proof.
  apply dash_not_inherited. unfold weekKeyOf.
  rewrite list_ascii_of_append. apply elem_of_app. right.
  change ("-" +:+ ?t) with (String "-" t). simpl. by left.
Qed.

Lemma weekKeyFor_own (dateKey : string) : weekKeyFor dateKey ∉ inherited_names.
Proof.
  unfold weekKeyFor. destruct (parseKey dateKey) as [[year month] day].
  apply weekKeyOf_own.
Qed.

Section Properties.

Variable Date_parse : string → option Z.

Lemma fst_pair {A B} (a : A) (b : B) : (a, b).1 = a.
Proof. done. Qed.

Lemma truthy_bool_true (v : option bool) : truthy_bool v = true ↔ v = Some true.
Proof. destruct v as [[]|]; simpl; split; congruence. Qed.

Lemma completeWorkout_weekCompleted (e : Env) (dateKey : string) (st : Store)
    (year month day : option Z) :
  parseKey dateKey = (year, month, day) →
  Result.weekCompleted (completeWorkout Date_parse e dateKey st).2
  = isWeekComplete
      (Data.with_completedDays
         (assign dateKey true (getCompletedDays (fresh_invite e) st))
         (getData (fresh_invite e) st))
      year month (weekOf year month day).
Proof.
  intros Hp. unfold completeWorkout, completeWorkout_data, getCompletedDays.
  rewrite Hp. by destruct (_ && _).
Qed.

(** A date key whose first piece is a number is not ['__proto__']: the
    assignment sets the own property. *)
Lemma assign_parsed {A} (dateKey : string) (y : Z) (month day : option Z) (v : A)
    (o : gmap string A) :
  parseKey dateKey = (Some y, month, day) → assign dateKey v o = <[dateKey := v]> o.
Proof.
  intros Hp. unfold assign. destruct (bool_decide_reflect (dateKey = "__proto__")) as [->|];
    [|done].
  vm_compute in Hp. discriminate.
Qed.

(** On a real calendar month the scan counts the completed days of the bucket. *)
Lemma isWeekComplete_civil (data : Data.t) (y m w : Z) :
  100 ≤ y ≤ 270000 → 1 ≤ m ≤ 12 →
  isWeekComplete data (Some y) (Some m) (Some w)
  = (7 <=? Z.of_nat (length (filter
       (λ day, spec_weekOfMonth y m day = w
               ∧ Data.completedDays data !! dateKeyOf (Some y) (Some m) day = Some true)
       (seqZ 1 (Calendar.days_in_month y m))))).
Proof.
  intros Hy Hm. unfold isWeekComplete.
  rewrite JSDateFacts.daysInMonth_civil by done.
  rewrite isWeekComplete_loop_count.
  pose proof (CalendarFacts.days_in_month_bounds y m).
  rewrite Z2Nat.id by lia. rewrite Z.add_0_l.
  f_equal. f_equal. f_equal.
  apply filter_agree. apply Forall_forall. intros day Hday.
  apply elem_of_seqZ in Hday.
  unfold counted. rewrite JSDateFacts.weekOf_civil by lia.
  rewrite andb_true_iff, truthy_bool_true. simpl. rewrite Z.eqb_eq. done.
Qed.

(** C2.  For a date key that names a real calendar date, [completeWorkout]
    reports [weekCompleted] exactly when at least seven distinct days of
    the date's month lie in the date's week bucket and are marked complete
    (the date just completed included), the week of a day being
    [ceil((firstWeekdayOfMonth + dayOfMonth) / 7)].  Hence a bucket that
    holds fewer than seven calendar days of its month is never reported
    complete, whatever has been completed. *)
Theorem week_completed_iff_seven_days (e : Env) (dateKey : string) (st : Store)
    (y m d : Z) :
  parseKey dateKey = (Some y, Some m, Some d) →
  100 ≤ y ≤ 270000 → 1 ≤ m ≤ 12 → 1 ≤ d ≤ Calendar.days_in_month y m →
  let res := (completeWorkout Date_parse e dateKey st).2 in
  let done := <[dateKey := true]> (getCompletedDays (fresh_invite e) st) in
  let w := spec_weekOfMonth y m d in
  (Result.weekCompleted res = true ↔
     ∃ ds : list Z, NoDup ds ∧ length ds = 7%nat ∧
       Forall (λ day, in_bucket y m w day
                      ∧ done !! dateKeyOf (Some y) (Some m) day = Some true) ds)
  ∧ ((∀ ds : list Z, NoDup ds → Forall (in_bucket y m w) ds → (length ds < 7)%nat) →
     Result.weekCompleted res = false).
Proof.
  intros Hp Hy Hm Hd res done w.
  assert (Hiff : Result.weekCompleted res = true ↔
     ∃ ds : list Z, NoDup ds ∧ length ds = 7%nat ∧
       Forall (λ day, in_bucket y m w day
                      ∧ done !! dateKeyOf (Some y) (Some m) day = Some true) ds).
  { subst res. rewrite (completeWorkout_weekCompleted _ _ _ _ _ _ Hp).
    rewrite (assign_parsed _ _ _ _ _ _ Hp).
    rewrite JSDateFacts.weekOf_civil by done. fold w.
    rewrite isWeekComplete_civil by done. cbn [Data.completedDays Data.with_completedDays].
    fold done.
    set (P := λ day, spec_weekOfMonth y m day = w
                     ∧ done !! dateKeyOf (Some y) (Some m) day = Some true).
    set (l := filter P (seqZ 1 (Calendar.days_in_month y m))).
    assert (Hl : NoDup l) by (apply NoDup_filter, NoDup_seqZ).
    rewrite Z.leb_le. split.
    - intros Hlen. exists (take 7 l). split; [|split].
      + eapply sublist_NoDup; [exact Hl|]. apply sublist_take.
      + rewrite length_take. lia.
      + apply Forall_forall. intros day Hday.
        apply elem_of_take in Hday as (i & Hi & _).
        apply list_elem_of_lookup_2 in Hi.
        apply list_elem_of_filter in Hi as [[Hw Hdone] Hrange].
        apply elem_of_seqZ in Hrange. unfold in_bucket. split; [split|]; [lia|done..].
    - intros (ds & Hnd & Hlen & Hall).
      assert (Hsub : ds ⊆+ l).
      { apply NoDup_submseteq; [done|]. intros day Hday.
        rewrite Forall_forall in Hall. destruct (Hall day Hday) as [[Hr Hw] Hdone].
        apply list_elem_of_filter. split; [done|]. apply elem_of_seqZ. lia. }
      apply submseteq_length in Hsub. lia. }
  split; [exact Hiff|].
  intros Hfew. apply not_true_iff_false. intros E.
  apply Hiff in E as (ds & Hnd & Hlen & Hall).
  specialize (Hfew ds Hnd). rewrite Forall_forall in Hall.
  assert (length ds < 7)%nat; [|lia].
  apply Hfew, Forall_forall. intros day Hday. by apply Hall.
Qed.

(** *** Reading and writing the store *)

(** The default invite code only fills in the [inviteCode] property. *)
Lemma getData_code (c1 c2 : string) (st : Store) :
  Data.with_completedDays (Data.completedDays (getData c1 st)) (getData c1 st)
  = getData c1 st
  ∧ Data.completedDays (getData c1 st) = Data.completedDays (getData c2 st)
  ∧ Data.weeklyRewards (getData c1 st) = Data.weeklyRewards (getData c2 st)
  ∧ Data.minReward (getData c1 st) = Data.minReward (getData c2 st)
  ∧ Data.maxReward (getData c1 st) = Data.maxReward (getData c2 st)
  ∧ Data.movements (getData c1 st) = Data.movements (getData c2 st)
  ∧ Data.unlockedBadges (getData c1 st) = Data.unlockedBadges (getData c2 st).
Proof. by destruct st as [sd|]. Qed.

Lemma getWeeklyRewards_code (c1 c2 : string) (st : Store) :
  getWeeklyRewards c1 st = getWeeklyRewards c2 st.
Proof. by destruct st. Qed.

Lemma getRewardRange_code (c1 c2 : string) (st : Store) :
  getRewardRange c1 st = getRewardRange c2 st.
Proof. by destruct st. Qed.

Lemma getData_to_doc (c : string) (data : Data.t) :
  getData c (Some (Data.to_doc data)) = data.
Proof. by destruct data. Qed.

Lemma saveData_cases (ok : bool) (data : Data.t) (st : Store) :
  saveData ok data st = if ok then Some (Data.to_doc data) else st.
Proof. unfold saveData, storage_set. by destruct ok. Qed.

Lemma completeWorkout_unfold (e : Env) (dateKey : string) (st : Store) :
  completeWorkout Date_parse e dateKey st
  = (saveData (setItem_ok e)
       (completeWorkout_data Date_parse (random e) dateKey (getData (fresh_invite e) st)).1
       st,
     (completeWorkout_data Date_parse (random e) dateKey (getData (fresh_invite e) st)).2).
Proof. unfold completeWorkout. by destruct (completeWorkout_data _ _ _ _). Qed.

(** *** Random rewards *)

Lemma floor_mul_bounds (u : Unit01) (k : Z) : 1 ≤ k → 0 ≤ floor_mul u k ≤ k - 1.
Proof.
  intros Hk. unfold floor_mul.
  set (n := Z.of_N (num u)). set (g := Z.pos (gap u)).
  assert (0 ≤ n) by (subst n; lia). assert (0 < g) by (subst g; lia).
  split.
  - apply Z.div_pos; nia.
  - cut (n * k / (n + g) < k); [lia|].
    apply Z.div_lt_upper_bound; nia.
Qed.

Lemma randomInt_bounds (u : Unit01) (min max : Z) :
  min ≤ max → min ≤ randomInt u min max ≤ max.
Proof.
  intros H. unfold randomInt.
  pose proof (floor_mul_bounds u (max - min + 1) ltac:(lia)). lia.
Qed.

(** *** What one completion does to the document *)

(** Either no reward is issued and rewards and movements stay as they are,
    or the week is complete and unrewarded, and the reward drawn is stored
    under the week key and fanned out. *)
Lemma completeWorkout_data_cases (u : Unit01) (dateKey : string) (data : Data.t) :
  let out := completeWorkout_data Date_parse u dateKey data in
  let wk := weekKeyFor dateKey in
  Result.success out.2 = true
  ∧ Data.completedDays out.1 = assign dateKey true (Data.completedDays data)
  ∧ Data.minReward out.1 = Data.minReward data
  ∧ Data.maxReward out.1 = Data.maxReward data
  ∧ ((Result.reward out.2 = None
      ∧ Data.weeklyRewards out.1 = Data.weeklyRewards data
      ∧ Data.movements out.1 = Data.movements data
      ∧ (Result.weekCompleted out.2 = true →
         truthy_num (Data.weeklyRewards data !! wk) = true))
     ∨ (Result.reward out.2
          = Some (randomInt u (Data.minReward data) (Data.maxReward data))
        ∧ Result.weekCompleted out.2 = true
        ∧ truthy_num (Data.weeklyRewards data !! wk) = false
        ∧ Data.weeklyRewards out.1
          = <[wk := randomInt u (Data.minReward data) (Data.maxReward data)]>
              (Data.weeklyRewards data)
        ∧ Data.movements out.1
          = fanOut Date_parse dateKey wk
              (randomInt u (Data.minReward data) (Data.maxReward data))
            <$> Data.movements data)).
Proof.
  unfold completeWorkout_data, weekKeyFor.
  destruct (parseKey dateKey) as [[year month] day].
  cbn [Data.weeklyRewards Data.with_completedDays].
  destruct (isWeekComplete _ year month _) eqn:Hc; cbn [andb].
  - destruct (truthy_num (Data.weeklyRewards data !! _)) eqn:Ht; cbn [negb];
      simpl; repeat split; auto.
    right. repeat split; auto.
  - simpl. repeat split; auto. left. repeat split; auto. discriminate.
Qed.

Lemma truthy_num_positive (rewards : gmap string Z) (k : string) (v : Z) :
  rewards_positive rewards → rewards !! k = Some v → truthy_num (rewards !! k) = true.
Proof.
  intros Hpos Hk. rewrite Hk. simpl. specialize (Hpos k v Hk).
  destruct (v =? 0) eqn:E; [lia|done].
Qed.

(** Positive rewards stay positive: what a call adds is a reward drawn from
    [minReward .. maxReward]. *)
Lemma rewards_positive_completeWorkout (code : string) (e : Env) (dateKey : string)
    (st : Store) :
  1 ≤ (getRewardRange code st).1 ≤ (getRewardRange code st).2 →
  rewards_positive (getWeeklyRewards code st) →
  rewards_positive (getWeeklyRewards code (completeWorkout Date_parse e dateKey st).1).
Proof.
  intros Hb Hpos. rewrite completeWorkout_unfold, saveData_cases. cbn [fst].
  destruct (setItem_ok e); [|done].
  rewrite (getRewardRange_code code (fresh_invite e)) in Hb.
  rewrite (getWeeklyRewards_code code (fresh_invite e)) in Hpos.
  unfold getWeeklyRewards, getRewardRange in *. cbn [fst snd] in Hb.
  rewrite getData_to_doc.
  destruct (completeWorkout_data_cases (random e) dateKey (getData (fresh_invite e) st))
    as (_ & _ & _ & _ & [(_ & -> & _)|(_ & _ & _ & -> & _)]); [done|].
  pose proof (randomInt_bounds (random e) _ _ (proj2 Hb)) as Hrange.
  intros k v. rewrite lookup_insert. case_decide.
  - intros [= <-]. lia.
  - apply Hpos.
Qed.

(** C4.  With integer bounds [1 ≤ minReward ≤ maxReward] in the state and
    any outcome of the random draw, a reward that [completeWorkout] issues
    lies between the bounds of that moment, and is therefore positive; so
    the stored rewards stay positive integers. *)
Theorem issued_reward_within_range (e : Env) (dateKey : string) (st : Store) (r : Z) :
  1 ≤ (getRewardRange (fresh_invite e) st).1 ≤ (getRewardRange (fresh_invite e) st).2 →
  Result.reward (completeWorkout Date_parse e dateKey st).2 = Some r →
  ((getRewardRange (fresh_invite e) st).1 ≤ r ≤ (getRewardRange (fresh_invite e) st).2
   ∧ 0 < r)
  ∧ (rewards_positive (getWeeklyRewards (fresh_invite e) st) →
     rewards_positive
       (getWeeklyRewards (fresh_invite e) (completeWorkout Date_parse e dateKey st).1)).
Proof.
  intros Hb Hr. split; [|by apply rewards_positive_completeWorkout].
  rewrite completeWorkout_unfold in Hr. cbn [snd] in Hr.
  unfold getRewardRange in *. cbn [fst snd] in *.
  set (data := getData (fresh_invite e) st) in *.
  destruct (completeWorkout_data_cases (random e) dateKey data)
    as (_ & _ & _ & _ & [(Hn & _)|(Hs & _)]); [congruence|].
  rewrite Hr in Hs. injection Hs as ->.
  pose proof (randomInt_bounds (random e) _ _ (proj2 Hb)) as Hrange. lia.
Qed.

(** *** One reward per week *)

Lemma getRewardRange_completeWorkout (code : string) (e : Env) (dateKey : string)
    (st : Store) :
  getRewardRange code (completeWorkout Date_parse e dateKey st).1
  = getRewardRange code st.
Proof.
  rewrite completeWorkout_unfold, saveData_cases. cbn [fst].
  destruct (setItem_ok e); [|done].
  unfold getRewardRange. rewrite getData_to_doc.
  destruct (completeWorkout_data_cases (random e) dateKey (getData (fresh_invite e) st))
    as (_ & _ & -> & -> & _).
  apply (getRewardRange_code (fresh_invite e) code).
Qed.

Lemma sound_store_completeWorkout (code : string) (e : Env) (dateKey : string)
    (st : Store) :
  sound_store code st → sound_store code (completeWorkout Date_parse e dateKey st).1.
Proof.
  intros [Hpos Hb]. split.
  - by apply rewards_positive_completeWorkout.
  - by rewrite getRewardRange_completeWorkout.
Qed.

(** A call in an already-rewarded week issues nothing. *)
Lemma rewarded_week_no_reward (code : string) (e : Env) (dateKey : string)
    (st : Store) (v : Z) :
  rewards_positive (getWeeklyRewards code st) →
  getWeeklyRewards code st !! weekKeyFor dateKey = Some v →
  Result.reward (completeWorkout Date_parse e dateKey st).2 = None.
Proof.
  intros Hpos Hk. rewrite completeWorkout_unfold. cbn [snd].
  destruct (completeWorkout_data_cases (random e) dateKey (getData (fresh_invite e) st))
    as (_ & _ & _ & _ & [(Hn & _)|(_ & _ & Ht & _)]); [done|].
  rewrite (getWeeklyRewards_code code (fresh_invite e)) in Hpos, Hk.
  unfold getWeeklyRewards in *.
  rewrite (truthy_num_positive _ _ _ Hpos Hk) in Ht. discriminate.
Qed.

(** A stored reward survives every call. *)
Lemma stored_reward_kept (code : string) (e : Env) (dateKey : string) (st : Store)
    (k : string) (v : Z) :
  rewards_positive (getWeeklyRewards code st) →
  getWeeklyRewards code st !! k = Some v →
  getWeeklyRewards code (completeWorkout Date_parse e dateKey st).1 !! k = Some v.
Proof.
  intros Hpos Hk. rewrite completeWorkout_unfold, saveData_cases. cbn [fst].
  destruct (setItem_ok e); [|done].
  rewrite (getWeeklyRewards_code code (fresh_invite e)) in Hpos, Hk.
  unfold getWeeklyRewards in *. rewrite getData_to_doc.
  destruct (completeWorkout_data_cases (random e) dateKey (getData (fresh_invite e) st))
    as (_ & _ & _ & _ & [(_ & -> & _)|(_ & _ & Ht & -> & _)]); [done|].
  rewrite lookup_insert_ne; [done|]. intros <-.
  rewrite (truthy_num_positive _ _ _ Hpos Hk) in Ht. discriminate.
Qed.

Lemma sound_store_run_calls (code : string) (calls : list (Env * string)) (st : Store) :
  sound_store code st → sound_store code (run_calls Date_parse calls st).
Proof.
  revert st. induction calls as [|call calls IH]; intros st Hs; [done|].
  apply IH. by apply sound_store_completeWorkout.
Qed.

Lemma stored_reward_kept_run (code : string) (calls : list (Env * string)) (st : Store)
    (k : string) (v : Z) :
  sound_store code st →
  getWeeklyRewards code st !! k = Some v →
  getWeeklyRewards code (run_calls Date_parse calls st) !! k = Some v.
Proof.
  revert st. induction calls as [|call calls IH]; intros st Hs Hk; [done|].
  apply IH; [by apply sound_store_completeWorkout|].
  apply stored_reward_kept; [apply Hs|done].
Qed.

Lemma assignments_after_reward (k : string) (calls : list (Env * string)) (st : Store)
    (v : Z) :
  sound_store "" st →
  getWeeklyRewards "" st !! k = Some v →
  assignments Date_parse k calls st = 0%nat.
Proof.
  revert st. induction calls as [|call calls IH]; intros st Hs Hk; [done|].
  cbn [assignments].
  pose proof (stored_reward_kept "" call.1 call.2 st k v (proj1 Hs) Hk) as Hk'.
  rewrite decide_True by congruence.
  rewrite IH; [done|by apply sound_store_completeWorkout|done].
Qed.

(** C1, as amended.  Starting from a state whose stored rewards are
    positive and whose bounds satisfy [1 ≤ minReward ≤ maxReward], a
    sequence of [completeWorkout] calls changes the stored
    [weeklyRewards[k]] at most once; a value that is stored at some point
    of the sequence is still there at its end; and after any such sequence
    a call for a date in a rewarded week returns [reward = null] and
    leaves the stored reward of that week as it is. *)
Theorem reward_assigned_at_most_once (code : string) (k : string)
    (calls : list (Env * string)) (st : Store) :
  rewards_positive (getWeeklyRewards code st) →
  1 ≤ (getRewardRange code st).1 ≤ (getRewardRange code st).2 →
  (assignments Date_parse k calls st ≤ 1)%nat
  ∧ (∀ calls1 calls2 v,
       calls = (calls1 ++ calls2)%list →
       getWeeklyRewards code (run_calls Date_parse calls1 st) !! k = Some v →
       getWeeklyRewards code (run_calls Date_parse calls st) !! k = Some v)
  ∧ (∀ e dateKey v,
       let st' := run_calls Date_parse calls st in
       getWeeklyRewards code st' !! weekKeyFor dateKey = Some v →
       Result.reward (completeWorkout Date_parse e dateKey st').2 = None
       ∧ getWeeklyRewards code (completeWorkout Date_parse e dateKey st').1
           !! weekKeyFor dateKey = Some v).
Proof.
  intros Hpos Hb.
  assert (Hs : sound_store code st) by done.
  assert (Hs0 : sound_store "" st).
  { split; [by rewrite (getWeeklyRewards_code _ code)
           |by rewrite (getRewardRange_code _ code)]. }
  split; [|split].
  - clear Hs Hpos Hb. revert st Hs0.
    induction calls as [|call calls IH]; intros st Hs0; cbn [assignments]; [lia|].
    pose proof (sound_store_completeWorkout "" call.1 call.2 st Hs0) as Hs1.
    destruct (decide (_ = _)) as [Heq|Hne]; [specialize (IH _ Hs1); lia|].
    destruct (getWeeklyRewards "" st !! k) as [v|] eqn:Hold.
    { exfalso. apply Hne.
      apply (stored_reward_kept "" call.1 call.2 st k v (proj1 Hs0) Hold). }
    destruct (getWeeklyRewards "" (completeWorkout Date_parse call.1 call.2 st).1 !! k)
      as [v|] eqn:Hnew; [|done].
    rewrite (assignments_after_reward k calls _ v Hs1 Hnew). lia.
  - intros calls1 calls2 v -> Hk.
    unfold run_calls. rewrite foldl_app. fold (run_calls Date_parse calls1 st).
    apply stored_reward_kept_run; [by apply sound_store_run_calls|done].
  - intros e dateKey v st' Hk.
    assert (Hs' : sound_store code st') by (by apply sound_store_run_calls).
    split.
    + eapply rewarded_week_no_reward; [apply Hs'|exact Hk].
    + apply stored_reward_kept; [apply Hs'|done].
Qed.

(** *** Persistence failures *)

(** C3, as amended.  When the write to the backing store fails during
    [completeWorkout], [storage.set] turns the failure into [false],
    [saveData] drops it, and the call still returns [success = true] with
    the [weekCompleted] and [reward] it computed; the stored document is
    left as it was. *)
Theorem write_failure_reports_success (e : Env) (dateKey : string) (st : Store) :
  setItem_ok e = false →
  (∀ value, storage_set (setItem_ok e) value st = (st, false))
  ∧ (completeWorkout Date_parse e dateKey st).1 = st
  ∧ Result.success (completeWorkout Date_parse e dateKey st).2 = true
  ∧ (completeWorkout Date_parse e dateKey st).2
    = (completeWorkout_data Date_parse (random e) dateKey (getData (fresh_invite e) st)).2.
Proof.
  intros Hfail. rewrite completeWorkout_unfold, saveData_cases, Hfail. cbn [fst snd].
  repeat split.
  apply (completeWorkout_data_cases (random e) dateKey (getData (fresh_invite e) st)).
Qed.

(** *** The reward range *)

(** C7.  [updateRewardRange(min, max)] returns [false] and leaves the store
    as it is when [min > max] or [min < 1]; otherwise it returns [true],
    the stored rewards are as before, and the document it writes, which is
    the stored one once the write has gone through, is the document read
    with exactly the two bounds replaced. *)
Theorem updateRewardRange_guard (e : Env) (min max : Z) (st : Store) :
  ((min > max ∨ min < 1) → updateRewardRange e min max st = (st, false))
  ∧ (¬ (min > max ∨ min < 1) →
     (updateRewardRange e min max st).2 = true
     ∧ getWeeklyRewards (fresh_invite e) (updateRewardRange e min max st).1
       = getWeeklyRewards (fresh_invite e) st
     ∧ (setItem_ok e = true →
        (updateRewardRange e min max st).1
        = Some (Data.to_doc (Data.with_range min max (getData (fresh_invite e) st)))
        ∧ getRewardRange (fresh_invite e) (updateRewardRange e min max st).1
          = (min, max))).
Proof.
  unfold updateRewardRange. split.
  - intros H. destruct (min >? max) eqn:E1; [done|].
    destruct (min <? 1) eqn:E2; [done|]. lia.
  - intros H. destruct (min >? max) eqn:E1; [lia|].
    destruct (min <? 1) eqn:E2; [lia|]. cbn [orb fst snd].
    rewrite saveData_cases. split; [done|]. split.
    + destruct (setItem_ok e); [|done].
      unfold getWeeklyRewards. by rewrite getData_to_doc.
    + intros ->. split; [done|].
      unfold getRewardRange. by rewrite getData_to_doc.
Qed.

(** *** The streak *)

Lemma streak_loop_all (rewards : gmap string Z) (weekKeys : list string) (acc : Z) :
  Forall (λ key, truthy_num (rewards !! key) = true) weekKeys →
  streak_loop rewards weekKeys acc = acc + Z.of_nat (length weekKeys).
Proof.
  intros H. revert acc. induction H as [|key rest Hk _ IH]; intros acc; simpl.
  - lia.
  - rewrite Hk, IH. lia.
Qed.

Lemma sorted_keys_desc_perm (o : gmap string Z) :
  sorted_keys_desc o ≡ₚ (map_to_list o).*1.
Proof.
  unfold sorted_keys_desc. by rewrite reverse_Permutation, merge_sort_Permutation.
Qed.

(** C9.  When every stored reward is positive, the streak that
    [getCurrentStreak] computes by scanning the week keys in descending
    order and stopping at the first falsy reward equals the number of keys
    of [weeklyRewards], which is the [weeks] metric of the badge engine. *)
Theorem streak_equals_weeks (code : string) (st : Store) :
  rewards_positive (getWeeklyRewards code st) →
  getCurrentStreak code st = Z.of_nat (size (getWeeklyRewards code st))
  ∧ Progress.streak (getCurrentProgress code st (badge_getData st))
    = Progress.weeks (getCurrentProgress code st (badge_getData st)).
Proof.
  intros Hpos.
  assert (Hs : getCurrentStreak code st = Z.of_nat (size (getWeeklyRewards code st))).
  { unfold getCurrentStreak, getWeeklyRewards in *.
    set (rewards := Data.weeklyRewards (getData code st)) in *.
    rewrite streak_loop_all.
    - rewrite (Permutation_length (sorted_keys_desc_perm rewards)).
      rewrite length_fmap, length_map_to_list. lia.
    - apply Forall_forall. intros key Hkey.
      rewrite (sorted_keys_desc_perm rewards) in Hkey.
      apply list_elem_of_fmap in Hkey. destruct Hkey as [[k v] [-> Hkv]].
      apply elem_of_map_to_list in Hkv. simpl.
      by apply (truthy_num_positive rewards k v). }
  split; [exact Hs|].
  cbn [getCurrentProgress Progress.streak Progress.weeks]. rewrite Hs.
  by destruct st.
Qed.

(** *** Badges *)

Lemma unlock_loop_stable (progress : Progress.t) (defs : list Badge.t)
    (unlocked : list string) (newlyUnlocked : list Badge.t) :
  Forall (λ badge, Badge.id badge ∈ unlocked ∨ shouldUnlockBadge badge progress = false)
         defs →
  unlock_loop progress defs unlocked newlyUnlocked = (unlocked, newlyUnlocked).
Proof.
  induction 1 as [|badge rest Hb _ IH]; [done|]. cbn [unlock_loop].
  destruct (bool_decide (Badge.id badge ∈ unlocked)) eqn:Hin; [done|].
  apply bool_decide_eq_false in Hin. destruct Hb as [?| ->]; done.
Qed.

(** After the loop every definition is unlocked or not yet earned, and what
    was unlocked before still is. *)
Lemma unlock_loop_saturates (progress : Progress.t) (defs : list Badge.t)
    (unlocked : list string) (newlyUnlocked : list Badge.t) :
  let out := unlock_loop progress defs unlocked newlyUnlocked in
  (∀ x, x ∈ unlocked → x ∈ out.1)
  ∧ Forall (λ badge, Badge.id badge ∈ out.1 ∨ shouldUnlockBadge badge progress = false)
           defs.
Proof.
  revert unlocked newlyUnlocked.
  induction defs as [|badge rest IH]; intros unlocked newlyUnlocked; [done|].
  cbn [unlock_loop].
  destruct (bool_decide (Badge.id badge ∈ unlocked)) eqn:Hin.
  - apply bool_decide_eq_true in Hin.
    destruct (IH unlocked newlyUnlocked) as [Hmono Hall].
    split; [done|]. constructor; [left; by apply Hmono|done].
  - destruct (shouldUnlockBadge badge progress) eqn:Hs.
    + destruct (IH (unlocked ++ [Badge.id badge])%list (newlyUnlocked ++ [badge])%list)
        as [Hmono Hall].
      split.
      * intros x Hx. apply Hmono, elem_of_app. by left.
      * constructor; [|done]. left. apply Hmono, elem_of_app. right.
        by apply list_elem_of_singleton.
    + destruct (IH unlocked newlyUnlocked) as [Hmono Hall].
      split; [done|]. constructor; [by right|done].
Qed.

(** The loop only appends, and to both lists alike. *)
Lemma unlock_loop_appends (progress : Progress.t) (defs : list Badge.t)
    (unlocked : list string) (newlyUnlocked : list Badge.t) :
  ∃ added,
    unlock_loop progress defs unlocked newlyUnlocked
    = ((unlocked ++ (Badge.id <$> added))%list, (newlyUnlocked ++ added)%list).
Proof.
  revert unlocked newlyUnlocked.
  induction defs as [|badge rest IH]; intros unlocked newlyUnlocked.
  - exists []. by rewrite !app_nil_r.
  - cbn [unlock_loop].
    destruct (bool_decide (Badge.id badge ∈ unlocked)); [apply IH|].
    destruct (shouldUnlockBadge badge progress); [|apply IH].
    destruct (IH (unlocked ++ [Badge.id badge])%list (newlyUnlocked ++ [badge])%list)
      as [added ->].
    exists (badge :: added). by rewrite <- !app_assoc.
Qed.

(** Saving the unlocked badges does not change the progress metrics. *)
Lemma progress_after_save (c1 c2 : string) (st : Store) (unlocked : list string) :
  getCurrentProgress c2 (Some (Doc.with_unlockedBadges unlocked (badge_getData st)))
                     (Doc.with_unlockedBadges unlocked (badge_getData st))
  = getCurrentProgress c1 st (badge_getData st).
Proof. by destruct st. Qed.

Lemma progress_code (c1 c2 : string) (st : Store) (data : Doc.t) :
  getCurrentProgress c1 st data = getCurrentProgress c2 st data.
Proof. by destruct st. Qed.

(** C8.  [checkAndUnlockBadges] is idempotent: called a second time with
    nothing changed in between (the first call's write, if it made one,
    having gone through), it returns an empty list of newly unlocked
    badges and leaves the store, and with it [unlockedBadges], as the first
    call left it. *)
Theorem checkAndUnlockBadges_idempotent (e1 e2 : Env) (st : Store) :
  setItem_ok e1 = true →
  let first := checkAndUnlockBadges e1 st in
  let second := checkAndUnlockBadges e2 first.1 in
  second.2 = []
  ∧ second.1 = first.1
  ∧ Doc.unlockedBadges (badge_getData second.1)
    = Doc.unlockedBadges (badge_getData first.1).
Proof.
  intros Hok first second.
  cut (second = (first.1, [])); [by intros ->|].
  subst second first. unfold checkAndUnlockBadges at 2 3.
  set (data := badge_getData st).
  set (progress := getCurrentProgress (fresh_invite e1) st data).
  set (unlocked := default [] (Doc.unlockedBadges data)).
  pose proof (unlock_loop_saturates progress BADGE_DEFINITIONS unlocked []) as [_ Hsat].
  destruct (unlock_loop_appends progress BADGE_DEFINITIONS unlocked []) as [added Hadd].
  rewrite Hadd in Hsat |- *. cbn [fst snd app] in *.
  destruct added as [|badge added].
  - (* nothing new: the store is untouched *)
    cbn [length Nat.ltb Nat.leb fst]. rewrite app_nil_r in Hsat.
    unfold checkAndUnlockBadges. fold data. fold progress. fold unlocked.
    rewrite (progress_code (fresh_invite e2) (fresh_invite e1)). fold progress.
    by rewrite unlock_loop_stable.
  - (* something new: it was saved *)
    cbn [length Nat.ltb Nat.leb fst]. unfold save_doc, storage_set. rewrite Hok.
    cbn [fst]. set (unlocked' := (unlocked ++ _)%list) in *.
    unfold checkAndUnlockBadges.
    change (badge_getData (Some (Doc.with_unlockedBadges unlocked' data)))
      with (Doc.with_unlockedBadges unlocked' data).
    subst data. rewrite (progress_after_save (fresh_invite e1)). fold progress.
    cbn [Doc.unlockedBadges Doc.with_unlockedBadges default].
    by rewrite unlock_loop_stable.
Qed.

(** *** Movements *)

Lemma sum_values_insert (o : gmap string Z) (k : string) (v : Z) :
  sum_values (<[k := v]> o) = sum_values o - default 0 (o !! k) + v.
Proof.
  unfold sum_values.
  assert (Hcomm : ∀ (m : gmap string Z) (j1 j2 : string) (z1 z2 y : Z),
            j1 ≠ j2 → m !! j1 = Some z1 → m !! j2 = Some z2 →
            y + z2 + z1 = y + z1 + z2) by (intros; lia).
  destruct (o !! k) as [old|] eqn:Hk; simpl.
  - rewrite <- insert_delete_eq.
    rewrite map_fold_insert_L; [|by intros; lia|by rewrite lookup_delete_eq].
    rewrite (map_fold_delete_L _ _ k old o); [lia|by intros; lia|done].
  - rewrite map_fold_insert_L; [lia|by intros; lia|done].
Qed.

(** On a ledger of numbers and for a key that is not inherited, crediting
    adds the reward to one entry, and to the total. *)
Lemma contribute_consistent (weekKey : string) (r : Z) (m : Movement.t) :
  weekKey ∉ inherited_names → consistent m → consistent (contribute weekKey r m).
Proof.
  intros Hk (o & Ho & Ht). unfold consistent, contribute.
  fold (contributions m). rewrite Ho, lookup_fmap.
  cbn [contributions Movement.weeklyContributions Movement.totalRaised
       Movement.with_contributions default]. unfold id.
  destruct (o !! weekKey) as [z|] eqn:Hz; cbn [fmap option_fmap option_map].
  - exists (<[weekKey := z + r]> o). split; [by rewrite fmap_insert|].
    rewrite sum_values_insert, Hz, Ht. simpl. lia.
  - unfold inherited. rewrite bool_decide_eq_false_2 by done.
    exists (<[weekKey := 0 + r]> o). split; [by rewrite fmap_insert|].
    rewrite sum_values_insert, Hz, Ht. simpl. lia.
Qed.

Lemma with_members_consistent (f : list string → list string) (m : Movement.t) :
  consistent m → consistent (Movement.with_members f m).
Proof. done. Qed.

Lemma fanOut_consistent (dateKey : string) (r : Z) (m : Movement.t) :
  consistent m → consistent (fanOut Date_parse dateKey (weekKeyFor dateKey) r m).
Proof.
  intros H. unfold fanOut. destruct (_ && _); [|done].
  apply contribute_consistent; [apply weekKeyFor_own|done].
Qed.

Lemma fresh_consistent (m : Movement.t) : fresh_movement m → consistent m.
Proof.
  intros (_ & _ & Ht & Hw). exists ∅. unfold contributions. rewrite Ht, Hw.
  split; [by rewrite fmap_empty|done].
Qed.

Lemma length_filter_delete {A} (P : A → Prop) `{!∀ x, Decision (P x)}
    (l : list A) (i : nat) :
  (length (filter P (delete i l)) ≤ length (filter P l))%nat.
Proof.
  revert i. induction l as [|x l IH]; intros [|i]; simpl; try lia.
  - rewrite filter_cons. destruct (decide (P x)); simpl; lia.
  - rewrite !filter_cons. specialize (IH i).
    destruct (decide (P x)); simpl; lia.
Qed.

Lemma filter_none {A} (P : A → Prop) `{!∀ x, Decision (P x)} (l : list A) :
  Forall (λ x, ¬ P x) l → filter P l = [].
Proof.
  induction 1 as [|x l Hx _ IH]; [done|]. by rewrite filter_cons_False.
Qed.

Lemma movement_step_member_once (m m' : Movement.t) :
  movement_step m m' → member_once m → member_once m'.
Proof.
  unfold member_once. destruct 1 as [m|weekKey amount m|m Hnot|index m]; intros H;
    cbn [Movement.members Movement.with_members contribute Movement.with_contributions];
    try done.
  - rewrite filter_app, length_app.
    rewrite filter_none; [simpl; lia|].
    apply Forall_forall. by intros x Hx ->.
  - etrans; [apply length_filter_delete|done].
Qed.

Lemma fresh_member_once (m : Movement.t) : fresh_movement m → member_once m.
Proof. intros (_ & Hm & _). unfold member_once. rewrite Hm. simpl. lia. Qed.

Lemma stored_movements_code (c : string) (st : Store) :
  Data.movements (getData c st) = stored_movements st.
Proof. by destruct st. Qed.

Lemma stored_movements_saved (data : Data.t) :
  stored_movements (Some (Data.to_doc data)) = Data.movements data.
Proof. unfold stored_movements. by rewrite getData_to_doc. Qed.

Lemma save_doc_cases (ok : bool) (data : Doc.t) (st : Store) :
  save_doc ok data st = if ok then Some data else st.
Proof. unfold save_doc, storage_set. by destruct ok. Qed.

Lemma movement_getData_movements (st : Store) (ms : list Movement.t) :
  Doc.movements (movement_getData st) = Some ms → stored_movements st = ms.
Proof. destruct st as [sd|]; cbn; [by intros ->|by intros [= <-]]. Qed.

Lemma checkAndUnlockBadges_movements (e : Env) (st : Store) :
  stored_movements (checkAndUnlockBadges e st).1 = stored_movements st.
Proof.
  unfold checkAndUnlockBadges. destruct (unlock_loop _ _ _ _) as [unlocked newly].
  destruct (0 <? length newly)%nat; [|done]. cbn [fst].
  rewrite save_doc_cases. destruct (setItem_ok e); [|done]. by destruct st.
Qed.

Lemma evolves_refl (ms : list Movement.t) : evolves ms ms.
Proof.
  exists ms, []. rewrite app_nil_r. repeat split; [|done].
  apply Forall_Forall2_diag, Forall_forall. intros. constructor.
Qed.

Lemma evolves_insert (ms : list Movement.t) (i : nat) (m m' : Movement.t) :
  ms !! i = Some m → movement_step m m' → evolves ms (<[i := m']> ms).
Proof.
  intros Hi Hstep. exists (<[i := m']> ms), []. rewrite app_nil_r.
  repeat split; [|done].
  rewrite <- (list_insert_id ms i m Hi) at 1.
  apply Forall2_insert; [|done].
  apply Forall_Forall2_diag, Forall_forall. intros. constructor.
Qed.

Lemma fanOut_step (dateKey weekKey : string) (r : Z) (m : Movement.t) :
  movement_step m (fanOut Date_parse dateKey weekKey r m).
Proof. unfold fanOut. destruct (_ && _); constructor. Qed.

Lemma completeWorkout_evolves (e : Env) (dateKey : string) (st : Store) :
  evolves (stored_movements st)
          (stored_movements (completeWorkout Date_parse e dateKey st).1).
Proof.
  rewrite completeWorkout_unfold, saveData_cases. cbn [fst].
  destruct (setItem_ok e); [|apply evolves_refl].
  rewrite stored_movements_saved.
  destruct (completeWorkout_data_cases (random e) dateKey (getData (fresh_invite e) st))
    as (_ & _ & _ & _ & [(_ & _ & -> & _)|(_ & _ & _ & _ & ->)]);
    rewrite stored_movements_code; [apply evolves_refl|].
  eexists _, []. rewrite app_nil_r. repeat split; [|done].
  apply Forall2_fmap_r, Forall_Forall2_diag, Forall_forall.
  intros m _. apply fanOut_step.
Qed.

Lemma updateRewardRange_evolves (e : Env) (min max : Z) (st : Store) :
  evolves (stored_movements st) (stored_movements (updateRewardRange e min max st).1).
Proof.
  unfold updateRewardRange.
  destruct ((min >? max) || (min <? 1)); [apply evolves_refl|]. cbn [fst].
  rewrite saveData_cases. destruct (setItem_ok e); [|apply evolves_refl].
  rewrite stored_movements_saved. cbn [Data.with_range Data.movements].
  rewrite stored_movements_code. apply evolves_refl.
Qed.

Lemma stored_movements_with (ms : list Movement.t) (data : Doc.t) :
  stored_movements (Some (Doc.with_movements ms data)) = ms.
Proof. done. Qed.

Lemma createMovement_evolves (e eb : Env)
    (name charity description startDate endDate : string) (st : Store) :
  evolves (stored_movements st)
          (stored_movements
             (createMovement Date_parse e eb name charity description
                             startDate endDate st).1).
Proof.
  unfold createMovement.
  destruct (negb (valid (isValidMovementName name))); [apply evolves_refl|].
  destruct (negb (valid (isValidMovementDescription description)));
    [apply evolves_refl|].
  destruct (negb (valid (isValidDateRange Date_parse startDate endDate)));
    [apply evolves_refl|].
  destruct (String.eqb charity ""); [apply evolves_refl|].
  lazy zeta. rewrite fst_pair, checkAndUnlockBadges_movements, save_doc_cases.
  destruct (setItem_ok e); [|apply evolves_refl].
  rewrite stored_movements_with.
  replace (default [] (Doc.movements (movement_getData st)))
    with (stored_movements st) by (by destruct st).
  eexists (stored_movements st), [_]. split; [done|].
  split; [|by repeat constructor].
  apply Forall_Forall2_diag, Forall_forall. intros. constructor.
Qed.

(** The three operations that find a movement by its id and change it in
    place. *)
Lemma in_place_evolves (ok : bool) (st : Store) (ms : list Movement.t) (i : nat)
    (m m' : Movement.t) :
  Doc.movements (movement_getData st) = Some ms →
  ms !! i = Some m → movement_step m m' →
  evolves (stored_movements st)
    (stored_movements
       (save_doc ok (Doc.with_movements (<[i := m']> ms) (movement_getData st)) st)).
Proof.
  intros Hms Hi Hstep. rewrite save_doc_cases.
  destruct ok; [|apply evolves_refl].
  rewrite stored_movements_with, (movement_getData_movements st ms Hms).
  by apply (evolves_insert ms i m).
Qed.

Lemma joinMovement_evolves (e : Env) (movementId : Z) (st : Store) :
  evolves (stored_movements st) (stored_movements (joinMovement e movementId st).1).
Proof.
  unfold joinMovement.
  destruct (Doc.movements (movement_getData st)) as [ms|] eqn:Hms;
    [|apply evolves_refl].
  destruct (find_movement movementId ms) as [[i movement]|] eqn:Hfind;
    [|apply evolves_refl].
  destruct (bool_decide ("You" ∈ Movement.members movement)) eqn:Hin;
    [apply evolves_refl|]. cbn [fst].
  apply list_find_Some in Hfind as (Hi & _ & _).
  apply bool_decide_eq_false in Hin.
  apply (in_place_evolves _ _ ms i movement); [done..|by constructor].
Qed.

Lemma leaveMovement_evolves (e : Env) (movementId : Z) (st : Store) :
  evolves (stored_movements st) (stored_movements (leaveMovement e movementId st).1).
Proof.
  unfold leaveMovement.
  destruct (Doc.movements (movement_getData st)) as [ms|] eqn:Hms;
    [|apply evolves_refl].
  destruct (find_movement movementId ms) as [[i movement]|] eqn:Hfind;
    [|apply evolves_refl].
  destruct (list_find _ (Movement.members movement)) as [[index you]|];
    [|apply evolves_refl]. cbn [fst].
  apply list_find_Some in Hfind as (Hi & _ & _).
  apply (in_place_evolves _ _ ms i movement); [done..|by constructor].
Qed.

Lemma addMovementContribution_evolves (e : Env) (movementId : Z) (weekKey : string)
    (amount : Z) (st : Store) :
  evolves (stored_movements st)
          (stored_movements (addMovementContribution e movementId weekKey amount st)).
Proof.
  unfold addMovementContribution.
  destruct (Doc.movements (movement_getData st)) as [ms|] eqn:Hms;
    [|apply evolves_refl].
  destruct (find_movement movementId ms) as [[i movement]|] eqn:Hfind;
    [|apply evolves_refl].
  destruct (negb (bool_decide ("You" ∈ Movement.members movement)));
    [apply evolves_refl|].
  apply list_find_Some in Hfind as (Hi & _ & _).
  apply (in_place_evolves _ _ ms i movement); [done..|by constructor].
Qed.

(** Every operation lets the stored movements evolve, and nothing else. *)
Lemma apply_op_evolves (op : Op) (st : Store) :
  evolves (stored_movements st) (stored_movements (apply_op Date_parse op st)).
Proof.
  destruct op; cbn [apply_op].
  - apply completeWorkout_evolves.
  - apply updateRewardRange_evolves.
  - rewrite checkAndUnlockBadges_movements. apply evolves_refl.
  - apply createMovement_evolves.
  - apply joinMovement_evolves.
  - apply leaveMovement_evolves.
  - apply addMovementContribution_evolves.
Qed.

Lemma evolves_Forall (P : Movement.t → Prop) (ms ms' : list Movement.t) :
  (∀ m m', movement_step m m' → P m → P m') →
  (∀ m, fresh_movement m → P m) →
  evolves ms ms' → Forall P ms → Forall P ms'.
Proof.
  intros Hstep Hfresh (ms1 & fresh & -> & Hsteps & Hf) Hall.
  apply Forall_app. split.
  - induction Hsteps as [|m m' l l' Hmm' _ IH]; [done|].
    inversion Hall; subst. constructor; eauto.
  - eapply Forall_impl; [exact Hf|done].
Qed.

Lemma in_place_consistent (ok : bool) (st : Store) (ms : list Movement.t) (i : nat)
    (m m' : Movement.t) :
  Doc.movements (movement_getData st) = Some ms →
  ms !! i = Some m → (consistent m → consistent m') →
  Forall consistent (stored_movements st) →
  Forall consistent
    (stored_movements
       (save_doc ok (Doc.with_movements (<[i := m']> ms) (movement_getData st)) st)).
Proof.
  intros Hms Hi Hstep Hall. rewrite save_doc_cases. destruct ok; [|done].
  rewrite stored_movements_with. rewrite (movement_getData_movements st ms Hms) in Hall.
  apply Forall_insert; [done|]. apply Hstep.
  rewrite Forall_forall in Hall. apply Hall. by eapply list_elem_of_lookup_2.
Qed.

(** C6.  If [totalRaised == sum(weeklyContributions.values())] holds for
    every stored movement, it still holds for every stored movement after
    any mutating operation: [createMovement], [joinMovement],
    [leaveMovement], [completeWorkout] (and [updateRewardRange] and
    [checkAndUnlockBadges] as well), and [addMovementContribution] with a
    week key that is not a property name of [Object.prototype], as every key
    [`${year}-${month}-week${n}`] is. *)
Theorem total_raised_is_sum_of_contributions (op : Op) (st : Store) :
  own_week_key op →
  Forall consistent (stored_movements st) →
  Forall consistent (stored_movements (apply_op Date_parse op st)).
Proof.
  intros Hkey Hall.
  destruct op as [e dateKey|e min max|e|e eb name charity description startDate endDate
                  |e movementId|e movementId|e movementId weekKey amount];
    cbn [apply_op own_week_key] in *.
  - rewrite completeWorkout_unfold, fst_pair, saveData_cases.
    destruct (setItem_ok e); [|done]. rewrite stored_movements_saved.
    destruct (completeWorkout_data_cases (random e) dateKey (getData (fresh_invite e) st))
      as (_ & _ & _ & _ & [(_ & _ & -> & _)|(_ & _ & _ & _ & ->)]);
      rewrite stored_movements_code; [done|].
    apply Forall_fmap. eapply Forall_impl; [exact Hall|].
    intros m. apply fanOut_consistent.
  - unfold updateRewardRange. destruct ((min >? max) || (min <? 1)); [done|].
    rewrite fst_pair, saveData_cases. destruct (setItem_ok e); [|done].
    rewrite stored_movements_saved. cbn [Data.with_range Data.movements].
    by rewrite stored_movements_code.
  - by rewrite checkAndUnlockBadges_movements.
  - unfold createMovement.
    destruct (negb (valid (isValidMovementName name))); [done|].
    destruct (negb (valid (isValidMovementDescription description))); [done|].
    destruct (negb (valid (isValidDateRange Date_parse startDate endDate))); [done|].
    destruct (String.eqb charity ""); [done|].
    lazy zeta. rewrite fst_pair, checkAndUnlockBadges_movements, save_doc_cases.
    destruct (setItem_ok e); [|done]. rewrite stored_movements_with.
    replace (default [] (Doc.movements (movement_getData st)))
      with (stored_movements st) by (by destruct st).
    apply Forall_app. split; [done|]. constructor; [|done].
    by apply fresh_consistent.
  - unfold joinMovement.
    destruct (Doc.movements (movement_getData st)) as [ms|] eqn:Hms; [|done].
    destruct (find_movement movementId ms) as [[i movement]|] eqn:Hfind; [|done].
    destruct (bool_decide ("You" ∈ Movement.members movement)); [done|].
    lazy zeta. rewrite fst_pair. apply list_find_Some in Hfind as (Hi & _ & _).
    by apply (in_place_consistent _ _ ms i movement).
  - unfold leaveMovement.
    destruct (Doc.movements (movement_getData st)) as [ms|] eqn:Hms; [|done].
    destruct (find_movement movementId ms) as [[i movement]|] eqn:Hfind; [|done].
    destruct (list_find _ (Movement.members movement)) as [[index you]|]; [|done].
    lazy zeta. rewrite fst_pair. apply list_find_Some in Hfind as (Hi & _ & _).
    by apply (in_place_consistent _ _ ms i movement).
  - unfold addMovementContribution.
    destruct (Doc.movements (movement_getData st)) as [ms|] eqn:Hms; [|done].
    destruct (find_movement movementId ms) as [[i movement]|] eqn:Hfind; [|done].
    destruct (negb (bool_decide ("You" ∈ Movement.members movement))); [done|].
    lazy zeta. apply list_find_Some in Hfind as (Hi & _ & _).
    apply (in_place_consistent _ _ ms i movement); [done..| |done].
    by apply contribute_consistent.
Qed.

(** *** Membership *)

Lemma reachable_member_once (st : Store) :
  reachable Date_parse st → Forall member_once (stored_movements st).
Proof.
  induction 1 as [|op st _ IH]; [constructor|].
  eapply evolves_Forall; [apply movement_step_member_once|apply fresh_member_once
                         |apply apply_op_evolves|exact IH].
Qed.



End Properties.

(** ** The properties at concrete inputs *)

Lemma rewards_positive_check (rewards : gmap string Z) :
  forallb (λ kv, 0 <? kv.2) (map_to_list rewards) = true → rewards_positive rewards.
Proof.
  intros H k v Hk. rewrite forallb_forall in H.
  apply elem_of_map_to_list, list_elem_of_In in Hk.
  specialize (H _ Hk). simpl in H. lia.
Qed.

(** The epoch, and a date after a century leap day. *)
Example day_numbers :
  Calendar.days_from_civil 1970 1 1 = 0
  ∧ Calendar.days_from_civil 2000 3 1 = 11017
  ∧ Calendar.civil_from_days 20485 = (2026, 2, 1)
  ∧ Calendar.weekday 20485 = 0.
Proof. repeat split; reflexivity. Qed.

(** [new Date(2026, 0, 40)] is the 9th of February; a two-digit year is in
    the 1900s; month 13 is January of the next year. *)
Example date_carries :
  JSDate.getDate (JSDate.make (Some 2026) (Some 0) (Some 40)) = Some 9
  ∧ JSDate.getMonth (JSDate.make (Some 2026) (Some 0) (Some 40)) = Some 1
  ∧ JSDate.getFullYear (JSDate.make (Some 50) (Some 0) (Some 1)) = Some 1950
  ∧ JSDate.getFullYear (JSDate.make (Some 2026) (Some 12) (Some 1)) = Some 2027
  ∧ JSDate.make (Some 300000) (Some 0) (Some 1) = None.
Proof. repeat split; reflexivity. Qed.

(** The scenario of the specification: the seventh day of a week completes
    it and earns a reward in the range, here [floor(1/2 * 5) + 1 = 3]. *)
Example seventh_day_completes_week :
  (completeWorkout Sample.parse (Sample.env Sample.half true) "2026-2-7" Sample.store_six).2
  = Result.mk true true (Some 3).
Proof. vm_compute. reflexivity. Qed.

(** [updateRewardRange(5, 1)] is rejected. *)
Example inverted_range_rejected :
  updateRewardRange (Sample.env Sample.half true) 5 1 Sample.store_six
  = (Sample.store_six, false).
Proof. reflexivity. Qed.

(** January 2026 starts on a Thursday: its first week has three days. *)
Example january_first_week :
  filter (λ day, spec_weekOfMonth 2026 1 day = 1) (seqZ 1 (Calendar.days_in_month 2026 1))
  = [1; 2; 3].
Proof. vm_compute. reflexivity. Qed.

(** A partial week never completes: with the three days of the first week
    of January 2026 all done, the week is still reported incomplete. *)
Example partial_week_never_completes :
  (completeWorkout Sample.parse (Sample.env Sample.half true) "2026-1-3"
     (Some (Sample.doc ["2026-1-1"; "2026-1-2"; "2026-1-3"] 1 5 []))).2
  = Result.mk true false None.
Proof. vm_compute. reflexivity. Qed.

(** C1 as stated fails.  The stored rewards are positive (there are none),
    the bounds are 0 and 1, the week is complete: the first call draws 0 and
    stores it, the second call, for the same rewarded week, issues a reward
    again and overwrites the 0 with 1.  Two assignments, and the value
    changed. *)
Lemma reward_reassigned_after_zero_draw :
  rewards_positive (getWeeklyRewards "" Sample.store_zero_range)
  ∧ assignments Sample.parse "2026-2-week1" Sample.two_calls Sample.store_zero_range
    = 2%nat
  ∧ getWeeklyRewards ""
      (run_calls Sample.parse (take 1 Sample.two_calls) Sample.store_zero_range)
    !! "2026-2-week1" = Some 0
  ∧ Result.reward
      (completeWorkout Sample.parse (Sample.env Sample.half true) "2026-2-1"
         (run_calls Sample.parse (take 1 Sample.two_calls) Sample.store_zero_range)).2
    = Some 1
  ∧ getWeeklyRewards "" (run_calls Sample.parse Sample.two_calls Sample.store_zero_range)
    !! "2026-2-week1" = Some 1.
Proof.
  split; [apply rewards_positive_check; vm_compute; reflexivity|].
  repeat split; vm_compute; reflexivity.
Qed.

Lemma reward_assigned_at_most_once_witness :
  rewards_positive (getWeeklyRewards "" Sample.store_six)
  ∧ 1 ≤ (getRewardRange "" Sample.store_six).1 ≤ (getRewardRange "" Sample.store_six).2
  ∧ (assignments Sample.parse "2026-2-week1" Sample.seventh_twice Sample.store_six ≤ 1)%nat.
Proof.
  assert (H1 : rewards_positive (getWeeklyRewards "" Sample.store_six))
    by (apply rewards_positive_check; vm_compute; reflexivity).
  assert (H2 : 1 ≤ (getRewardRange "" Sample.store_six).1
               ≤ (getRewardRange "" Sample.store_six).2) by (cbn; lia).
  split; [exact H1|]. split; [exact H2|].
  exact (proj1 (reward_assigned_at_most_once Sample.parse "" "2026-2-week1"
                  Sample.seventh_twice Sample.store_six H1 H2)).
Defined.

Lemma week_completed_iff_seven_days_witness :
  parseKey "2026-2-7" = (Some 2026, Some 2, Some 7)
  ∧ (Result.weekCompleted
       (completeWorkout Sample.parse (Sample.env Sample.half true) "2026-2-7"
          Sample.store_six).2 = true
     ↔ ∃ ds : list Z, NoDup ds ∧ length ds = 7%nat ∧
         Forall (λ day, in_bucket 2026 2 (spec_weekOfMonth 2026 2 7) day
                        ∧ <["2026-2-7" := true]>
                            (getCompletedDays "WALKABCDEF" Sample.store_six)
                          !! dateKeyOf (Some 2026) (Some 2) day = Some true) ds).
Proof.
  split; [reflexivity|].
  refine (proj1 (week_completed_iff_seven_days Sample.parse (Sample.env Sample.half true)
                   "2026-2-7" Sample.store_six 2026 2 7 _ _ _ _)).
  - reflexivity.
  - lia.
  - lia.
  - change (1 ≤ 7 ≤ 28). lia.
Defined.

(** C3 as stated fails: the write fails, the store keeps the six days, and
    the call reports [success = true], with a reward the user was shown but
    that was never stored. *)
Lemma failed_write_still_reports_success :
  setItem_ok (Sample.env Sample.half false) = false
  ∧ completeWorkout Sample.parse (Sample.env Sample.half false) "2026-2-7" Sample.store_six
    = (Sample.store_six, Result.mk true true (Some 3)).
Proof. split; [reflexivity|]. vm_compute. reflexivity. Qed.

Lemma write_failure_reports_success_witness :
  setItem_ok (Sample.env Sample.half false) = false
  ∧ (completeWorkout Sample.parse (Sample.env Sample.half false) "2026-2-7"
       Sample.store_six).1 = Sample.store_six
  ∧ Result.success
      (completeWorkout Sample.parse (Sample.env Sample.half false) "2026-2-7"
         Sample.store_six).2 = true.
Proof.
  split; [reflexivity|].
  pose proof (write_failure_reports_success Sample.parse (Sample.env Sample.half false)
                "2026-2-7" Sample.store_six eq_refl) as (_ & H1 & H2 & _).
  split; [exact H1|exact H2].
Defined.

Lemma issued_reward_within_range_witness :
  1 ≤ (getRewardRange "WALKABCDEF" Sample.store_six).1
    ≤ (getRewardRange "WALKABCDEF" Sample.store_six).2
  ∧ Result.reward
      (completeWorkout Sample.parse (Sample.env Sample.half true) "2026-2-7"
         Sample.store_six).2 = Some 3
  ∧ ((getRewardRange "WALKABCDEF" Sample.store_six).1 ≤ 3
     ≤ (getRewardRange "WALKABCDEF" Sample.store_six).2 ∧ 0 < 3).
Proof.
  assert (H1 : 1 ≤ (getRewardRange "WALKABCDEF" Sample.store_six).1
               ≤ (getRewardRange "WALKABCDEF" Sample.store_six).2) by (cbn; lia).
  assert (H2 : Result.reward
      (completeWorkout Sample.parse (Sample.env Sample.half true) "2026-2-7"
         Sample.store_six).2 = Some 3) by (vm_compute; reflexivity).
  split; [exact H1|]. split; [exact H2|].
  exact (proj1 (issued_reward_within_range Sample.parse (Sample.env Sample.half true)
                  "2026-2-7" Sample.store_six 3 H1 H2)).
Defined.

(** The fan-out of the sample: the reward of 3 goes to the first movement
    only. *)
Example fan_out_totals :
  Movement.totalRaised
  <$> stored_movements
        (completeWorkout Sample.parse (Sample.env Sample.half true) "2026-2-7"
           Sample.store_six).1
  = [3; 0; 0].
Proof. vm_compute. reflexivity. Qed.

(** C5.  The claim fails on the last day of a movement in a browser west
    of UTC.  New York, five hours behind: the seventh day of the week
    completes it and a reward of 3 is issued; the user is a member of the
    movement, and its window, February 1st to 7th, contains the completed
    date, February 7th; but the date key ['2026-2-7'] is read as the local
    midnight, five hours after the UTC midnight that ['2026-02-07'] is read
    as, so the window test fails and the movement gets nothing.  In a browser
    on UTC the same call credits it. *)
Theorem last_day_of_window_not_credited :
  let call zone :=
    completeWorkout (Sample.parse_zone zone) (Sample.env Sample.half true) "2026-2-7"
                    Sample.store_boundary in
  stored_movements Sample.store_boundary = [Sample.first_week_movement]
  ∧ "You" ∈ Movement.members Sample.first_week_movement
  ∧ Sample.parse "2026-02-01" = Some (Calendar.days_from_civil 2026 2 1)
  ∧ Sample.parse "2026-2-7" = Some (Calendar.days_from_civil 2026 2 7)
  ∧ Sample.parse "2026-02-07" = Some (Calendar.days_from_civil 2026 2 7)
  ∧ Calendar.days_from_civil 2026 2 1 ≤ Calendar.days_from_civil 2026 2 7
    ≤ Calendar.days_from_civil 2026 2 7
  ∧ Result.reward (call (-300)).2 = Some 3
  ∧ stored_movements (call (-300)).1 = [Sample.first_week_movement]
  ∧ isMovementActiveForDate (Sample.parse_zone (-300)) Sample.first_week_movement
      "2026-2-7" = false
  ∧ Movement.totalRaised <$> stored_movements (call 0).1 = [3].
Proof.
  cbv zeta. split; [reflexivity|]. split; [by left|].
  do 3 (split; [vm_compute; reflexivity|]).
  split; [vm_compute; split; discriminate|].
  repeat split; vm_compute; reflexivity.
Qed.

(** C6 as stated fails for [addMovementContribution]: a ledger has no own
    property ['__proto__'], reading it gives the prototype, which is truthy,
    and the assignment of [+=] goes to the inherited setter, which ignores
    the string it is given; the total grows by 4 and the ledger stays
    empty. *)
Lemma inherited_week_key_breaks_total :
  Forall consistent (stored_movements Sample.store_boundary)
  ∧ ¬ Forall consistent
        (stored_movements
           (apply_op Sample.parse
              (OpAddMovementContribution (Sample.env Sample.half true) 1 "__proto__" 4)
              Sample.store_boundary)).
Proof.
  split.
  - repeat constructor. exists ∅. split; reflexivity.
  - intros H. apply Forall_cons_1 in H as [(o & Ho & Ht) _].
    change (∅ = Num <$> o) in Ho. symmetry in Ho. apply fmap_empty_inv in Ho.
    subst o. vm_compute in Ht. discriminate.
Qed.

(** Under ['constructor'] the ledger gets a string, the inherited function
    printed with the digit after it, and the total grows all the same;
    under an own key the entry is a number. *)
Example inherited_function_name_stores_text :
  contributions (contribute "constructor" 4 Sample.first_week_movement)
  = {["constructor" := Text]}
  ∧ Movement.totalRaised (contribute "constructor" 4 Sample.first_week_movement) = 4
  ∧ contributions (contribute "2026-2-week1" 4 Sample.first_week_movement)
    = {["2026-2-week1" := Num 4]}.
Proof. repeat split; reflexivity. Qed.

Lemma total_raised_is_sum_of_contributions_witness :
  Forall consistent (stored_movements Sample.store_boundary)
  ∧ Forall consistent
      (stored_movements
         (apply_op Sample.parse
            (OpAddMovementContribution (Sample.env Sample.half true) 1 "2026-2-week1" 4)
            Sample.store_boundary)).
Proof.
  assert (H : Forall consistent (stored_movements Sample.store_boundary)).
  { repeat constructor. exists ∅. split; reflexivity. }
  split; [exact H|].
  refine (total_raised_is_sum_of_contributions Sample.parse
            (OpAddMovementContribution (Sample.env Sample.half true) 1 "2026-2-week1" 4)
            Sample.store_boundary _ H).
  apply (weekKeyOf_own (Some 2026) (Some 2) (Some 1)).
Defined.

Lemma updateRewardRange_guard_witness :
  updateRewardRange (Sample.env Sample.half true) 5 1 Sample.store_six
  = (Sample.store_six, false)
  ∧ getRewardRange "WALKABCDEF"
      (updateRewardRange (Sample.env Sample.half true) 2 9 Sample.store_six).1
    = (2, 9).
Proof.
  pose proof (updateRewardRange_guard (Sample.env Sample.half true) 5 1 Sample.store_six)
    as [Hreject _].
  pose proof (updateRewardRange_guard (Sample.env Sample.half true) 2 9 Sample.store_six)
    as [_ Haccept].
  split; [apply Hreject; lia|].
  apply Haccept; [lia|reflexivity].
Defined.

(** The first check unlocks two badges, in declaration order. *)
Example first_check_unlocks :
  Badge.id <$> (checkAndUnlockBadges (Sample.env Sample.half true) Sample.store_rewarded).2
  = ["first_day"; "week_warrior"].
Proof. vm_compute. reflexivity. Qed.

Lemma checkAndUnlockBadges_idempotent_witness :
  setItem_ok (Sample.env Sample.half true) = true
  ∧ (checkAndUnlockBadges (Sample.env Sample.zero true)
       (checkAndUnlockBadges (Sample.env Sample.half true) Sample.store_rewarded).1).2
    = [].
Proof.
  split; [reflexivity|].
  exact (proj1 (checkAndUnlockBadges_idempotent (Sample.env Sample.half true)
                  (Sample.env Sample.zero true) Sample.store_rewarded eq_refl)).
Defined.

Lemma streak_equals_weeks_witness :
  rewards_positive (getWeeklyRewards "" Sample.store_rewarded)
  ∧ getCurrentStreak "" Sample.store_rewarded
    = Z.of_nat (size (getWeeklyRewards "" Sample.store_rewarded)).
Proof.
  assert (H : rewards_positive (getWeeklyRewards "" Sample.store_rewarded))
    by (apply rewards_positive_check; vm_compute; reflexivity).
  split; [exact H|].
  exact (proj1 (streak_equals_weeks "" Sample.store_rewarded H)).
Defined.


(** What that store holds: one movement, with ['You'] in it once. *)
Example create_leave_join :
  Movement.members
  <$> stored_movements
        (apply_op Sample.parse (OpJoinMovement (Sample.env Sample.half true) 1767225600000)
           (apply_op Sample.parse (OpLeaveMovement (Sample.env Sample.half true) 1767225600000)
              (apply_op Sample.parse
                 (OpCreateMovement (Sample.env Sample.half true) (Sample.env Sample.half true)
                    "Run for water" "charity: water" "Ten kilometres a week"
                    "2026-01-01" "2026-12-31")
                 None)))
  = [["You"]].
Proof. vm_compute. reflexivity. Qed.

(** * Further properties of the code *)

(** ** Strings *)

Lemma digits_value_snoc (acc : N) (s : string) (c : ascii) :
  digits_value acc (s +:+ String c "")
  = v ← digits_value acc s; d ← digit_of c; Some (10 * v + d)%N.
Proof.
  revert acc. induction s as [|a s IH]; intros acc.
  - change ("" +:+ String c "") with (String c ""). simpl. by destruct (digit_of c).
  - rewrite append_cons. simpl. destruct (digit_of a); [apply IH|done].
Qed.

Lemma pretty_N_go_app (x : N) (s : string) :
  pretty_N_go x s = pretty_N_go x "" +:+ s.
Proof.
  revert s. induction (N.lt_wf_0 x) as [x _ IH]. intros s.
  destruct (decide (x = 0%N)) as [->|Hx].
  - by rewrite !pretty_N_go_0.
  - rewrite !(pretty_N_go_step x) by lia.
    assert (x `div` 10 < x)%N as Hlt by (apply N.div_lt; lia).
    rewrite (IH _ Hlt (String _ s)), (IH _ Hlt (String _ "")).
    by rewrite append_assoc.
Qed.

Lemma digit_of_pretty_N_char (d : N) :
  (d < 10)%N → digit_of (pretty_N_char d) = Some d.
Proof.
  intros Hd.
  assert (d ∈ [0;1;2;3;4;5;6;7;8;9]%N) as Hin.
  { replace d with (N.of_nat (N.to_nat d)) by lia.
    assert (N.to_nat d < 10)%nat as H by lia. revert H.
    generalize (N.to_nat d). intros n Hn.
    do 10 (destruct n as [|n]; [set_solver|]). lia. }
  set_unfold. by repeat destruct Hin as [->|Hin].
Qed.

Lemma digits_value_pretty_N_go (x : N) :
  digits_value 0 (pretty_N_go x "") = Some x.
Proof.
  induction (N.lt_wf_0 x) as [x _ IH].
  destruct (decide (x = 0%N)) as [->|Hx]; [done|].
  rewrite pretty_N_go_step, pretty_N_go_app, digits_value_snoc by lia.
  rewrite IH by (apply N.div_lt; lia). cbn [mbind option_bind].
  rewrite digit_of_pretty_N_char by (apply N.mod_lt; lia). cbn [mbind option_bind].
  f_equal. pose proof (N.div_mod x 10). lia.
Qed.

Lemma digits_value_pretty (z : Z) :
  0 ≤ z → digits_value 0 (pretty z) = Some (Z.to_N z).
Proof.
  intros Hz. destruct z as [|p|p]; [done| |lia].
  change (pretty (Z.pos p)) with (pretty (N.pos p)).
  unfold pretty, pretty_N. destruct (decide _); [done|].
  apply digits_value_pretty_N_go.
Qed.

(** [Number] reads back a non-negative integer printed by a template. *)
Lemma Number_show (z : Z) : 0 ≤ z → Number (show (Some z)) = Some z.
Proof.
  intros Hz. unfold Number, show. rewrite digits_value_pretty by done.
  simpl. f_equal. lia.
Qed.

(** A run of digits has no dash: [split] cuts right after it. *)
Lemma split_on_digits (s rest : string) (acc v : N) :
  digits_value acc s = Some v →
  split_on "-" s = [s]
  ∧ split_on "-" (s +:+ String "-" rest) = s :: split_on "-" rest.
Proof.
  revert acc. induction s as [|a s IH]; intros acc Hs.
  - split; [done|]. change ("" +:+ ?x) with x. simpl. done.
  - simpl in Hs. destruct (digit_of a) as [d|] eqn:Hd; [|done].
    destruct (IH _ Hs) as [IH1 IH2]. rewrite append_cons. simpl.
    assert (a ≠ "-"%char) as Ha by (intros ->; done).
    rewrite !decide_False by done. by rewrite IH1, IH2.
Qed.

Lemma parseKey_dateKeyOf (y m d : Z) :
  0 ≤ y → 0 ≤ m → 0 ≤ d →
  parseKey (dateKeyOf (Some y) (Some m) d) = (Some y, Some m, Some d).
Proof.
  intros Hy Hm Hd. unfold parseKey.
  change (dateKeyOf (Some y) (Some m) d)
    with (pretty y +:+ String "-" (pretty m +:+ String "-" (pretty d))).
  destruct (split_on_digits _ (pretty m +:+ String "-" (pretty d)) _ _
              (digits_value_pretty y Hy)) as [_ ->].
  destruct (split_on_digits _ (pretty d) _ _ (digits_value_pretty m Hm)) as [_ ->].
  destruct (split_on_digits _ "" _ _ (digits_value_pretty d Hd)) as [-> _].
  cbn [fmap list_fmap lookup list_lookup mjoin option_join].
  pose proof (Number_show y Hy) as Ey. pose proof (Number_show m Hm) as Em.
  pose proof (Number_show d Hd) as Ed. unfold show in Ey, Em, Ed.
  by rewrite Ey, Em, Ed.
Qed.

(** X1.  The date key that the calendar builds for a day,
    [`${year}-${month}-${day}`], is read back by [completeWorkout] as the same
    three numbers, so that two days have the same key only when they are the
    same day. *)
Theorem date_key_round_trip (y m d y' m' d' : Z) :
  0 ≤ y → 0 ≤ m → 0 ≤ d →
  parseKey (dateKeyOf (Some y) (Some m) d) = (Some y, Some m, Some d)
  ∧ (0 ≤ y' → 0 ≤ m' → 0 ≤ d' →
     dateKeyOf (Some y) (Some m) d = dateKeyOf (Some y') (Some m') d' →
     y = y' ∧ m = m' ∧ d = d').
Proof.
  intros Hy Hm Hd. split; [by apply parseKey_dateKeyOf|].
  intros Hy' Hm' Hd' Heq.
  pose proof (parseKey_dateKeyOf y m d Hy Hm Hd) as H.
  rewrite Heq, parseKey_dateKeyOf in H by done. by injection H as -> -> ->.
Qed.

(** ** Weeks of a month *)

Lemma ceil_div7_spec (n w : Z) : ceil_div7 n = w ↔ 7 * (w - 1) < n ≤ 7 * w.
Proof.
  unfold ceil_div7.
  pose proof (Z.div_mod (- n) 7). pose proof (Z.mod_pos_bound (- n) 7). lia.
Qed.

Lemma getFirstDayOfMonth_civil (y m : Z) :
  100 ≤ y ≤ 270000 → 1 ≤ m ≤ 12 →
  getFirstDayOfMonth (Some y) (Some (m - 1))
  = Some (Calendar.weekday (Calendar.days_from_civil y m 1)).
Proof.
  intros Hy Hm. unfold getFirstDayOfMonth.
  pose proof (CalendarFacts.days_in_month_bounds y m).
  by rewrite JSDateFacts.make_civil by lia.
Qed.

Lemma getDaysInMonth_civil (y m : Z) :
  100 ≤ y ≤ 270000 → 1 ≤ m ≤ 12 →
  getDaysInMonth (Some y) (Some (m - 1)) = Some (Calendar.days_in_month y m).
Proof.
  intros Hy Hm. unfold getDaysInMonth. cbn [fmap option_fmap option_map].
  replace (m - 1 + 1) with m by lia. by apply JSDateFacts.daysInMonth_civil.
Qed.

Lemma weekday_bounds (z : Z) : 0 ≤ Calendar.weekday z ≤ 6.
Proof. unfold Calendar.weekday. pose proof (Z.mod_pos_bound (z + 4) 7). lia. Qed.

(** X2.  A week is complete exactly when the seven days of that week,
    Sunday to Saturday, all lie in the month and are all marked complete: a
    week that the month cuts short never completes. *)
Theorem only_full_weeks_complete (data : Data.t) (y m w firstDay : Z) :
  100 ≤ y ≤ 270000 → 1 ≤ m ≤ 12 →
  getFirstDayOfMonth (Some y) (Some (m - 1)) = Some firstDay →
  isWeekComplete data (Some y) (Some m) (Some w) = true ↔
  ∀ day, 7 * (w - 1) < firstDay + day ≤ 7 * w →
    1 ≤ day ≤ Calendar.days_in_month y m
    ∧ Data.completedDays data !! dateKeyOf (Some y) (Some m) day = Some true.
Proof.
  intros Hy Hm Hfd. rewrite getFirstDayOfMonth_civil in Hfd by done.
  injection Hfd as Hfd.
  rewrite isWeekComplete_civil by done.
  set (P := λ day, spec_weekOfMonth y m day = w
                   ∧ Data.completedDays data !! dateKeyOf (Some y) (Some m) day = Some true).
  set (l := filter P (seqZ 1 (Calendar.days_in_month y m))).
  set (a := 7 * (w - 1) - firstDay + 1).
  assert (Hl : NoDup l) by apply NoDup_filter, NoDup_seqZ.
  assert (Hin : ∀ x, x ∈ l ↔ 1 ≤ x ≤ Calendar.days_in_month y m
                          ∧ 7 * (w - 1) < firstDay + x ≤ 7 * w
                          ∧ Data.completedDays data !! dateKeyOf (Some y) (Some m) x
                            = Some true).
  { intros x. unfold l. rewrite list_elem_of_filter, elem_of_seqZ. unfold P.
    unfold spec_weekOfMonth. rewrite ceil_div7_spec, Hfd. intuition lia. }
  rewrite Z.leb_le. split.
  - intros Hlen day Hday.
    assert (l ≡ₚ seqZ a 7) as Hperm.
    { apply submseteq_length_Permutation.
      - apply NoDup_submseteq; [done|]. intros x Hx. apply Hin in Hx.
        apply elem_of_seqZ. lia.
      - rewrite length_seqZ. lia. }
    assert (day ∈ l) as Hd.
    { rewrite Hperm. apply elem_of_seqZ. lia. }
    apply Hin in Hd. tauto.
  - intros Hall.
    assert (seqZ a 7 ⊆+ l) as Hsub.
    { apply NoDup_submseteq; [apply NoDup_seqZ|]. intros x Hx.
      apply elem_of_seqZ in Hx. apply Hin.
      destruct (Hall x) as [? ?]; [lia|]. split; [done|]. split; [lia|done]. }
    apply submseteq_length in Hsub. rewrite length_seqZ in Hsub. lia.
Qed.

Lemma ceil_div7_mono (a b : Z) : a ≤ b → ceil_div7 a ≤ ceil_div7 b.
Proof.
  intros Hab.
  pose proof (proj1 (ceil_div7_spec a _) eq_refl).
  pose proof (proj1 (ceil_div7_spec b _) eq_refl). lia.
Qed.

Lemma numWeeks_civil (y m : Z) :
  100 ≤ y ≤ 270000 → 1 ≤ m ≤ 12 →
  numWeeks (Some y) (Some (m - 1))
  = Some (spec_weekOfMonth y m (Calendar.days_in_month y m)).
Proof.
  intros Hy Hm. unfold numWeeks.
  rewrite getDaysInMonth_civil, getFirstDayOfMonth_civil by done.
  cbn [mbind option_bind]. unfold spec_weekOfMonth. do 2 f_equal. lia.
Qed.

(** X3.  The weekly summary of the page has a row for the week of every
    day of the month shown, under the week key that [completeWorkout] stores
    the reward of that day's week under; it has four to six rows. *)
Theorem summary_shows_every_week (dateKey : string) (y m d : Z) :
  parseKey dateKey = (Some y, Some m, Some d) →
  100 ≤ y ≤ 270000 → 1 ≤ m ≤ 12 → 1 ≤ d ≤ Calendar.days_in_month y m →
  weekKeyFor dateKey ∈ summaryWeekKeys (Some y) (Some (m - 1))
  ∧ 4 ≤ Z.of_nat (length (summaryWeekKeys (Some y) (Some (m - 1)))) ≤ 6.
Proof.
  intros Hp Hy Hm Hd. unfold summaryWeekKeys. rewrite numWeeks_civil by done.
  set (n := spec_weekOfMonth y m (Calendar.days_in_month y m)).
  pose proof (weekday_bounds (Calendar.days_from_civil y m 1)) as Hfd.
  pose proof (CalendarFacts.days_in_month_bounds y m) as Hdim.
  assert (Hn : 4 ≤ n ≤ 6).
  { pose proof (proj1 (ceil_div7_spec _ _) (eq_refl n)) as H. lia. }
  cbv zeta.
  split.
  - unfold weekKeyFor. rewrite Hp. rewrite JSDateFacts.weekOf_civil by done.
    apply list_elem_of_fmap. exists (spec_weekOfMonth y m d). split.
    + cbn [fmap option_fmap option_map]. by replace (m - 1 + 1) with m by lia.
    + apply elem_of_seqZ.
      pose proof (proj1 (ceil_div7_spec _ _) (eq_refl (spec_weekOfMonth y m d))) as H.
      assert (spec_weekOfMonth y m d ≤ n) by (apply ceil_div7_mono; lia).
      lia.
  - rewrite length_fmap, length_seqZ. lia.
Qed.

(** ** Helpers and formatters *)

Lemma length_substring_0 (n : nat) (s : string) :
  String.length (substring 0 n s) = (n `min` String.length s)%nat.
Proof.
  revert n. induction s as [|a s IH]; intros [|n]; simpl; try done.
  by rewrite IH.
Qed.

(** X5.  With room for the ellipsis, the result of [truncateText] is never
    longer than [maxLength]; a text that is too long becomes a result of
    length [maxLength] exactly, a prefix of the text followed by ['...']. *)
Theorem truncateText_length (text : string) (maxLength : Z) :
  3 ≤ maxLength →
  str_length (truncateText text maxLength) ≤ maxLength
  ∧ (maxLength < str_length text →
     str_length (truncateText text maxLength) = maxLength
     ∧ ∃ kept, truncateText text maxLength = kept +:+ "..."
               ∧ String.prefix kept text = true).
Proof.
  intros Hm. unfold truncateText, str_length.
  destruct (String.eqb_spec text "") as [->|Hne].
  - simpl. split; [lia|]. intros H. simpl in H. lia.
  - destruct (Z.leb_spec (Z.of_nat (String.length text)) maxLength) as [Hle|Hgt].
    + split; [done|lia].
    + assert (Hlen : Z.of_nat (String.length
                (substring 0 (Z.to_nat (maxLength - 3)) text +:+ "...")) = maxLength).
      { rewrite length_append, length_substring_0. simpl. lia. }
      split; [lia|]. intros _. split; [done|]. eexists. split; [done|].
      apply prefix_correct. rewrite length_substring_0.
      by rewrite Nat.min_l by lia.
Qed.

(** X6.  The number that [formatRelativeTime] prints is never negative,
    and it is 0 exactly for a date 28 or 29 days back (four weeks, but not
    yet one month of 30 days) or 360 to 364 days back (twelve months of 30
    days, but not yet one year of 365 days). *)
Theorem relative_time_count (now d n : Z) (unit : string) :
  relativeTime now d = Some (n, unit) →
  0 ≤ n
  ∧ (n = 0 ↔ 28 * 86400000 ≤ now - d < 30 * 86400000
             ∨ 360 * 86400000 ≤ now - d < 365 * 86400000).
Proof.
  unfold relativeTime.
  rewrite !Z.div_div by lia.
  change (1000 * 60) with 60000. change (60000 * 60) with 3600000.
  change (3600000 * 24) with 86400000. change (86400000 * 7) with 604800000.
  change (86400000 * 30) with 2592000000. change (86400000 * 365) with 31536000000.
  pose proof (Z.div_mod (now - d) 1000). pose proof (Z.mod_pos_bound (now - d) 1000).
  pose proof (Z.div_mod (now - d) 60000). pose proof (Z.mod_pos_bound (now - d) 60000).
  pose proof (Z.div_mod (now - d) 3600000). pose proof (Z.mod_pos_bound (now - d) 3600000).
  pose proof (Z.div_mod (now - d) 86400000). pose proof (Z.mod_pos_bound (now - d) 86400000).
  pose proof (Z.div_mod (now - d) 604800000). pose proof (Z.mod_pos_bound (now - d) 604800000).
  pose proof (Z.div_mod (now - d) 2592000000). pose proof (Z.mod_pos_bound (now - d) 2592000000).
  pose proof (Z.div_mod (now - d) 31536000000). pose proof (Z.mod_pos_bound (now - d) 31536000000).
  repeat case_match; intros [= <- <-]; lia.
Qed.

Lemma shuffle_loop_perm {A} (rnd : nat → Unit01) (i : nat) (l : list A) :
  shuffle_loop rnd i l ≡ₚ l.
Proof.
  revert l. induction i as [|i IH]; intros l; [done|].
  cbn [shuffle_loop]. rewrite IH. unfold swap.
  destruct (l !! S i) as [x|] eqn:Hx; [|done].
  destruct (l !! Z.to_nat _) as [y|] eqn:Hy; [|done].
  by apply Permutation_insert_swap.
Qed.

(** X7.  [shuffleArray] returns a permutation of its argument, whatever
    the random numbers are. *)
Theorem shuffleArray_permutation {A} (rnd : nat → Unit01) (array : list A) :
  shuffleArray rnd array ≡ₚ array ∧ length (shuffleArray rnd array) = length array.
Proof.
  assert (shuffleArray rnd array ≡ₚ array) as H by apply shuffle_loop_perm.
  split; [done|]. by rewrite H.
Qed.

(** ** Random codes *)

Lemma get_elem_of (k : nat) (s : string) :
  (k < String.length s)%nat →
  ∃ c, String.get k s = Some c ∧ c ∈ list_ascii_of_string s.
Proof.
  revert k. induction s as [|a s IH]; intros k Hk; simpl in Hk; [lia|].
  destruct k as [|k]; simpl.
  - exists a. split; [done|]. by left.
  - destruct (IH k) as (c & Hc & Hin); [lia|]. exists c. split; [done|]. by right.
Qed.

(** The loop appends [n] characters, each one a character of [chars]. *)
Lemma random_chars_loop_spec (chars : string) (rnd : nat → Unit01) (i n : nat)
    (code : string) :
  chars ≠ "" →
  ∃ s, random_chars_loop chars rnd i n code = code +:+ s
       ∧ String.length s = n
       ∧ Forall (λ c, c ∈ list_ascii_of_string chars) (list_ascii_of_string s).
Proof.
  intros Hne. revert i code. induction n as [|n IH]; intros i code.
  - exists "". split; [|done]. simpl. clear. induction code as [|a s IH]; [done|].
    by rewrite append_cons, <- IH.
  - cbn [random_chars_loop].
    destruct (IH (S i) (code +:+ charAt chars (floor_mul (rnd i) (str_length chars))))
      as (s & -> & Hlen & Hall).
    assert (1 ≤ str_length chars) as Hl.
    { unfold str_length. destruct chars; [done|]. simpl. lia. }
    pose proof (floor_mul_bounds (rnd i) _ Hl) as Hb.
    unfold charAt. destruct (Z.ltb_spec (floor_mul (rnd i) (str_length chars)) 0); [lia|].
    destruct (get_elem_of (Z.to_nat (floor_mul (rnd i) (str_length chars))) chars)
      as (c & -> & Hc); [unfold str_length in *; lia|].
    exists (String c s). split; [by rewrite append_assoc|]. split; [simpl; lia|].
    simpl. by constructor.
Qed.

Lemma trimStart_code (s : string) :
  Forall (λ c, code_char c = true) (list_ascii_of_string s) → trimStart s = s.
Proof.
  destruct s as [|a s]; [done|]. simpl. intros H. apply Forall_cons_1 in H as [Ha _].
  unfold code_char in Ha. by destruct (is_white a); [rewrite andb_false_r in Ha|].
Qed.

Lemma list_ascii_of_rev_app (s t : string) :
  list_ascii_of_string (String.rev_app s t)
  = (reverse (list_ascii_of_string s) ++ list_ascii_of_string t)%list.
Proof.
  revert t. induction s as [|a s IH]; intros t; [done|].
  simpl. rewrite IH. simpl. by rewrite reverse_cons, <- app_assoc.
Qed.

Lemma list_ascii_of_string_inj (s t : string) :
  list_ascii_of_string s = list_ascii_of_string t → s = t.
Proof.
  intros H. by rewrite <- (string_of_list_ascii_of_string s),
    <- (string_of_list_ascii_of_string t), H.
Qed.

Lemma trim_code (s : string) :
  Forall (λ c, code_char c = true) (list_ascii_of_string s) → trim s = s.
Proof.
  intros H. unfold trim. rewrite (trimStart_code s H).
  rewrite trimStart_code.
  - apply list_ascii_of_string_inj. unfold String.rev.
    rewrite !list_ascii_of_rev_app. simpl. rewrite !app_nil_r. apply reverse_involutive.
  - unfold String.rev. rewrite list_ascii_of_rev_app. simpl. rewrite app_nil_r.
    by apply Forall_reverse.
Qed.

Lemma toUpperCase_code (s : string) :
  Forall (λ c, code_char c = true) (list_ascii_of_string s) → toUpperCase s = s.
Proof.
  induction s as [|a s IH]; [done|]. simpl. intros H.
  apply Forall_cons_1 in H as [Ha Hs]. rewrite IH by done. f_equal.
  unfold code_char in Ha. apply andb_true_iff in Ha as [_ Ha].
  by apply bool_decide_eq_true in Ha.
Qed.

Lemma forallb_code (f : ascii → bool) (l : list ascii) :
  (∀ c, code_char c = true → f c = true) →
  Forall (λ c, code_char c = true) l → forallb f l = true.
Proof.
  intros Hf Hl. apply forallb_forall. intros c Hc.
  apply Hf. rewrite Forall_forall in Hl. apply Hl. by apply list_elem_of_In.
Qed.

Lemma invite_alphabet_code_char :
  Forall (λ c, code_char c = true)
    (list_ascii_of_string "WALKABCDEFGHJKLMNPQRSTUVWXYZ23456789").
Proof. apply Forall_forall. intros c Hc. set_unfold. by repeat destruct Hc as [->|Hc]. Qed.

(** X8.  Every code that [generateInviteCode] can return has ten
    characters and passes [isValidInviteCode]. *)
Theorem generated_invite_code_is_valid (rnd : nat → Unit01) :
  isValidInviteCode (generateInviteCode rnd) = Some (mkValidation true "")
  ∧ str_length (generateInviteCode rnd) = 10.
Proof.
  unfold generateInviteCode.
  destruct (random_chars_loop_spec "ABCDEFGHJKLMNPQRSTUVWXYZ23456789" rnd 0 6 "WALK")
    as (s & -> & Hlen & Hall); [done|].
  assert (Hs : Forall (λ c, code_char c = true) (list_ascii_of_string s)).
  { eapply Forall_impl; [exact Hall|]. intros c Hc.
    pose proof invite_alphabet_code_char as H. rewrite Forall_forall in H.
    apply H. change (c ∈ (list_ascii_of_string "WALK"
                          ++ list_ascii_of_string "ABCDEFGHJKLMNPQRSTUVWXYZ23456789")%list).
    apply elem_of_app. by right. }
  assert (Hcode : Forall (λ c, code_char c = true) (list_ascii_of_string ("WALK" +:+ s))).
  { rewrite list_ascii_of_append. apply Forall_app. split; [|done].
    by repeat constructor. }
  split.
  - unfold isValidInviteCode.
    rewrite (forallb_code is_ascii) by
      (done || (intros c Hc; unfold code_char in Hc;
                by destruct (is_ascii c))).
    cbn [negb]. rewrite trim_code, toUpperCase_code by done.
    change ("WALK" +:+ s) with (String "W" (String "A" (String "L" (String "K" s)))).
    cbn [String.eqb orb]. unfold str_length. cbn [String.length codeRegex_test].
    rewrite Hlen. cbn [Nat.eqb andb].
    rewrite (forallb_code is_upper_or_digit) by
      (done || (intros c Hc; unfold code_char in Hc;
                by destruct (is_upper_or_digit c); [|rewrite !andb_false_r in Hc])).
    done.
  - unfold str_length. rewrite length_append, Hlen. done.
Qed.

(** X9.  [generateId(length)] returns [length] characters (none for a
    negative [length]), each one of its alphabet. *)
Theorem generateId_length (rnd : nat → Unit01) (length : Z) :
  str_length (generateId rnd length) = Z.max 0 length
  ∧ Forall (λ c, c ∈ list_ascii_of_string
                       "ABCDEFGHJKLMNPQRSTUVWXYZabcdefghjkmnpqrstuvwxyz23456789")
      (list_ascii_of_string (generateId rnd length)).
Proof.
  unfold generateId.
  destruct (random_chars_loop_spec
              "ABCDEFGHJKLMNPQRSTUVWXYZabcdefghjkmnpqrstuvwxyz23456789"
              rnd 0 (Z.to_nat length) "") as (s & -> & Hlen & Hall); [done|].
  change ("" +:+ s) with s. split; [|done]. unfold str_length. lia.
Qed.

Section MoreProperties.

Variable Date_parse : string → option Z.

(** ** Badges *)

Lemma snd_pair {A B} (a : A) (b : B) : (a, b).2 = b.
Proof. done. Qed.

Lemma stored_unlocked_badge_getData (st : Store) :
  default [] (Doc.unlockedBadges (badge_getData st)) = stored_unlocked st.
Proof. by destruct st. Qed.

Lemma checkAndUnlockBadges_cases (e : Env) (st : Store) :
  let out :=
    unlock_loop (getCurrentProgress (fresh_invite e) st (badge_getData st))
                BADGE_DEFINITIONS (stored_unlocked st) [] in
  checkAndUnlockBadges e st
  = (if (0 <? length out.2)%nat
     then save_doc (setItem_ok e) (Doc.with_unlockedBadges out.1 (badge_getData st)) st
     else st,
     out.2).
Proof.
  cbv zeta. unfold checkAndUnlockBadges. rewrite stored_unlocked_badge_getData.
  destruct (unlock_loop _ _ _ _) as [unlocked newly]. cbn [fst snd].
  by destruct (0 <? length newly)%nat.
Qed.

(** The loop unlocks exactly the definitions that are earned and not yet
    unlocked, in the order of the list, when no two definitions share an id. *)
Lemma unlock_loop_filter (progress : Progress.t) (defs : list Badge.t)
    (unlocked : list string) (newlyUnlocked : list Badge.t) :
  NoDup (Badge.id <$> defs) →
  let earned :=
    filter (λ badge, (Badge.id badge ∉ unlocked)
                     ∧ shouldUnlockBadge badge progress = true) defs in
  unlock_loop progress defs unlocked newlyUnlocked
  = ((unlocked ++ (Badge.id <$> earned))%list, (newlyUnlocked ++ earned)%list).
Proof.
  revert unlocked newlyUnlocked.
  induction defs as [|badge rest IH]; intros unlocked newlyUnlocked Hnd.
  - cbn. by rewrite !app_nil_r.
  - rewrite fmap_cons in Hnd. apply NoDup_cons in Hnd as [Hfresh Hnd].
    cbn [unlock_loop]. cbv zeta.
    destruct (bool_decide (Badge.id badge ∈ unlocked)) eqn:Hin.
    + apply bool_decide_eq_true in Hin.
      rewrite filter_cons_False by tauto. by apply IH.
    + apply bool_decide_eq_false in Hin.
      destruct (shouldUnlockBadge badge progress) eqn:Hs.
      * rewrite filter_cons_True by done. rewrite IH by done. cbv zeta.
        assert (Hf : filter (λ b, (Badge.id b ∉ (unlocked ++ [Badge.id badge])%list)
                                  ∧ shouldUnlockBadge b progress = true) rest
                     = filter (λ b, (Badge.id b ∉ unlocked)
                                    ∧ shouldUnlockBadge b progress = true) rest).
        { apply filter_agree, Forall_forall. intros b Hb.
          rewrite elem_of_app, list_elem_of_singleton.
          assert (Badge.id b ≠ Badge.id badge).
          { intros Heq. apply Hfresh. rewrite <- Heq.
            apply list_elem_of_fmap. eauto. }
          tauto. }
        rewrite Hf, fmap_cons, <- !app_assoc. done.
      * rewrite filter_cons_False by (intros [_ ?]; congruence). by apply IH.
Qed.

Lemma BADGE_DEFINITIONS_ids_distinct : NoDup (Badge.id <$> BADGE_DEFINITIONS).
Proof. refine (bool_decide_unpack _ _). vm_compute. exact I. Qed.

(** X10.  The list that [checkAndUnlockBadges] returns is the list of the
    definitions that are earned and were not unlocked, in declaration order
    (so its first element is the first such definition), whether or not the
    write goes through. *)
Theorem newly_unlocked_in_declaration_order (e : Env) (st : Store) :
  (checkAndUnlockBadges e st).2
  = filter (λ badge,
              (Badge.id badge ∉ stored_unlocked st)
              ∧ shouldUnlockBadge badge
                  (getCurrentProgress (fresh_invite e) st (badge_getData st)) = true)
           BADGE_DEFINITIONS.
Proof.
  rewrite checkAndUnlockBadges_cases. cbv zeta.
  rewrite snd_pair, (unlock_loop_filter _ _ _ _ BADGE_DEFINITIONS_ids_distinct).
  cbv zeta. by rewrite snd_pair.
Qed.

Lemma stored_unlocked_with (unlocked : list string) (data : Doc.t) :
  stored_unlocked (Some (Doc.with_unlockedBadges unlocked data)) = unlocked.
Proof. done. Qed.

(** What a check leaves in the store: the list as it was, or the list the
    loop computed. *)
Lemma checkAndUnlockBadges_unlocked (e : Env) (st : Store) :
  let out :=
    unlock_loop (getCurrentProgress (fresh_invite e) st (badge_getData st))
                BADGE_DEFINITIONS (stored_unlocked st) [] in
  stored_unlocked (checkAndUnlockBadges e st).1
  = if (0 <? length out.2)%nat && setItem_ok e then out.1 else stored_unlocked st.
Proof.
  rewrite checkAndUnlockBadges_cases. cbv zeta.
  rewrite fst_pair, save_doc_cases.
  destruct (0 <? length _)%nat; [|done].
  destruct (setItem_ok e); [|done]. cbn [andb]. apply stored_unlocked_with.
Qed.

Lemma checkAndUnlockBadges_earned (e : Env) (st : Store) (badge : Badge.t) :
  setItem_ok e = true →
  badge ∈ BADGE_DEFINITIONS →
  shouldUnlockBadge badge (getCurrentProgress (fresh_invite e) st (badge_getData st))
  = true →
  Badge.id badge ∈ stored_unlocked (checkAndUnlockBadges e st).1.
Proof.
  intros Hok Hb Hs.
  rewrite checkAndUnlockBadges_unlocked. cbv zeta. rewrite Hok, andb_true_r.
  set (progress := getCurrentProgress (fresh_invite e) st (badge_getData st)) in *.
  pose proof (unlock_loop_saturates progress BADGE_DEFINITIONS (stored_unlocked st) [])
    as [_ Hsat].
  destruct (unlock_loop_appends progress BADGE_DEFINITIONS (stored_unlocked st) [])
    as [added Hadd].
  rewrite Hadd in Hsat |- *. cbn [fst snd app] in *.
  rewrite Forall_forall in Hsat. destruct (Hsat badge Hb) as [Hu|Hn]; [|congruence].
  destruct added as [|b added]; [|exact Hu].
  cbn. by rewrite app_nil_r in Hu.
Qed.

(** X11.  After a check whose write went through, every definition whose
    metric meets its requirement is unlocked, and [getUnlockedBadges]
    returns it. *)
Theorem earned_badges_are_unlocked (e : Env) (st : Store) (badge : Badge.t) :
  setItem_ok e = true →
  badge ∈ BADGE_DEFINITIONS →
  shouldUnlockBadge badge (getCurrentProgress (fresh_invite e) st (badge_getData st))
  = true →
  Badge.id badge ∈ stored_unlocked (checkAndUnlockBadges e st).1
  ∧ badge ∈ getUnlockedBadges (checkAndUnlockBadges e st).1.
Proof.
  intros Hok Hb Hs.
  pose proof (checkAndUnlockBadges_earned e st badge Hok Hb Hs) as Hin.
  split; [exact Hin|].
  unfold getUnlockedBadges. apply list_elem_of_filter. split; [|done].
  by rewrite stored_unlocked_badge_getData.
Qed.

(** The properties of the document that a completion does not touch. *)
Lemma completeWorkout_data_untouched (u : Unit01) (dateKey : string) (data : Data.t) :
  let out := (completeWorkout_data Date_parse u dateKey data).1 in
  Data.unlockedBadges out = Data.unlockedBadges data
  ∧ Data.inviteCode out = Data.inviteCode data
  ∧ Data.friends out = Data.friends data
  ∧ Data.cheers out = Data.cheers data
  ∧ Data.profiles out = Data.profiles data.
Proof.
  unfold completeWorkout_data.
  destruct (parseKey dateKey) as [[year month] day].
  by destruct (_ && _).
Qed.

Lemma stored_unlocked_code (c : string) (st : Store) :
  Data.unlockedBadges (getData c st) = stored_unlocked st.
Proof. by destruct st. Qed.

Lemma stored_unlocked_saved (data : Data.t) :
  stored_unlocked (Some (Data.to_doc data)) = Data.unlockedBadges data.
Proof. unfold stored_unlocked. by rewrite getData_to_doc. Qed.

Lemma completeWorkout_unlocked (e : Env) (dateKey : string) (st : Store) :
  stored_unlocked (completeWorkout Date_parse e dateKey st).1 = stored_unlocked st.
Proof.
  rewrite completeWorkout_unfold, fst_pair, saveData_cases.
  destruct (setItem_ok e); [|done].
  rewrite stored_unlocked_saved.
  destruct (completeWorkout_data_untouched (random e) dateKey (getData (fresh_invite e) st))
    as (-> & _).
  apply stored_unlocked_code.
Qed.

Lemma save_movements_unlocked (ok : bool) (ms : list Movement.t) (st : Store) :
  stored_unlocked (save_doc ok (Doc.with_movements ms (movement_getData st)) st)
  = stored_unlocked st.
Proof. rewrite save_doc_cases. destruct ok; [|done]. by destruct st. Qed.

(** What an operation leaves in [unlockedBadges]: the list as it was, or the
    list that the unlock loop makes of it. *)
Lemma apply_op_unlocked (op : Op) (st : Store) :
  ∃ progress,
    stored_unlocked (apply_op Date_parse op st) = stored_unlocked st
    ∨ stored_unlocked (apply_op Date_parse op st)
      = (unlock_loop progress BADGE_DEFINITIONS (stored_unlocked st) []).1.
Proof.
  destruct op as [e dateKey|e min max|e|e eb name charity description startDate endDate
                  |e movementId|e movementId|e movementId weekKey amount];
    cbn [apply_op].
  - exists (Progress.mk 0 0 0 0 0 0). left. apply completeWorkout_unlocked.
  - exists (Progress.mk 0 0 0 0 0 0). left. unfold updateRewardRange.
    destruct ((min >? max) || (min <? 1)); [done|].
    rewrite fst_pair, saveData_cases. destruct (setItem_ok e); [|done].
    rewrite stored_unlocked_saved. apply stored_unlocked_code.
  - eexists. rewrite checkAndUnlockBadges_unlocked. cbv zeta.
    destruct (_ && _); [by right|by left].
  - unfold createMovement.
    destruct (negb (valid (isValidMovementName name)));
      [exists (Progress.mk 0 0 0 0 0 0); by left|].
    destruct (negb (valid (isValidMovementDescription description)));
      [exists (Progress.mk 0 0 0 0 0 0); by left|].
    destruct (negb (valid (isValidDateRange Date_parse startDate endDate)));
      [exists (Progress.mk 0 0 0 0 0 0); by left|].
    destruct (String.eqb charity ""); [exists (Progress.mk 0 0 0 0 0 0); by left|].
    lazy zeta. rewrite fst_pair. eexists.
    rewrite checkAndUnlockBadges_unlocked. cbv zeta.
    rewrite !save_movements_unlocked.
    destruct (_ && _); [by right|by left].
  - exists (Progress.mk 0 0 0 0 0 0). left. unfold joinMovement.
    destruct (Doc.movements (movement_getData st)) as [ms|]; [|done].
    destruct (find_movement movementId ms) as [[i movement]|]; [|done].
    destruct (bool_decide _); [done|].
    rewrite fst_pair. apply save_movements_unlocked.
  - exists (Progress.mk 0 0 0 0 0 0). left. unfold leaveMovement.
    destruct (Doc.movements (movement_getData st)) as [ms|]; [|done].
    destruct (find_movement movementId ms) as [[i movement]|]; [|done].
    destruct (list_find _ _) as [[index you]|]; [|done].
    rewrite fst_pair. apply save_movements_unlocked.
  - exists (Progress.mk 0 0 0 0 0 0). left. unfold addMovementContribution.
    destruct (Doc.movements (movement_getData st)) as [ms|]; [|done].
    destruct (find_movement movementId ms) as [[i movement]|]; [|done].
    destruct (negb _); [done|]. apply save_movements_unlocked.
Qed.

(** X12.  No operation revokes a badge: the stored [unlockedBadges] before an
    operation is a prefix of the stored list after it. *)
Theorem unlocked_badges_only_grow (op : Op) (st : Store) :
  stored_unlocked st `prefix_of` stored_unlocked (apply_op Date_parse op st).
Proof.
  destruct (apply_op_unlocked op st) as [progress [-> | ->]]; [done|].
  destruct (unlock_loop_appends progress BADGE_DEFINITIONS (stored_unlocked st) [])
    as [added ->].
  rewrite fst_pair. by apply prefix_app_r.
Qed.

Lemma NoDup_fmap_filter {A B} (f : A → B) (P : A → Prop) `{!∀ x, Decision (P x)}
    (l : list A) :
  NoDup (f <$> l) → NoDup (f <$> filter P l).
Proof.
  induction l as [|x l IH]; [done|].
  rewrite fmap_cons, NoDup_cons. intros [Hx Hl]. rewrite filter_cons.
  destruct (decide (P x)); [|by apply IH].
  rewrite fmap_cons. apply NoDup_cons. split; [|by apply IH].
  intros Hin. apply Hx. apply list_elem_of_fmap in Hin as [y [-> Hy]].
  apply list_elem_of_filter in Hy as [_ Hy]. apply list_elem_of_fmap. eauto.
Qed.

(** The unlock loop keeps the list duplicate-free and within the ids of the
    definitions. *)
Lemma unlock_loop_distinct (progress : Progress.t) (unlocked : list string) :
  NoDup unlocked →
  (∀ x, x ∈ unlocked → x ∈ Badge.id <$> BADGE_DEFINITIONS) →
  NoDup (unlock_loop progress BADGE_DEFINITIONS unlocked []).1
  ∧ (∀ x, x ∈ (unlock_loop progress BADGE_DEFINITIONS unlocked []).1 →
          x ∈ Badge.id <$> BADGE_DEFINITIONS).
Proof.
  intros Hnd Hsub.
  rewrite (unlock_loop_filter _ _ _ _ BADGE_DEFINITIONS_ids_distinct). cbv zeta.
  rewrite fst_pair. split.
  - apply NoDup_app. split; [done|]. split.
    + intros x Hx Hin. apply list_elem_of_fmap in Hin as [b [-> Hb]].
      apply list_elem_of_filter in Hb as [[Hnot _] _]. done.
    + apply NoDup_fmap_filter, BADGE_DEFINITIONS_ids_distinct.
  - intros x. rewrite elem_of_app. intros [Hx|Hx]; [by apply Hsub|].
    apply list_elem_of_fmap in Hx as [b [-> Hb]].
    apply list_elem_of_filter in Hb as [_ Hb]. apply list_elem_of_fmap. eauto.
Qed.

(** X13.  In every store that the operations reach from a fresh browser, no
    badge is listed twice in [unlockedBadges] and every entry is the id of a
    definition; hence the [unlocked] count of [getBadgeCount] never exceeds
    its [total]. *)
Theorem unlocked_badges_are_distinct (st : Store) :
  reachable Date_parse st →
  NoDup (stored_unlocked st)
  ∧ (∀ x, x ∈ stored_unlocked st → x ∈ Badge.id <$> BADGE_DEFINITIONS)
  ∧ (getBadgeCount st).1 ≤ (getBadgeCount st).2.
Proof.
  intros Hreach.
  assert (H : NoDup (stored_unlocked st)
              ∧ (∀ x, x ∈ stored_unlocked st → x ∈ Badge.id <$> BADGE_DEFINITIONS)).
  { induction Hreach as [|op st _ [IH1 IH2]].
    - split; [constructor|]. intros x Hx. by apply not_elem_of_nil in Hx.
    - destruct (apply_op_unlocked op st) as [progress [-> | ->]]; [done|].
      by apply unlock_loop_distinct. }
  destruct H as [Hnd Hsub]. split; [done|]. split; [done|].
  unfold getBadgeCount. cbn [fst snd]. rewrite stored_unlocked_badge_getData.
  apply inj_le. rewrite <- (length_fmap Badge.id BADGE_DEFINITIONS).
  apply submseteq_length, NoDup_submseteq; done.
Qed.

(** ** Completions and the metrics *)

Lemma completeWorkout_saved (e : Env) (dateKey : string) (st : Store) :
  setItem_ok e = true →
  (completeWorkout Date_parse e dateKey st).1
  = Some (Data.to_doc
            (completeWorkout_data Date_parse (random e) dateKey
               (getData (fresh_invite e) st)).1).
Proof. intros Hok. by rewrite completeWorkout_unfold, fst_pair, saveData_cases, Hok. Qed.

Lemma getWeeklyRewards_code' (c1 c2 : string) (st : Store) :
  Data.weeklyRewards (getData c1 st) = Data.weeklyRewards (getData c2 st).
Proof. by destruct st. Qed.

Lemma completedDays_code (c1 c2 : string) (st : Store) :
  Data.completedDays (getData c1 st) = Data.completedDays (getData c2 st).
Proof. by destruct st. Qed.

Lemma assign_lookup_ne {A} (k k' : string) (v : A) (o : gmap string A) :
  k' ≠ k → assign k v o !! k' = o !! k'.
Proof.
  intros Hne. unfold assign. destruct (_ && _); [done|]. by rewrite lookup_insert_ne.
Qed.

Lemma assign_own {A} (k : string) (v : A) (o : gmap string A) :
  k ≠ "__proto__" → assign k v o = <[k := v]> o.
Proof. intros Hne. unfold assign. by rewrite bool_decide_eq_false_2. Qed.

(** After [o[k] = true], [!!o[k]] is true: the own property is, and where
    none was made the inherited one is. *)
Lemma truthy_prop_assign (k : string) (o : gmap string bool) :
  truthy_prop (assign k true o) k = true.
Proof.
  unfold assign, truthy_prop.
  destruct (bool_decide_reflect (k = "__proto__")) as [->|]; cbn [andb].
  - destruct (bool_decide_reflect (o !! "__proto__" = None)) as [->|]; [done|].
    by rewrite lookup_insert_eq.
  - by rewrite lookup_insert_eq.
Qed.

(** The completed days after a call: as before, or with the date key
    assigned. *)
Lemma completeWorkout_days (c : string) (e : Env) (dateKey : string) (st : Store) :
  getCompletedDays c (completeWorkout Date_parse e dateKey st).1
  = if setItem_ok e then assign dateKey true (getCompletedDays c st)
    else getCompletedDays c st.
Proof.
  rewrite completeWorkout_unfold, fst_pair, saveData_cases.
  destruct (setItem_ok e); [|done].
  unfold getCompletedDays. rewrite getData_to_doc.
  destruct (completeWorkout_data_cases Date_parse (random e) dateKey
              (getData (fresh_invite e) st)) as (_ & -> & _).
  by rewrite (completedDays_code c (fresh_invite e)).
Qed.

(** X14.  A completion whose write goes through marks the day of its date
    key as completed, and a call changes what [isDayCompleted] says of no
    other date key. *)
Theorem completion_is_recorded (c : string) (e : Env) (dateKey : string) (st : Store) :
  (setItem_ok e = true →
   isDayCompleted c dateKey (completeWorkout Date_parse e dateKey st).1 = true)
  ∧ (∀ k, k ≠ dateKey →
          isDayCompleted c k (completeWorkout Date_parse e dateKey st).1
          = isDayCompleted c k st).
Proof.
  unfold isDayCompleted.
  change (Data.completedDays (getData c ?s)) with (getCompletedDays c s).
  rewrite completeWorkout_days. split.
  - intros ->. apply truthy_prop_assign.
  - intros k Hk. destruct (setItem_ok e); [|done].
    unfold truthy_prop. by rewrite assign_lookup_ne.
Qed.

(** X15.  The day count stays as it is for a date key that was in
    [completedDays], and goes up by one for a date key that was not, unless
    the key is ['__proto__'], under which the assignment stores nothing. *)
Theorem total_days_counts_distinct_keys (c : string) (e : Env) (dateKey : string)
    (st : Store) :
  setItem_ok e = true →
  getTotalCompletedDays c (completeWorkout Date_parse e dateKey st).1
  = if decide (is_Some (getCompletedDays c st !! dateKey))
    then getTotalCompletedDays c st
    else if decide (dateKey = "__proto__") then getTotalCompletedDays c st
    else getTotalCompletedDays c st + 1.
Proof.
  intros Hok. unfold getTotalCompletedDays.
  change (Data.completedDays (getData c ?s)) with (getCompletedDays c s).
  rewrite completeWorkout_days, Hok.
  destruct (decide (is_Some (getCompletedDays c st !! dateKey))) as [[v Hv]|Hn].
  - unfold assign. rewrite (bool_decide_eq_false_2 (_ = None)) by congruence.
    rewrite andb_false_r.
    rewrite map_size_insert_Some; [done|by exists v].
  - apply eq_None_not_Some in Hn.
    destruct (decide (dateKey = "__proto__")) as [->|Hne].
    + unfold assign. by rewrite !bool_decide_eq_true_2.
    + rewrite assign_own by done. rewrite map_size_insert_None; [lia|done].
Qed.

Lemma size_insert_pos {A} (m : gmap string A) (k : string) (v : A) :
  (1 ≤ size (<[k := v]> m))%nat.
Proof.
  cut (size (<[k := v]> m) ≠ 0%nat); [lia|].
  apply map_size_non_empty_iff, insert_non_empty.
Qed.

(** X16.  The handler of the page completes the workout and then checks the
    badges: when both writes go through and the date key is not
    ['__proto__'] (under which no day is stored), ['first_day'] is unlocked
    after the first completion already, and ['week_warrior'] whenever the
    call issued a reward. *)
Theorem completion_unlocks_badges (e eb : Env) (dateKey : string) (st : Store) :
  setItem_ok e = true → setItem_ok eb = true → dateKey ≠ "__proto__" →
  "first_day" ∈ stored_unlocked (handleCompleteWorkout Date_parse e eb dateKey st)
  ∧ (Result.reward (completeWorkout Date_parse e dateKey st).2 ≠ None →
     "week_warrior" ∈ stored_unlocked (handleCompleteWorkout Date_parse e eb dateKey st)).
Proof.
  intros Hok Hokb Hkey. unfold handleCompleteWorkout.
  rewrite completeWorkout_unfold.
  destruct (completeWorkout_data_cases Date_parse (random e) dateKey
              (getData (fresh_invite e) st)) as (Hsucc & Hdays & _ & _ & Hcases).
  cbv zeta in Hdays. rewrite assign_own in Hdays by done.
  rewrite Hsucc, saveData_cases, Hok.
  set (data := (completeWorkout_data Date_parse (random e) dateKey
                  (getData (fresh_invite e) st)).1) in *.
  cbn [snd]. split.
  - apply (checkAndUnlockBadges_earned eb _
             (Badge.mk "first_day" "First Step" "Complete your first workout" 1
                       BadgeType.days)); [done|by left|].
    unfold shouldUnlockBadge, getCurrentProgress.
    cbn [Badge.type Badge.requirement progress_of Progress.days].
    unfold getTotalCompletedDays. rewrite getData_to_doc, Hdays.
    pose proof (size_insert_pos (Data.completedDays (getData (fresh_invite e) st))
                  dateKey true).
    apply Z.geb_le. lia.
  - intros Hr.
    destruct Hcases as [(Hnone & _)|(_ & _ & _ & Hw & _)]; [done|].
    apply (checkAndUnlockBadges_earned eb _
             (Badge.mk "week_warrior" "Week Warrior" "Complete your first full week" 1
                       BadgeType.weeks)); [done|right; by left|].
    unfold shouldUnlockBadge, getCurrentProgress.
    cbn [Badge.type Badge.requirement progress_of Progress.weeks badge_getData
         storage_get Data.to_doc Doc.weeklyRewards default].
    rewrite Hw.
    pose proof (size_insert_pos (Data.weeklyRewards (getData (fresh_invite e) st))
                  (weekKeyFor dateKey)
                  (randomInt (random e) (Data.minReward (getData (fresh_invite e) st))
                             (Data.maxReward (getData (fresh_invite e) st)))).
    apply Z.geb_le. unfold id. lia.
Qed.

Lemma getMovements_stored (st : Store) : getMovements st = stored_movements st.
Proof. by destruct st. Qed.

(** X17.  A movement that [createMovement] reports as created is, once the
    write has gone through, the last of [getMovements], after the ones that
    were there; and when the badge write goes through too,
    ['movement_maker'] is unlocked. *)
Theorem created_movement_is_stored (e eb : Env)
    (name charity description startDate endDate : string) (st : Store)
    (mv : Movement.t) :
  CreateResult.movement
    (createMovement Date_parse e eb name charity description startDate endDate st).2
  = Some mv →
  setItem_ok e = true →
  getMovements
    (createMovement Date_parse e eb name charity description startDate endDate st).1
  = (getMovements st ++ [mv])%list
  ∧ (setItem_ok eb = true →
     "movement_maker"
     ∈ stored_unlocked
         (createMovement Date_parse e eb name charity description startDate endDate st).1).
Proof.
  unfold createMovement.
  destruct (negb (valid (isValidMovementName name))); [done|].
  destruct (negb (valid (isValidMovementDescription description))); [done|].
  destruct (negb (valid (isValidDateRange Date_parse startDate endDate))); [done|].
  destruct (String.eqb charity ""); [done|].
  lazy zeta. rewrite fst_pair, snd_pair. cbn [CreateResult.movement].
  intros [= <-] Hok. rewrite save_doc_cases, Hok.
  set (new := Movement.mk (now e) name charity description startDate endDate
                          "You" ["You"] 0 (Some ∅) (now_iso e)).
  set (ms := (default [] (Doc.movements (movement_getData st)) ++ [new])%list).
  split.
  - rewrite !getMovements_stored, checkAndUnlockBadges_movements.
    rewrite stored_movements_with. subst ms. by destruct st.
  - intros Hokb.
    apply (checkAndUnlockBadges_earned eb _
             (Badge.mk "movement_maker" "Movement Maker" "Create your first Movement" 1
                       BadgeType.movements)); [done|set_unfold; tauto|].
    unfold shouldUnlockBadge, getCurrentProgress.
    cbn [Badge.type Badge.requirement progress_of Progress.movements badge_getData
         storage_get Doc.with_movements Doc.movements default].
    subst ms. unfold id. rewrite filter_app, length_app.
    rewrite (filter_cons_True _ new) by done. cbn [length filter].
    apply Z.geb_le. lia.
Qed.

(** ** What the operations keep *)

Lemma history_kept_refl (st : Store) : history_kept st st.
Proof. by repeat split. Qed.

Lemma history_kept_trans (st1 st2 st3 : Store) :
  history_kept st1 st2 → history_kept st2 st3 → history_kept st1 st3.
Proof. intros (?&?&?) (?&?&?). repeat split; auto. Qed.

Lemma history_kept_movements (ok : bool) (ms : list Movement.t) (st : Store) :
  history_kept st (save_doc ok (Doc.with_movements ms (movement_getData st)) st).
Proof.
  rewrite save_doc_cases. destruct ok; [|apply history_kept_refl].
  destruct st as [sd|]; by repeat split.
Qed.

Lemma history_kept_unlocked (ok : bool) (unlocked : list string) (st : Store) :
  history_kept st (save_doc ok (Doc.with_unlockedBadges unlocked (badge_getData st)) st).
Proof.
  rewrite save_doc_cases. destruct ok; [|apply history_kept_refl].
  destruct st as [sd|]; by repeat split.
Qed.

Lemma stored_invite_getData (code c : string) (st : Store) :
  stored_invite st = Some c → Data.inviteCode (getData code st) = c.
Proof. destruct st as [sd|]; [|done]. cbn. by intros ->. Qed.

Lemma stored_invite_saved (data : Data.t) :
  stored_invite (Some (Data.to_doc data)) = Some (Data.inviteCode data).
Proof. done. Qed.

Lemma history_kept_checkAndUnlockBadges (e : Env) (st : Store) :
  history_kept st (checkAndUnlockBadges e st).1.
Proof.
  rewrite checkAndUnlockBadges_cases. cbv zeta. rewrite fst_pair.
  destruct (0 <? length _)%nat; [apply history_kept_unlocked|apply history_kept_refl].
Qed.

Lemma history_kept_completeWorkout (e : Env) (dateKey : string) (st : Store) :
  history_kept st (completeWorkout Date_parse e dateKey st).1.
Proof.
  rewrite completeWorkout_unfold, fst_pair, saveData_cases.
  destruct (setItem_ok e); [|apply history_kept_refl].
  destruct (completeWorkout_data_cases Date_parse (random e) dateKey
              (getData (fresh_invite e) st)) as (_ & Hdays & _ & _ & Hcases).
  destruct (completeWorkout_data_untouched (random e) dateKey
              (getData (fresh_invite e) st)) as (_ & Hcode & _).
  cbv zeta in Hdays, Hcases, Hcode.
  split; [|split].
  - intros c Hc. rewrite stored_invite_saved, Hcode. f_equal.
    by apply stored_invite_getData.
  - intros k Hk. unfold getCompletedDays. rewrite getData_to_doc, Hdays.
    rewrite (completedDays_code _ "").
    destruct (decide (k = dateKey)) as [->|Hne]; [apply truthy_prop_assign|].
    unfold truthy_prop. by rewrite assign_lookup_ne.
  - intros k Hk. unfold getWeeklyRewards. rewrite getData_to_doc.
    rewrite (getWeeklyRewards_code "" (fresh_invite e)) in Hk.
    destruct Hcases as [(_ & -> & _)|(_ & _ & _ & -> & _)]; [done|].
    rewrite lookup_insert. by case_decide.
Qed.

Lemma history_kept_updateRewardRange (e : Env) (min max : Z) (st : Store) :
  history_kept st (updateRewardRange e min max st).1.
Proof.
  unfold updateRewardRange.
  destruct ((min >? max) || (min <? 1)); [apply history_kept_refl|].
  rewrite fst_pair, saveData_cases. destruct (setItem_ok e); [|apply history_kept_refl].
  destruct st as [sd|]; repeat split; try done.
  cbn. by intros c ->.
Qed.

Lemma apply_op_history_kept (op : Op) (st : Store) :
  history_kept st (apply_op Date_parse op st).
Proof.
  destruct op as [e dateKey|e min max|e|e eb name charity description startDate endDate
                  |e movementId|e movementId|e movementId weekKey amount];
    cbn [apply_op].
  - apply history_kept_completeWorkout.
  - apply history_kept_updateRewardRange.
  - apply history_kept_checkAndUnlockBadges.
  - unfold createMovement.
    destruct (negb (valid (isValidMovementName name))); [apply history_kept_refl|].
    destruct (negb (valid (isValidMovementDescription description)));
      [apply history_kept_refl|].
    destruct (negb (valid (isValidDateRange Date_parse startDate endDate)));
      [apply history_kept_refl|].
    destruct (String.eqb charity ""); [apply history_kept_refl|].
    lazy zeta. rewrite fst_pair.
    eapply history_kept_trans; [apply history_kept_movements|].
    apply history_kept_checkAndUnlockBadges.
  - unfold joinMovement.
    destruct (Doc.movements (movement_getData st)) as [ms|]; [|apply history_kept_refl].
    destruct (find_movement movementId ms) as [[i movement]|]; [|apply history_kept_refl].
    destruct (bool_decide _); [apply history_kept_refl|].
    rewrite fst_pair. apply history_kept_movements.
  - unfold leaveMovement.
    destruct (Doc.movements (movement_getData st)) as [ms|]; [|apply history_kept_refl].
    destruct (find_movement movementId ms) as [[i movement]|]; [|apply history_kept_refl].
    destruct (list_find _ _) as [[index you]|]; [|apply history_kept_refl].
    rewrite fst_pair. apply history_kept_movements.
  - unfold addMovementContribution.
    destruct (Doc.movements (movement_getData st)) as [ms|]; [|apply history_kept_refl].
    destruct (find_movement movementId ms) as [[i movement]|]; [|apply history_kept_refl].
    destruct (negb _); [apply history_kept_refl|]. apply history_kept_movements.
Qed.

(** X18.  No operation un-completes a day or drops the reward entry of a
    week: a day that [isDayCompleted] reports stays reported, and a week key
    of [getWeeklyRewards] stays a key, whatever operation runs next. *)
Theorem history_is_kept (op : Op) (c : string) (st : Store) (k : string) :
  (isDayCompleted c k st = true →
   isDayCompleted c k (apply_op Date_parse op st) = true)
  ∧ (is_Some (getWeeklyRewards c st !! k) →
     is_Some (getWeeklyRewards c (apply_op Date_parse op st) !! k)).
Proof.
  destruct (apply_op_history_kept op st) as (_ & Hdays & Hweeks).
  unfold isDayCompleted. rewrite !(completedDays_code c "").
  rewrite !(getWeeklyRewards_code c ""). split; [|apply Hweeks].
  unfold getCompletedDays in Hdays. apply Hdays.
Qed.

(** X19.  The invite code is drawn anew by every [getData] of the workout
    service until one of its saves goes through; from then on it is the
    stored one, and no operation changes it. *)
Theorem invite_code_is_kept (e : Env) (dateKey : string) (op : Op) (st : Store) :
  (setItem_ok e = true →
   stored_invite (completeWorkout Date_parse e dateKey st).1
   = Some (Data.inviteCode (getData (fresh_invite e) st)))
  ∧ (∀ c, stored_invite st = Some c →
          stored_invite (apply_op Date_parse op st) = Some c
          ∧ ∀ code, Data.inviteCode (getData code (apply_op Date_parse op st)) = c).
Proof.
  split.
  - intros Hok. rewrite completeWorkout_unfold, fst_pair, saveData_cases, Hok.
    destruct (completeWorkout_data_untouched (random e) dateKey
                (getData (fresh_invite e) st)) as (_ & Hcode & _).
    cbv zeta in Hcode. by rewrite stored_invite_saved, Hcode.
  - intros c Hc. destruct (apply_op_history_kept op st) as (Hcode & _).
    specialize (Hcode c Hc). split; [done|].
    intros code. by apply stored_invite_getData.
Qed.

(** ** Cheers *)

(** X20.  A friend is cheered at most once: after a call whose write went
    through, [hasCheered] is true for the friend, a further call returns
    [false] and leaves the store as it is, and the other friends are as
    cheered as before. *)
Theorem cheer_is_given_once (e e' : Env) (friendId : string) (st : Store) :
  setItem_ok e = true →
  hasCheered friendId (cheerFriend e friendId st).1 = true
  ∧ cheerFriend e' friendId (cheerFriend e friendId st).1
    = ((cheerFriend e friendId st).1, false)
  ∧ ∀ other, other ≠ friendId →
      hasCheered other (cheerFriend e friendId st).1 = hasCheered other st.
Proof.
  intros Hok. unfold cheerFriend at 1 3 4 5.
  destruct (truthy_bool (default ∅ (Doc.cheers (friend_getData st))
                         !! ("cheer-" +:+ friendId))) eqn:Hc.
  - rewrite !fst_pair. split; [exact Hc|]. split; [|done].
    unfold cheerFriend. by rewrite Hc.
  - rewrite !fst_pair, save_doc_cases, Hok.
    split; [|split].
    + unfold hasCheered.
      cbn [friend_getData storage_get Doc_with_cheers Doc.cheers default]. unfold id.
      by rewrite lookup_insert_eq.
    + unfold cheerFriend.
      cbn [friend_getData storage_get Doc_with_cheers Doc.cheers default]. unfold id.
      by rewrite lookup_insert_eq.
    + intros other Hne. unfold hasCheered.
      cbn [friend_getData storage_get Doc_with_cheers Doc.cheers default]. unfold id.
      rewrite lookup_insert_ne; [done|].
      intros Heq. apply Hne. by apply (String.app_inj "cheer-") in Heq.
Qed.

(** ** Movements: creating, joining, leaving *)

(** X21.  [createMovement] succeeds exactly when the name and the
    description have an admissible length, both dates parse with the start
    not after the end, and a charity is given; a call that fails leaves the
    store as it was, returns no movement, and says why. *)
Theorem createMovement_validates (e eb : Env)
    (name charity description startDate endDate : string) (st : Store) :
  let out := createMovement Date_parse e eb name charity description startDate endDate st in
  (CreateResult.success out.2 = true ↔
     valid (isValidMovementName name) = true
     ∧ valid (isValidMovementDescription description) = true
     ∧ (∃ start end_, Date_parse startDate = Some start
                      ∧ Date_parse endDate = Some end_ ∧ start ≤ end_)
     ∧ charity ≠ "")
  ∧ (CreateResult.success out.2 = false →
     out.1 = st ∧ CreateResult.movement out.2 = None
     ∧ is_Some (CreateResult.error out.2)).
Proof.
  cbv zeta. unfold createMovement.
  assert (Hrange : valid (isValidDateRange Date_parse startDate endDate) = true ↔
            ∃ start end_, Date_parse startDate = Some start
                          ∧ Date_parse endDate = Some end_ ∧ start ≤ end_).
  { unfold isValidDateRange.
    destruct (Date_parse startDate) as [start|], (Date_parse endDate) as [end_|];
      try (split; [done|by intros (?&?&?&?&?)]).
    destruct (Z.ltb_spec end_ start); cbn [valid].
    - split; [done|]. intros (?&?&[= <-]&[= <-]&?). lia.
    - split; [|done]. intros _. exists start, end_. by repeat split. }
  destruct (valid (isValidMovementName name)); cbn [negb];
    [|split; [split; [done|by intros (?&?)]|by eauto]].
  destruct (valid (isValidMovementDescription description)); cbn [negb];
    [|split; [split; [done|by intros (?&?&?)]|by eauto]].
  destruct (valid (isValidDateRange Date_parse startDate endDate)); cbn [negb].
  2:{ split; [|by eauto]. split; [done|]. intros (_&_&H&_). by apply Hrange in H. }
  destruct (String.eqb_spec charity "") as [->|Hne].
  - split; [|by eauto]. split; [done|]. by intros (_&_&_&?).
  - lazy zeta. rewrite snd_pair. cbn [CreateResult.success]. split; [|done].
    split; [|done]. intros _. repeat split; [by apply Hrange|done].
Qed.

Lemma find_movement_insert (movementId : Z) (ms : list Movement.t) (i : nat)
    (mv mv' : Movement.t) :
  find_movement movementId ms = Some (i, mv) →
  Movement.id mv' = Movement.id mv →
  find_movement movementId (<[i := mv']> ms) = Some (i, mv').
Proof.
  unfold find_movement. intros Hf Hid.
  apply list_find_Some in Hf as (Hi & Hmv & Hbefore).
  apply list_find_Some. split; [|split].
  - apply list_lookup_insert_eq. by eapply lookup_lt_Some.
  - congruence.
  - intros j y Hj Hlt. rewrite list_lookup_insert_ne in Hj by lia. by eapply Hbefore.
Qed.

Lemma list_find_snoc_you (l : list string) :
  "You" ∉ l → list_find (λ x, x = "You") (l ++ ["You"]) = Some (length l, "You").
Proof.
  intros Hl. apply list_find_Some. split; [|split; [done|]].
  - by rewrite lookup_app_r, Nat.sub_diag.
  - intros j y Hj Hlt ->. apply Hl. rewrite lookup_app_l in Hj by done.
    by eapply list_elem_of_lookup_2.
Qed.

(** X22.  Leaving a movement right after joining it puts the stored
    movements back as they were: the join appends ['You'] as the last
    member, and the leave removes that entry. *)
Theorem join_then_leave_restores (e e' : Env) (movementId : Z) (st : Store) :
  (joinMovement e movementId st).2 = true →
  setItem_ok e = true →
  (leaveMovement e' movementId (joinMovement e movementId st).1).2 = true
  ∧ (setItem_ok e' = true →
     getMovements (leaveMovement e' movementId (joinMovement e movementId st).1).1
     = getMovements st).
Proof.
  unfold joinMovement.
  destruct (Doc.movements (movement_getData st)) as [ms|] eqn:Hms; [|done].
  destruct (find_movement movementId ms) as [[i mv]|] eqn:Hf; [|done].
  destruct (bool_decide ("You" ∈ Movement.members mv)) eqn:Hin; [done|].
  apply bool_decide_eq_false in Hin.
  lazy zeta. rewrite fst_pair, snd_pair. intros _ Hok. rewrite save_doc_cases, Hok.
  set (mv' := Movement.with_members (λ l, (l ++ ["You"])%list) mv).
  unfold leaveMovement.
  cbn [movement_getData storage_get Doc.with_movements Doc.movements].
  rewrite (find_movement_insert movementId ms i mv mv' Hf eq_refl).
  change (Movement.members mv') with (Movement.members mv ++ ["You"])%list.
  rewrite (list_find_snoc_you _ Hin).
  lazy zeta. rewrite fst_pair, snd_pair. split; [done|].
  intros Hok'. rewrite save_doc_cases, Hok'.
  unfold getMovements at 1.
  cbn [movement_getData storage_get Doc.with_movements Doc.movements default].
  unfold getMovements. rewrite Hms. cbn [default]. unfold id.
  rewrite list_insert_insert_eq.
  apply list_insert_id.
  apply list_find_Some in Hf as (Hi & _). rewrite Hi. f_equal.
  destruct mv as [id name charity description startDate endDate creator members
                  totalRaised weeklyContributions createdAt].
  unfold mv', Movement.with_members. cbn. f_equal.
  by rewrite (delete_middle members [] "You"), app_nil_r.
Qed.

Lemma delete_first_you (l : list string) (index : nat) (you : string) :
  list_find (λ x, x = "You") l = Some (index, you) →
  (length (filter (λ x, x = "You") l) ≤ 1)%nat →
  "You" ∉ delete index l.
Proof.
  revert index. induction l as [|x l IH]; intros index Hf Hlen; [done|].
  rewrite filter_cons in Hlen. cbn in Hf.
  destruct (decide (x = "You")) as [->|Hx].
  - injection Hf as <- <-. cbn [delete list_delete]. cbn [length] in Hlen.
    intros Hin. assert ("You" ∈ filter (λ x, x = "You") l) as H
      by (by apply list_elem_of_filter).
    destruct (filter _ l); [by apply not_elem_of_nil in H|simpl in Hlen; lia].
  - destruct (list_find _ l) as [[j y]|] eqn:Hl; [|done].
    cbn in Hf. injection Hf as <- <-. cbn [delete list_delete].
    rewrite not_elem_of_cons. split; [done|]. by eapply IH.
Qed.

(** X23.  In a store that the operations reach, a leave that succeeds and
    is written takes ['You'] out of the movement altogether:
    [getMovementById] then returns the movement without ['You'] among its
    members, so that a further leave fails and a join succeeds. *)
Theorem leaving_removes_you (e : Env) (movementId : Z) (st : Store) :
  reachable Date_parse st →
  (leaveMovement e movementId st).2 = true →
  setItem_ok e = true →
  ∃ mv, getMovementById movementId (leaveMovement e movementId st).1 = Some mv
        ∧ "You" ∉ Movement.members mv.
Proof.
  intros Hreach. apply reachable_member_once in Hreach. unfold leaveMovement.
  destruct (Doc.movements (movement_getData st)) as [ms|] eqn:Hms; [|done].
  destruct (find_movement movementId ms) as [[i mv]|] eqn:Hf; [|done].
  destruct (list_find _ (Movement.members mv)) as [[index you]|] eqn:Hyou; [|done].
  lazy zeta. rewrite fst_pair, snd_pair. intros _ Hok. rewrite save_doc_cases, Hok.
  exists (Movement.with_members (delete index) mv). split.
  - unfold getMovementById.
    cbn [movement_getData storage_get Doc.with_movements Doc.movements mbind option_bind].
    by rewrite (find_movement_insert movementId ms i mv
                  (Movement.with_members (delete index) mv) Hf eq_refl).
  - cbn [Movement.members Movement.with_members].
    eapply delete_first_you; [exact Hyou|].
    rewrite (movement_getData_movements st ms Hms) in Hreach.
    rewrite Forall_forall in Hreach. apply Hreach.
    apply list_find_Some in Hf as (Hi & _). by eapply list_elem_of_lookup_2.
Qed.

(** ** Rewards and totals *)

Lemma monthly_fold_insert (p : string → bool) (o : gmap string Z) (k : string) (v : Z) :
  map_fold (λ key val total, if p key then total + val else total) 0 (<[k := v]> o)
  = map_fold (λ key val total, if p key then total + val else total) 0 o
    - (if p k then default 0 (o !! k) else 0) + (if p k then v else 0).
Proof.
  assert (Hcomm : ∀ (j1 j2 : string) (z1 z2 y : Z),
            (if p j1 then (if p j2 then y + z2 else y) + z1
             else if p j2 then y + z2 else y)
            = (if p j2 then (if p j1 then y + z1 else y) + z2
               else if p j1 then y + z1 else y))
    by (intros; destruct (p j1), (p j2); lia).
  destruct (o !! k) as [old|] eqn:Hk; simpl.
  - rewrite <- insert_delete_eq.
    rewrite map_fold_insert_L; [|by intros; apply Hcomm|by rewrite lookup_delete_eq].
    rewrite (map_fold_delete_L _ _ k old o); [|by intros; apply Hcomm|done].
    destruct (p k); lia.
  - rewrite map_fold_insert_L; [|by intros; apply Hcomm|done].
    destruct (p k); lia.
Qed.

Lemma prefix_append (s t u : string) :
  String.prefix (s +:+ t) (s +:+ u) = String.prefix t u.
Proof.
  induction s as [|a s IH]; [done|]. rewrite !append_cons. simpl.
  by destruct (ascii_dec a a).
Qed.

Lemma monthly_prefix (y m : Z) (weekNum : option Z) :
  String.prefix (pretty y +:+ "-" +:+ pretty m +:+ "-")
                (weekKeyOf (Some y) (Some m) weekNum) = true.
Proof.
  unfold weekKeyOf, show. rewrite prefix_append.
  change ("-" +:+ ?a) with (String "-" a). simpl.
  change ("-week" +:+ ?a) with (String "-" ("week" +:+ a)).
  rewrite (prefix_append (pretty m) (String "-" "")). done.
Qed.

Lemma prefix_split (p k : string) :
  String.prefix p k = true → ∃ rest, k = p +:+ rest.
Proof.
  revert k. induction p as [|a p IH]; intros k; [by exists k|].
  destruct k as [|b k]; [done|]. simpl.
  destruct (ascii_dec a b) as [->|]; [|done].
  intros H. destruct (IH k H) as [rest ->]. by exists rest.
Qed.

Lemma Number_nonneg (s : string) (z : Z) : Number s = Some z → 0 ≤ z.
Proof.
  unfold Number. destruct (digits_value 0 s); [|done]. intros [= <-]. lia.
Qed.

Lemma parseKey_nonneg (dateKey : string) (y m : Z) (day : option Z) :
  parseKey dateKey = (Some y, Some m, day) → 0 ≤ y ∧ 0 ≤ m.
Proof.
  unfold parseKey. intros [= Hy Hm _].
  destruct (split_on "-" dateKey) as [|sy [|sm rest]]; try done.
  cbn in Hy, Hm. split; by eapply Number_nonneg.
Qed.

(** Only the week keys of a month start with the prefix of that month. *)
Lemma monthly_prefix_inv (y m y' m' : Z) (weekNum : option Z) :
  0 ≤ y → 0 ≤ m → 0 ≤ y' → 0 ≤ m' →
  String.prefix (pretty y' +:+ "-" +:+ pretty m' +:+ "-")
                (weekKeyOf (Some y) (Some m) weekNum) = true →
  y' = y ∧ m' = m.
Proof.
  intros Hy Hm Hy' Hm' Hpre. apply prefix_split in Hpre as [rest Hrest].
  apply (f_equal (split_on "-")) in Hrest.
  change (weekKeyOf (Some y) (Some m) weekNum)
    with (pretty y +:+ String "-" (pretty m +:+ String "-" ("week" +:+ show weekNum)))
    in Hrest.
  rewrite (append_assoc (pretty y')) in Hrest.
  change (("-" +:+ pretty m' +:+ "-") +:+ rest)
    with (String "-" ((pretty m' +:+ "-") +:+ rest)) in Hrest.
  rewrite (append_assoc (pretty m')) in Hrest.
  change ("-" +:+ rest) with (String "-" rest) in Hrest.
  destruct (split_on_digits _ (pretty m +:+ String "-" ("week" +:+ show weekNum)) _ _
              (digits_value_pretty y Hy)) as [_ E1].
  destruct (split_on_digits _ ("week" +:+ show weekNum) _ _
              (digits_value_pretty m Hm)) as [_ E2].
  destruct (split_on_digits _ (pretty m' +:+ String "-" rest) _ _
              (digits_value_pretty y' Hy')) as [_ E3].
  destruct (split_on_digits _ rest _ _ (digits_value_pretty m' Hm')) as [_ E4].
  rewrite E1, E2, E3, E4 in Hrest. injection Hrest as H1 H2 _.
  split; by apply (inj pretty).
Qed.

(** X24.  A reward that a call issues and writes is added to the total
    earnings and to the total of the month of the date key, and to the total
    of no other month; whatever was stored under the week key before was
    absent or 0. *)
Theorem reward_adds_to_totals (c : string) (e : Env) (dateKey : string) (st : Store)
    (x y m : Z) (day : option Z) :
  Result.reward (completeWorkout Date_parse e dateKey st).2 = Some x →
  setItem_ok e = true →
  parseKey dateKey = (Some y, Some m, day) →
  getTotalEarnings c (completeWorkout Date_parse e dateKey st).1
  = getTotalEarnings c st + x
  ∧ getMonthlyTotal c y m (completeWorkout Date_parse e dateKey st).1
    = getMonthlyTotal c y m st + x
  ∧ ∀ y' m', 0 ≤ y' → 0 ≤ m' → (y', m') ≠ (y, m) →
      getMonthlyTotal c y' m' (completeWorkout Date_parse e dateKey st).1
      = getMonthlyTotal c y' m' st.
Proof.
  rewrite completeWorkout_unfold, fst_pair, snd_pair, saveData_cases.
  intros Hr -> Hp.
  destruct (completeWorkout_data_cases Date_parse (random e) dateKey
              (getData (fresh_invite e) st)) as (_ & _ & _ & _ & Hcases).
  cbv zeta in Hcases.
  destruct Hcases as [(Hnone & _)|(Hsome & _ & Hfalsy & Hw & _)]; [congruence|].
  rewrite Hr in Hsome. injection Hsome as Hx.
  unfold getTotalEarnings, getMonthlyTotal. rewrite !getData_to_doc, Hw, <- Hx.
  rewrite !(getWeeklyRewards_code' c (fresh_invite e)).
  assert (Hold : default 0 (Data.weeklyRewards (getData (fresh_invite e) st)
                            !! weekKeyFor dateKey) = 0).
  { unfold truthy_num in Hfalsy. destruct (_ !! weekKeyFor dateKey) as [v|]; [|done].
    simpl. destruct (Z.eqb_spec v 0); [done|discriminate]. }
  split; [|split].
  - pose proof (monthly_fold_insert (λ _, true)
                  (Data.weeklyRewards (getData (fresh_invite e) st))
                  (weekKeyFor dateKey) x) as H.
    cbv beta in H. rewrite H, Hold. lia.
  - rewrite monthly_fold_insert, Hold.
    unfold weekKeyFor. rewrite Hp, monthly_prefix. lia.
  - intros y' m' Hy' Hm' Hne. rewrite monthly_fold_insert, Hold.
    destruct (parseKey_nonneg dateKey y m day Hp) as [Hy Hm].
    unfold weekKeyFor. rewrite Hp.
    destruct (String.prefix _ (weekKeyOf (Some y) (Some m) _)) eqn:Hpre; [|lia].
    apply monthly_prefix_inv in Hpre as [-> ->]; done.
Qed.

(** X25.  What [exportData] returns can be given back to [importData]:
    once written, the export and the statistics are those of the store that
    was exported, whatever the store held in between and whichever invite
    code a later [getData] would draw; an import whose write fails changes
    nothing. *)
Theorem export_import_round_trip (c c' : string) (st st' : Store) :
  exportData c' (importData true (Data.to_doc (exportData c st)) st') = exportData c st
  ∧ getStats c' (importData true (Data.to_doc (exportData c st)) st') = getStats c st
  ∧ importData false (Data.to_doc (exportData c st)) st' = st'.
Proof.
  unfold importData, storage_set, exportData. rewrite fst_pair.
  split; [apply getData_to_doc|]. split; [|done].
  unfold getStats, getTotalCompletedDays, getCurrentStreak, getTotalEarnings.
  by rewrite !getData_to_doc.
Qed.

(** ** The state the engine is meant to run in *)

Lemma save_movements_view (c : string) (ok : bool) (ms : list Movement.t) (st : Store) :
  getWeeklyRewards c (save_doc ok (Doc.with_movements ms (movement_getData st)) st)
  = getWeeklyRewards c st
  ∧ getRewardRange c (save_doc ok (Doc.with_movements ms (movement_getData st)) st)
    = getRewardRange c st.
Proof. rewrite save_doc_cases. destruct ok; [|done]. by destruct st. Qed.

Lemma checkAndUnlockBadges_view (c : string) (e : Env) (st : Store) :
  getWeeklyRewards c (checkAndUnlockBadges e st).1 = getWeeklyRewards c st
  ∧ getRewardRange c (checkAndUnlockBadges e st).1 = getRewardRange c st.
Proof.
  rewrite checkAndUnlockBadges_cases. cbv zeta. rewrite fst_pair.
  destruct (0 <? length _)%nat; [|done].
  rewrite save_doc_cases. destruct (setItem_ok e); [|done]. by destruct st.
Qed.

Lemma sound_store_view (c : string) (st st' : Store) :
  getWeeklyRewards c st' = getWeeklyRewards c st
  ∧ getRewardRange c st' = getRewardRange c st →
  sound_store c st → sound_store c st'.
Proof. unfold sound_store. by intros [-> ->]. Qed.

Lemma apply_op_sound (c : string) (op : Op) (st : Store) :
  sound_store c st → sound_store c (apply_op Date_parse op st).
Proof.
  destruct op as [e dateKey|e min max|e|e eb name charity description startDate endDate
                  |e movementId|e movementId|e movementId weekKey amount];
    cbn [apply_op].
  - apply sound_store_completeWorkout.
  - unfold updateRewardRange.
    destruct ((min >? max) || (min <? 1)) eqn:Hguard; [done|].
    rewrite fst_pair, saveData_cases. destruct (setItem_ok e); [|done].
    intros [Hpos _]. unfold sound_store, getWeeklyRewards, getRewardRange.
    rewrite getData_to_doc. split.
    + by rewrite (getWeeklyRewards_code c (fresh_invite e)) in Hpos.
    + cbn. lia.
  - apply sound_store_view, checkAndUnlockBadges_view.
  - unfold createMovement.
    destruct (negb (valid (isValidMovementName name))); [done|].
    destruct (negb (valid (isValidMovementDescription description))); [done|].
    destruct (negb (valid (isValidDateRange Date_parse startDate endDate))); [done|].
    destruct (String.eqb charity ""); [done|].
    lazy zeta. rewrite fst_pair. intros H.
    eapply sound_store_view; [apply checkAndUnlockBadges_view|].
    eapply sound_store_view; [apply save_movements_view|done].
  - unfold joinMovement.
    destruct (Doc.movements (movement_getData st)) as [ms|]; [|done].
    destruct (find_movement movementId ms) as [[i movement]|]; [|done].
    destruct (bool_decide _); [done|].
    rewrite fst_pair. apply sound_store_view, save_movements_view.
  - unfold leaveMovement.
    destruct (Doc.movements (movement_getData st)) as [ms|]; [|done].
    destruct (find_movement movementId ms) as [[i movement]|]; [|done].
    destruct (list_find _ _) as [[index you]|]; [|done].
    rewrite fst_pair. apply sound_store_view, save_movements_view.
  - unfold addMovementContribution.
    destruct (Doc.movements (movement_getData st)) as [ms|]; [|done].
    destruct (find_movement movementId ms) as [[i movement]|]; [|done].
    destruct (negb _); [done|]. apply sound_store_view, save_movements_view.
Qed.

Lemma reachable_sound (c : string) (st : Store) :
  reachable Date_parse st → sound_store c st.
Proof.
  induction 1 as [|op st _ IH]; [|by apply apply_op_sound].
  split; [|cbn; lia]. intros k v. cbn. by rewrite lookup_empty.
Qed.

Lemma streak_is_size (c : string) (st : Store) :
  rewards_positive (getWeeklyRewards c st) →
  getCurrentStreak c st = Z.of_nat (size (getWeeklyRewards c st)).
Proof.
  intros Hpos. unfold getCurrentStreak, getWeeklyRewards in *.
  set (rewards := Data.weeklyRewards (getData c st)) in *.
  rewrite streak_loop_all.
  - rewrite (Permutation_length (sorted_keys_desc_perm rewards)).
    rewrite length_fmap, length_map_to_list. lia.
  - apply Forall_forall. intros key Hkey.
    rewrite (sorted_keys_desc_perm rewards) in Hkey.
    apply list_elem_of_fmap in Hkey. destruct Hkey as [[k v] [-> Hkv]].
    apply elem_of_map_to_list in Hkv. simpl.
    by apply (truthy_num_positive rewards k v).
Qed.

Lemma size_keys_kept (m1 m2 : gmap string Z) :
  (∀ k, is_Some (m1 !! k) → is_Some (m2 !! k)) → (size m1 ≤ size m2)%nat.
Proof.
  intros H. rewrite <- !size_dom. apply subseteq_size.
  intros k. rewrite !elem_of_dom. apply H.
Qed.

(** X26.  The state the engine is meant to run in is the state it stays in:
    in every store that the operations reach from a fresh browser (bounds
    being integers), every stored reward is positive and
    [1 ≤ minReward ≤ maxReward]; hence the streak is the number of rewarded
    weeks, and no operation makes it smaller. *)
Theorem reachable_store_is_sound (c : string) (op : Op) (st : Store) :
  reachable Date_parse st →
  sound_store c st
  ∧ getCurrentStreak c st = Z.of_nat (size (getWeeklyRewards c st))
  ∧ getCurrentStreak c st ≤ getCurrentStreak c (apply_op Date_parse op st).
Proof.
  intros Hreach.
  pose proof (reachable_sound c st Hreach) as Hs.
  pose proof (apply_op_sound c op st Hs) as Hs'.
  split; [done|]. split; [apply streak_is_size, Hs|].
  rewrite !streak_is_size by (apply Hs || apply Hs').
  destruct (apply_op_history_kept op st) as (_ & _ & Hkeys).
  rewrite !(getWeeklyRewards_code c "").
  pose proof (size_keys_kept _ _ Hkeys). lia.
Qed.

End MoreProperties.

(** ** The further properties at concrete inputs *)

Lemma earned_badges_are_unlocked_witness :
  "first_day" ∈ stored_unlocked
                  (checkAndUnlockBadges (Sample.env Sample.half true) Sample.store_six).1.
Proof.
  refine (proj1 (earned_badges_are_unlocked (Sample.env Sample.half true) Sample.store_six
                   (Badge.mk "first_day" "First Step" "Complete your first workout" 1
                             BadgeType.days) _ _ _)).
  - reflexivity.
  - apply list_elem_of_here.
  - vm_compute. reflexivity.
Defined.

(** A fresh browser, the first workout, then a badge check: ['first_day']
    is unlocked, once. *)
Lemma unlocked_badges_are_distinct_witness :
  stored_unlocked
    (apply_op Sample.parse (OpCheckAndUnlockBadges (Sample.env Sample.zero true))
       (apply_op Sample.parse (OpCompleteWorkout (Sample.env Sample.half true) "2026-2-1")
          None))
  = ["first_day"]
  ∧ NoDup (stored_unlocked
             (apply_op Sample.parse (OpCheckAndUnlockBadges (Sample.env Sample.zero true))
                (apply_op Sample.parse
                   (OpCompleteWorkout (Sample.env Sample.half true) "2026-2-1")
                   None)))
  ∧ (getBadgeCount
       (apply_op Sample.parse (OpCheckAndUnlockBadges (Sample.env Sample.zero true))
          (apply_op Sample.parse
             (OpCompleteWorkout (Sample.env Sample.half true) "2026-2-1")
             None))).1 = 1.
Proof.
  split; [vm_compute; reflexivity|].
  split; [|vm_compute; reflexivity].
  refine (proj1 (unlocked_badges_are_distinct Sample.parse _ _)).
  apply reachable_step, reachable_step, reachable_fresh.
Defined.

Lemma completion_is_recorded_witness :
  isDayCompleted "" "2026-2-7"
    (completeWorkout Sample.parse (Sample.env Sample.half true) "2026-2-7"
       Sample.store_six).1 = true.
Proof.
  refine (proj1 (completion_is_recorded Sample.parse "" (Sample.env Sample.half true)
                   "2026-2-7" Sample.store_six) _).
  reflexivity.
Defined.

Lemma total_days_counts_distinct_keys_witness :
  getTotalCompletedDays ""
    (completeWorkout Sample.parse (Sample.env Sample.half true) "2026-2-7"
       Sample.store_six).1
  = if decide (is_Some (getCompletedDays "" Sample.store_six !! "2026-2-7"))
    then getTotalCompletedDays "" Sample.store_six
    else if decide ("2026-2-7" = "__proto__") then getTotalCompletedDays "" Sample.store_six
    else getTotalCompletedDays "" Sample.store_six + 1.
Proof.
  refine (total_days_counts_distinct_keys Sample.parse "" (Sample.env Sample.half true)
            "2026-2-7" Sample.store_six _).
  reflexivity.
Defined.

Lemma completion_unlocks_badges_witness :
  "first_day"
  ∈ stored_unlocked
      (handleCompleteWorkout Sample.parse (Sample.env Sample.half true)
         (Sample.env Sample.zero true) "2026-2-7" Sample.store_six)
  ∧ "week_warrior"
    ∈ stored_unlocked
        (handleCompleteWorkout Sample.parse (Sample.env Sample.half true)
           (Sample.env Sample.zero true) "2026-2-7" Sample.store_six).
Proof.
  destruct (completion_unlocks_badges Sample.parse (Sample.env Sample.half true)
              (Sample.env Sample.zero true) "2026-2-7" Sample.store_six) as [H1 H2].
  - reflexivity.
  - reflexivity.
  - discriminate.
  - split; [exact H1|]. apply H2. vm_compute. discriminate.
Defined.

Lemma created_movement_is_stored_witness :
  getMovements
    (createMovement Sample.parse (Sample.env Sample.half true) (Sample.env Sample.zero true)
       "Run for water" "charity: water" "Ten kilometres a week"
       "2026-01-01" "2026-12-31" Sample.store_six).1
  = (getMovements Sample.store_six
     ++ [Movement.mk 1767225600000 "Run for water" "charity: water"
           "Ten kilometres a week" "2026-01-01" "2026-12-31" "You" ["You"] 0 (Some ∅)
           "2026-01-01T00:00:00.000Z"])%list.
Proof.
  refine (proj1 (created_movement_is_stored Sample.parse (Sample.env Sample.half true)
                   (Sample.env Sample.zero true)
                   "Run for water" "charity: water" "Ten kilometres a week"
                   "2026-01-01" "2026-12-31" Sample.store_six _ _ _)).
  - vm_compute. reflexivity.
  - reflexivity.
Defined.

Lemma createMovement_validates_witness :
  (createMovement Sample.parse (Sample.env Sample.half true) (Sample.env Sample.zero true)
     "Run for water" "" "Ten kilometres a week"
     "2026-01-01" "2026-12-31" Sample.store_six).1
  = Sample.store_six.
Proof.
  refine (proj1 (proj2 (createMovement_validates Sample.parse (Sample.env Sample.half true)
                          (Sample.env Sample.zero true)
                          "Run for water" "" "Ten kilometres a week"
                          "2026-01-01" "2026-12-31" Sample.store_six) _)).
  vm_compute. reflexivity.
Defined.

Lemma join_then_leave_restores_witness :
  (leaveMovement (Sample.env Sample.zero true) 3
     (joinMovement (Sample.env Sample.half true) 3 Sample.store_six).1).2 = true.
Proof.
  refine (proj1 (join_then_leave_restores (Sample.env Sample.half true)
                   (Sample.env Sample.zero true) 3 Sample.store_six _ _)).
  - vm_compute. reflexivity.
  - reflexivity.
Defined.

Lemma leaving_removes_you_witness :
  ∃ mv,
    getMovementById 1767225600000
      (leaveMovement (Sample.env Sample.half true) 1767225600000
         (apply_op Sample.parse
            (OpCreateMovement (Sample.env Sample.half true) (Sample.env Sample.half true)
               "Run for water" "charity: water" "Ten kilometres a week"
               "2026-01-01" "2026-12-31")
            None)).1 = Some mv
    ∧ "You" ∉ Movement.members mv.
Proof.
  refine (leaving_removes_you Sample.parse (Sample.env Sample.half true) 1767225600000
            _ _ _ _).
  - apply reachable_step, reachable_fresh.
  - vm_compute. reflexivity.
  - reflexivity.
Defined.

Lemma reward_adds_to_totals_witness :
  getTotalEarnings ""
    (completeWorkout Sample.parse (Sample.env Sample.half true) "2026-2-7"
       Sample.store_six).1
  = getTotalEarnings "" Sample.store_six + 3
  ∧ getMonthlyTotal "" 2026 2
      (completeWorkout Sample.parse (Sample.env Sample.half true) "2026-2-7"
         Sample.store_six).1
    = getMonthlyTotal "" 2026 2 Sample.store_six + 3.
Proof.
  pose proof (reward_adds_to_totals Sample.parse "" (Sample.env Sample.half true)
                "2026-2-7" Sample.store_six 3 2026 2 (Some 7)) as H.
  destruct H as (H1 & H2 & _).
  - vm_compute. reflexivity.
  - reflexivity.
  - vm_compute. reflexivity.
  - split; [exact H1|exact H2].
Defined.

Lemma history_is_kept_witness :
  isDayCompleted "" "2026-2-1"
    (apply_op Sample.parse (OpUpdateRewardRange (Sample.env Sample.half true) 2 9)
       Sample.store_six) = true.
Proof.
  refine (proj1 (history_is_kept Sample.parse
                   (OpUpdateRewardRange (Sample.env Sample.half true) 2 9)
                   "" Sample.store_six "2026-2-1") _).
  vm_compute. reflexivity.
Defined.

Lemma invite_code_is_kept_witness :
  stored_invite
    (completeWorkout Sample.parse (Sample.env Sample.half true) "2026-2-7"
       Sample.store_six).1
  = Some (Data.inviteCode (getData "WALKABCDEF" Sample.store_six)).
Proof.
  refine (proj1 (invite_code_is_kept Sample.parse (Sample.env Sample.half true) "2026-2-7"
                   (OpCheckAndUnlockBadges (Sample.env Sample.half true))
                   Sample.store_six) _).
  reflexivity.
Defined.

Lemma cheer_is_given_once_witness :
  hasCheered "42" (cheerFriend (Sample.env Sample.half true) "42" Sample.store_six).1
  = true.
Proof.
  refine (proj1 (cheer_is_given_once (Sample.env Sample.half true)
                   (Sample.env Sample.zero true) "42" Sample.store_six _)).
  reflexivity.
Defined.

Lemma reachable_store_is_sound_witness :
  sound_store ""
    (apply_op Sample.parse (OpUpdateRewardRange (Sample.env Sample.half true) 2 9) None).
Proof.
  refine (proj1 (reachable_store_is_sound Sample.parse ""
                   (OpCheckAndUnlockBadges (Sample.env Sample.half true)) _ _)).
  apply reachable_step, reachable_fresh.
Defined.

Lemma date_key_round_trip_witness :
  parseKey (dateKeyOf (Some 2026) (Some 2) 7) = (Some 2026, Some 2, Some 7).
Proof.
  refine (proj1 (date_key_round_trip 2026 2 7 2026 2 7 _ _ _)); lia.
Defined.

Lemma only_full_weeks_complete_witness :
  isWeekComplete (getData "" Sample.store_six) (Some 2026) (Some 2) (Some 1) = true ↔
  ∀ day, 7 * (1 - 1) < 0 + day ≤ 7 * 1 →
    1 ≤ day ≤ Calendar.days_in_month 2026 2
    ∧ Data.completedDays (getData "" Sample.store_six)
      !! dateKeyOf (Some 2026) (Some 2) day = Some true.
Proof.
  refine (only_full_weeks_complete (getData "" Sample.store_six) 2026 2 1 0 _ _ _).
  - lia.
  - lia.
  - vm_compute. reflexivity.
Defined.

Lemma summary_shows_every_week_witness :
  weekKeyFor "2026-2-7" ∈ summaryWeekKeys (Some 2026) (Some (2 - 1)).
Proof.
  refine (proj1 (summary_shows_every_week "2026-2-7" 2026 2 7 _ _ _ _)).
  - vm_compute. reflexivity.
  - lia.
  - lia.
  - change (1 ≤ 7 ≤ 28). lia.
Defined.

Lemma truncateText_length_witness :
  str_length (truncateText "Ten kilometres a week" 10) ≤ 10.
Proof. refine (proj1 (truncateText_length "Ten kilometres a week" 10 _)). lia. Defined.

Lemma relative_time_count_witness :
  0 ≤ 0
  ∧ (0 = 0 ↔ 28 * 86400000 ≤ 2419200000 - 0 < 30 * 86400000
             ∨ 360 * 86400000 ≤ 2419200000 - 0 < 365 * 86400000).
Proof.
  refine (relative_time_count 2419200000 0 0 "month" _).
  vm_compute. reflexivity.
Defined.
